(** * Glitch Runner: the entity simulation engine

    A shallow embedding of the frame loop of the game ([setupLevel],
    [gameLoop], [checkCollision], [resetLevel] of the application
    component), of the handlers of the level editor around it
    ([handleUpdateEntity], [handleUpdatePhysics], [handleEditorDrop],
    [handleEntityMove], [handleDeleteEntity], [handleTestToggle],
    [handleLevelComplete], the handlers of the inspector and of the
    viewport) and of the music of the audio engine, together with their
    properties.

    Conventions of the embedding.
    - A JavaScript [number] is an exact rational ([Q]); rounding, [NaN]
      and the infinities are outside the model.  [Math.sqrt],
      [Math.atan2], [Math.cos], [Math.sin] and the printing of a number
      inside a template string have no rational counterpart: they are the
      fields of a [MathLib] the engine is parameterised by, and nothing is
      assumed about them.
    - A [Vector2] that the code mutates in place ([pos], [velocity]) is a
      cell of an explicit [Heap]; an entity holds a reference to it, so two
      records made by a spread ([{ ...e }]) share the cell.  [size],
      [patrolStart] and [patrolEnd] are only ever read and are kept by
      value.
    - [color], [label], [description] and [patrolRange] are never read by
      the engine and are left out of the entity record.
    - The sound cues are logged as signals.  The scheduling of the frames
      ([requestAnimationFrame]), the [entities] state that mirrors the
      refs for the renderer and the banner messages are not part of the
      model: a frame is a function from the state the loop closes over,
      the held keys, the time stamp and the refs, to the refs and an
      outcome.
    - A handler is a function on a [Component]: the state of the last
      render, the refs, the selection.  What a handler reads from its
      closure is an argument of its own, apart from the state its setters
      act on, so that two calls made by one handler see the same closure.
      A [Partial<GameEntity>] is the list of its assignments, spread from
      left to right.
    - The timers of the music are handles in a list; what a tick of the
      sequencer plays is not modelled.
    - A run of frames is [gameLoop] applied again and again in the state
      of one render, as [requestAnimationFrame] does: it goes on after a
      frame that sets the level up again, and ends with the frame in
      which the player reaches the exit, which requests no frame. *)

From Stdlib Require Import QArith Qminmax Qabs Qround Lqa Lia String Bool.
From stdpp Require Import base list pretty.

Open Scope Q_scope.

(* ================================================================== *)
(** ** Numbers *)

Module Num.

(** [a < b], [a > b], [a <= b], [a >= b] and [a === b] on numbers. *)
Definition ltb (a b : Q) : bool := negb (Qle_bool b a).
Definition gtb (a b : Q) : bool := ltb b a.
Definition leb (a b : Q) : bool := Qle_bool a b.
Definition geb (a b : Q) : bool := Qle_bool b a.
Definition eqb (a b : Q) : bool := Qeq_bool a b.

(** Truthiness of a number: every number but zero. *)
Definition truthy (a : Q) : bool := negb (Qeq_bool a 0).

(** [o || d] for an optional number. *)
Definition or_default (o : option Q) (d : Q) : Q :=
  match o with
  | Some a => if truthy a then a else d
  | None => d
  end.

(** [Math.sign]. *)
Definition sign (a : Q) : Q :=
  if ltb 0 a then 1 else if ltb a 0 then -1 else 0.

End Num.

(** The parts of the host's library that have no exact rational
    counterpart. *)
Record MathLib := {
  Math_sqrt : Q -> Q;
  Math_atan2 : Q -> Q -> Q;
  Math_cos : Q -> Q;
  Math_sin : Q -> Q;
  Number_toString : Q -> string
}.

(* ================================================================== *)
(** ** Data model (types.ts, constants.ts) *)

Record Vector2 := { x : Q; y : Q }.

Inductive EntityType :=
  PLAYER | WALL | DOOR | PLATFORM | ENEMY | PROJECTILE | EXIT | TEXT.

Inductive Behavior := DEFAULT | PATROL | TURRET.

Definition EntityType_eqb (a b : EntityType) : bool :=
  match a, b with
  | PLAYER, PLAYER | WALL, WALL | DOOR, DOOR | PLATFORM, PLATFORM
  | ENEMY, ENEMY | PROJECTILE, PROJECTILE | EXIT, EXIT | TEXT, TEXT => true
  | _, _ => false
  end.

Definition Behavior_is (b : Behavior) (o : option Behavior) : bool :=
  match b, o with
  | DEFAULT, Some DEFAULT | PATROL, Some PATROL | TURRET, Some TURRET => true
  | _, _ => false
  end.

(** Truthiness of an optional flag ([isDeadly?: boolean]). *)
Definition flag (o : option bool) : bool :=
  match o with Some b => b | None => false end.

(** A reference to a [Vector2] object. *)
Definition ref := nat.

Definition zero2 : Vector2 := {| x := 0; y := 0 |}.

(** The [Vector2] objects by reference: the object behind each reference,
    and the next reference that is free.  A reference never dangles in the
    source, so the map is total. *)
Record Heap := { cell : ref -> Vector2; next : ref }.

Definition emptyHeap : Heap := {| cell := fun _ => zero2; next := 0%nat |}.

Definition deref (h : Heap) (r : ref) : Vector2 := cell h r.

Definition store (h : Heap) (r : ref) (v : Vector2) : Heap :=
  {| cell := fun r' => if Nat.eqb r' r then v else cell h r';
     next := next h |}.

(** A new object: its reference is the next free one. *)
Definition alloc (h : Heap) (v : Vector2) : Heap * ref :=
  ({| cell := fun r' => if Nat.eqb r' (next h) then v else cell h r';
      next := S (next h) |},
   next h).

(** [o.x = a] and [o.y = a] on the object behind [r]. *)
Definition setX (h : Heap) (r : ref) (a : Q) : Heap :=
  store h r {| x := a; y := y (deref h r) |}.

Definition setY (h : Heap) (r : ref) (a : Q) : Heap :=
  store h r {| x := x (deref h r); y := a |}.

(** [GameEntity].  [V] is what the [velocity] field holds: a reference in
    a World State, an optional reference in a blueprint, where
    [setupLevel] provides for its absence. *)
Record EntityOf (V : Type) := mkEntity {
  id : string;
  type : EntityType;
  name : string;
  pos : ref;
  size : Vector2;
  velocity : V;
  isStatic : bool;
  isSolid : bool;
  isVisible : bool;
  isLocked : option bool;
  isDeadly : option bool;
  isAlwaysVisible : option bool;
  gravityScale : option Q;
  behavior : option Behavior;
  origin : option Vector2;
  patrolStart : option Vector2;
  patrolEnd : option Vector2;
  patrolSpeed : option Q;
  fireRate : option Q;
  projectileSpeed : option Q;
  lastFireTime : option Q
}.

Arguments mkEntity {V}.
Arguments id {V}. Arguments type {V}. Arguments name {V}.
Arguments pos {V}. Arguments size {V}. Arguments velocity {V}.
Arguments isStatic {V}. Arguments isSolid {V}. Arguments isVisible {V}.
Arguments isLocked {V}. Arguments isDeadly {V}.
Arguments isAlwaysVisible {V}. Arguments gravityScale {V}.
Arguments behavior {V}. Arguments origin {V}.
Arguments patrolStart {V}. Arguments patrolEnd {V}.
Arguments patrolSpeed {V}. Arguments fireRate {V}.
Arguments projectileSpeed {V}. Arguments lastFireTime {V}.

Abbreviation GameEntity := (EntityOf ref).
Abbreviation EntityTemplate := (EntityOf (option ref)).

(** [{ ...e, velocity: v }]. *)
Definition with_velocity {V W : Type} (e : EntityOf V) (v : W) : EntityOf W :=
  mkEntity (id e) (type e) (name e) (pos e) (size e) v
    (isStatic e) (isSolid e) (isVisible e) (isLocked e) (isDeadly e)
    (isAlwaysVisible e) (gravityScale e) (behavior e) (origin e)
    (patrolStart e) (patrolEnd e) (patrolSpeed e) (fireRate e)
    (projectileSpeed e) (lastFireTime e).

(** [e.isVisible = b]. *)
Definition with_isVisible {V : Type} (e : EntityOf V) (b : bool) : EntityOf V :=
  mkEntity (id e) (type e) (name e) (pos e) (size e) (velocity e)
    (isStatic e) (isSolid e) b (isLocked e) (isDeadly e)
    (isAlwaysVisible e) (gravityScale e) (behavior e) (origin e)
    (patrolStart e) (patrolEnd e) (patrolSpeed e) (fireRate e)
    (projectileSpeed e) (lastFireTime e).

(** [e.lastFireTime = t]. *)
Definition with_lastFireTime {V : Type} (e : EntityOf V) (t : Q) : EntityOf V :=
  mkEntity (id e) (type e) (name e) (pos e) (size e) (velocity e)
    (isStatic e) (isSolid e) (isVisible e) (isLocked e) (isDeadly e)
    (isAlwaysVisible e) (gravityScale e) (behavior e) (origin e)
    (patrolStart e) (patrolEnd e) (patrolSpeed e) (fireRate e)
    (projectileSpeed e) (Some t).

Record GlobalPhysics := { gravity : Q; friction : Q; timeScale : Q }.

Record LevelData := {
  level_id : Q;
  level_name : string;
  level_description : string;
  startPos : ref;
  entities : list EntityTemplate;
  physics : GlobalPhysics
}.

Definition CANVAS_WIDTH : Q := 800.
Definition CANVAS_HEIGHT : Q := 600.
Definition PLAYER_SIZE : Vector2 := {| x := 32; y := 32 |}.

(* ================================================================== *)
(** ** Collision test *)

(** What [checkCollision] reads of an entity: its rectangle. *)
Record Rect := { r_pos : Vector2; r_size : Vector2 }.

Definition rectOf (h : Heap) (e : GameEntity) : Rect :=
  {| r_pos := deref h (pos e); r_size := size e |}.

Definition checkCollision (a b : Rect) : bool :=
  Num.ltb (x (r_pos a)) (x (r_pos b) + x (r_size b)) &&
  Num.gtb (x (r_pos a) + x (r_size a)) (x (r_pos b)) &&
  Num.ltb (y (r_pos a)) (y (r_pos b) + y (r_size b)) &&
  Num.gtb (y (r_pos a) + y (r_size a)) (y (r_pos b)).

(* ================================================================== *)
(** ** Engine state *)

(** The sound cues of the audio engine, as signals. *)
Inductive Sfx :=
  sfxShoot | sfxDie | sfxJump | sfxStep | sfxClick | sfxLevelComplete | sfxWin.

Inductive GameState := MENU | PLAYING | ABOUT | WON | EDITOR.

(** [keysRef.current]: whether the key of a given code is held. *)
Definition Keys := string -> bool.

(** What survives from one frame to the next: the objects, and the refs of
    the component ([entitiesRef], [physicsRef], [lastTimeRef],
    [targetXRef], [lastStepTimeRef]); [audio] is the log of the cues played
    so far, latest last. *)
Record Engine := {
  heap : Heap;
  entitiesRef : list GameEntity;
  physicsRef : GlobalPhysics;
  lastTimeRef : Q;
  targetXRef : option Q;
  lastStepTimeRef : Q;
  audio : list Sfx
}.

(** The state of the component the loop closes over.  levels.ts is not
    among the sources: the table [LEVELS] is a parameter, given as its
    first level and the others ([LEVELS[0]] is read unguarded). *)
Record Mode := {
  gameState : GameState;
  isEditorTesting : bool;
  isPaused : bool;
  currentLevelId : Q;
  editorLevel : LevelData;
  LEVELS_first : LevelData;
  LEVELS_rest : list LevelData
}.

(** The locals of one run of the loop body, with the refs it writes. *)
Record Frame := {
  f_heap : Heap;
  currentEntities : list GameEntity;
  newProjectiles : list GameEntity;
  f_targetX : option Q;
  f_lastStepTime : Q;
  f_audio : list Sfx
}.

Definition setHeap (fr : Frame) (h : Heap) : Frame :=
  {| f_heap := h; currentEntities := currentEntities fr;
     newProjectiles := newProjectiles fr; f_targetX := f_targetX fr;
     f_lastStepTime := f_lastStepTime fr; f_audio := f_audio fr |}.

Definition setCurrent (fr : Frame) (es : list GameEntity) : Frame :=
  {| f_heap := f_heap fr; currentEntities := es;
     newProjectiles := newProjectiles fr; f_targetX := f_targetX fr;
     f_lastStepTime := f_lastStepTime fr; f_audio := f_audio fr |}.

Definition setTargetX (fr : Frame) (t : option Q) : Frame :=
  {| f_heap := f_heap fr; currentEntities := currentEntities fr;
     newProjectiles := newProjectiles fr; f_targetX := t;
     f_lastStepTime := f_lastStepTime fr; f_audio := f_audio fr |}.

Definition play (fr : Frame) (s : Sfx) : Frame :=
  {| f_heap := f_heap fr; currentEntities := currentEntities fr;
     newProjectiles := newProjectiles fr; f_targetX := f_targetX fr;
     f_lastStepTime := f_lastStepTime fr; f_audio := f_audio fr ++ [s] |}.

(** [audio.sfxStep(); lastStepTimeRef.current = time]. *)
Definition step_sound (fr : Frame) (time : Q) : Frame :=
  {| f_heap := f_heap fr; currentEntities := currentEntities fr;
     newProjectiles := newProjectiles fr; f_targetX := f_targetX fr;
     f_lastStepTime := time; f_audio := f_audio fr ++ [sfxStep] |}.

(** Why the loop body returned before the end of the frame. *)
Inductive Signal := Died | ReachedExit.

(** A piece of the body either falls through or returns from [gameLoop]. *)
Inductive Flow (A : Type) :=
| Go (a : A)
| Stop (sig : Signal) (a : A).

Arguments Go {A}.
Arguments Stop {A}.

(* ================================================================== *)
(** ** Level setup *)

Definition player_entity (ppos pvel : ref) : GameEntity :=
  mkEntity "player_1"%string PLAYER "UserAgent"%string ppos PLAYER_SIZE pvel
    false true true None None None (Some 1) None None None None None None
    None None.

(** One step of [level.entities.map]: the spread keeps the template's
    [pos] object (and its [velocity] object, when it has one). *)
Definition instantiate (h : Heap) (e : EntityTemplate) : Heap * GameEntity :=
  let '(h1, v) :=
    match velocity e with
    | Some r => (h, r)
    | None => alloc h zero2
    end in
  (h1,
   mkEntity (id e) (type e) (name e) (pos e) (size e) v
     (isStatic e) (isSolid e) (isVisible e) (isLocked e) (isDeadly e)
     (isAlwaysVisible e)
     (Some (match gravityScale e with Some g => g | None => 1 end))
     (Some (match behavior e with Some b => b | None => DEFAULT end))
     (Some (deref h1 (pos e)))
     (patrolStart e) (patrolEnd e) (patrolSpeed e) (fireRate e)
     (projectileSpeed e) (lastFireTime e)).

Fixpoint instantiateAll (h : Heap) (es : list EntityTemplate)
  : Heap * list GameEntity :=
  match es with
  | [] => (h, [])
  | e :: rest =>
      let '(h1, e') := instantiate h e in
      let '(h2, rest') := instantiateAll h1 rest in
      (h2, e' :: rest')
  end.

Definition setupLevel (level : LevelData) (E : Engine) : Engine :=
  let '(h1, ppos) := alloc (heap E) (deref (heap E) (startPos level)) in
  let '(h2, pvel) := alloc h1 zero2 in
  let player := player_entity ppos pvel in
  let '(h3, initialEntities) := instantiateAll h2 (entities level) in
  {| heap := h3;
     entitiesRef := initialEntities ++ [player];
     physicsRef := physics level;
     lastTimeRef := lastTimeRef E;
     targetXRef := None;
     lastStepTimeRef := lastStepTimeRef E;
     audio := audio E |}.

(** [LEVELS.find(l => l.id === currentLevelId) || LEVELS[0]]. *)
Definition currentLevel (mode : Mode) : LevelData :=
  match List.find (fun l => Num.eqb (level_id l) (currentLevelId mode))
          (LEVELS_first mode :: LEVELS_rest mode) with
  | Some l => l
  | None => LEVELS_first mode
  end.

Definition resetLevel (mode : Mode) (E : Engine) : Engine :=
  match gameState mode, isEditorTesting mode with
  | EDITOR, true => setupLevel (editorLevel mode) E
  | _, _ => setupLevel (currentLevel mode) E
  end.

(* ================================================================== *)
(** ** Behaviours *)

(** [ent.velocity = { x: vx, y: vy }]: a new object, so the entity stops
    sharing its velocity with the record it was spread from. *)
Definition assign_velocity (h : Heap) (ent : GameEntity) (v : Vector2)
  : Heap * GameEntity :=
  let '(h1, r) := alloc h v in (h1, with_velocity ent r).

(** The patrol block of the loop body. *)
Definition patrolBehavior (M : MathLib) (h : Heap) (ent : GameEntity)
  : Heap * GameEntity :=
  match patrolStart ent, patrolEnd ent with
  | Some pStart, Some pEnd =>
      if Behavior_is PATROL (behavior ent) && negb (isStatic ent) then
        let speed := Num.or_default (patrolSpeed ent) 100 in
        let path := {| x := x pEnd - x pStart; y := y pEnd - y pStart |} in
        let pathLen := Math_sqrt M (x path ^ 2 + y path ^ 2) in
        if Num.gtb pathLen 0 then
          let p := deref h (pos ent) in
          let toPos := {| x := x p - x pStart; y := y p - y pStart |} in
          let dot := x toPos * x path + y toPos * y path in
          let proj := dot / (pathLen * pathLen) in
          let v := deref h (velocity ent) in
          let velocityDot := x v * x path + y v * y path in
          let movingTowardsEnd := Num.geb velocityDot 0 in
          if Num.eqb (x v) 0 && Num.eqb (y v) 0 then
            assign_velocity h ent
              {| x := (x path / pathLen) * speed;
                 y := (y path / pathLen) * speed |}
          else if movingTowardsEnd && Num.geb proj 1 then
            assign_velocity h ent
              {| x := - (x path / pathLen) * speed;
                 y := - (y path / pathLen) * speed |}
          else if negb movingTowardsEnd && Num.leb proj 0 then
            assign_velocity h ent
              {| x := (x path / pathLen) * speed;
                 y := (y path / pathLen) * speed |}
          else (h, ent)
        else (h, ent)
      else (h, ent)
  | _, _ => (h, ent)
  end.

Definition is_player (e : GameEntity) : bool := EntityType_eqb (type e) PLAYER.
Definition is_exit (e : GameEntity) : bool := EntityType_eqb (type e) EXIT.

Definition center (r : Rect) : Vector2 :=
  {| x := x (r_pos r) + x (r_size r) / 2;
     y := y (r_pos r) + y (r_size r) / 2 |}.

(** The aim of a turret at a player: [None] when it must not fire,
    otherwise the velocity and the spawn position of the projectile. *)
Definition turretAim (M : MathLib) (h : Heap) (ent : GameEntity)
    (player : option GameEntity) : option (Vector2 * Vector2) :=
  match player with
  | Some pl =>
      if isVisible pl then
        let turretCenter := center (rectOf h ent) in
        let playerCenter := center (rectOf h pl) in
        let dx := x playerCenter - x turretCenter in
        let dy := y playerCenter - y turretCenter in
        let dist := Math_sqrt M (dx * dx + dy * dy) in
        if Num.ltb dist 500 then
          let angle := Math_atan2 M dy dx in
          let projSpeed := Num.or_default (projectileSpeed ent) 300 in
          let fireVelocity :=
            {| x := Math_cos M angle * projSpeed;
               y := Math_sin M angle * projSpeed |} in
          let spawnOffset := 35 in
          let spawnPos :=
            {| x := x turretCenter + Math_cos M angle * spawnOffset - 5;
               y := y turretCenter + Math_sin M angle * spawnOffset - 5 |} in
          Some (fireVelocity, spawnPos)
        else None
      else None
  | None => None
  end.

(** [!ent.lastFireTime || now - ent.lastFireTime > ent.fireRate]. *)
Definition rearmed (now : Q) (ent : GameEntity) (rate : Q) : bool :=
  match lastFireTime ent with
  | Some t => negb (Num.truthy t) || Num.gtb (now - t) rate
  | None => true
  end.

Definition projectile_entity (M : MathLib) (owner : GameEntity) (now : Q)
    (ppos pvel : ref) : GameEntity :=
  mkEntity
    ("proj_" ++ id owner ++ "_" ++ Number_toString M now)%string
    PROJECTILE "Projectile"%string ppos {| x := 10; y := 10 |} pvel
    false false true None (Some true) None (Some 0) None None None None None
    None None None.

(** The turret block of the loop body; the objects of the projectile are
    allocated when it is pushed. *)
Definition turretBehavior (M : MathLib) (time : Q) (fr : Frame)
    (ent : GameEntity) : Frame * GameEntity :=
  match fireRate ent with
  | Some rate =>
      if Behavior_is TURRET (behavior ent) && Num.truthy rate then
        let now := time in
        let player := List.find is_player (currentEntities fr) in
        match turretAim M (f_heap fr) ent player with
        | Some (fireVelocity, spawnPos) =>
            if rearmed now ent rate then
              let ent' := with_lastFireTime ent now in
              let '(h1, ppos) := alloc (f_heap fr) spawnPos in
              let '(h2, pvel) := alloc h1 fireVelocity in
              ({| f_heap := h2;
                  currentEntities := currentEntities fr;
                  newProjectiles :=
                    newProjectiles fr ++ [projectile_entity M ent now ppos pvel];
                  f_targetX := f_targetX fr;
                  f_lastStepTime := f_lastStepTime fr;
                  f_audio := f_audio fr ++ [sfxShoot] |},
               ent')
            else (fr, ent)
        | None => (fr, ent)
        end
      else (fr, ent)
  | None => (fr, ent)
  end.

(* ================================================================== *)
(** ** Forces and player control *)

Definition applyGravity (phys : GlobalPhysics) (deltaTime : Q) (h : Heap)
    (ent : GameEntity) : Heap :=
  let gravityMultiplier :=
    match gravityScale ent with Some g => g | None => 1 end in
  setY h (velocity ent)
    (y (deref h (velocity ent))
     + gravity phys * 2000 * gravityMultiplier * deltaTime).

Definition MOVE_ACCEL : Q := 300.
Definition MAX_WALK_SPEED : Q := 200.

Definition heldRight (keys : Keys) : bool :=
  keys "ArrowRight"%string || keys "KeyD"%string.
Definition heldLeft (keys : Keys) : bool :=
  keys "ArrowLeft"%string || keys "KeyA"%string.
Definition heldJump (keys : Keys) : bool :=
  keys "ArrowUp"%string || keys "KeyW"%string || keys "Space"%string.

(** The block [if (ent.type === EntityType.PLAYER) { ... }] after the
    forces. *)
Definition playerControl (phys : GlobalPhysics) (deltaTime time : Q)
    (keys : Keys) (ent : GameEntity) (fr : Frame) : Frame :=
  let v := velocity ent in
  let h1 :=
    if heldRight keys
    then setX (f_heap fr) v (x (deref (f_heap fr) v) + MOVE_ACCEL * deltaTime)
    else f_heap fr in
  let h2 :=
    if heldLeft keys
    then setX h1 v (x (deref h1 v) - MOVE_ACCEL * deltaTime)
    else h1 in
  let manualInput := heldRight keys || heldLeft keys in
  if manualInput then
    let h3 := setX h2 v (x (deref h2 v) * friction phys) in
    let fr1 := setTargetX (setHeap fr h3) None in
    if Num.gtb (Qabs (x (deref h3 v))) 10
       && Num.gtb (time - f_lastStepTime fr) 300
       && Num.ltb (Qabs (y (deref h3 v))) 5
    then step_sound fr1 time
    else fr1
  else
    match f_targetX fr with
    | Some targetX =>
        let center := x (deref h2 (pos ent)) + x (size ent) / 2 in
        let diff := targetX - center in
        if Num.ltb (Qabs diff) 5 then
          setTargetX (setHeap fr (setX h2 v 0)) None
        else
          let h3 := setX h2 v (Num.sign diff * MAX_WALK_SPEED) in
          let fr1 := setHeap fr h3 in
          if Num.gtb (time - f_lastStepTime fr) 300
             && Num.ltb (Qabs (y (deref h3 v))) 5
          then step_sound fr1 time
          else fr1
    | None =>
        setHeap fr (setX h2 v (x (deref h2 v) * friction phys))
    end.

(* ================================================================== *)
(** ** Collision sweeps *)

(** The entity being moved along one axis: the objects, the entity record
    (its own copy), the tentative coordinate ([nextX] or [nextY]),
    [grounded] and the click target. *)
Record Mover := {
  m_heap : Heap;
  m_ent : GameEntity;
  m_next : Q;
  m_grounded : bool;
  m_targetX : option Q
}.

(** The first three tests of both sweeps: [other] is skipped when it is
    the entity itself, neither solid nor deadly, or not visible. *)
Definition skipped (ent other : GameEntity) : bool :=
  String.eqb (id ent) (id other)
  || (negb (isSolid other) && negb (flag (isDeadly other)))
  || negb (isVisible other).

(** The player touched something deadly, or a projectile the player. *)
Definition lethal (ent other : GameEntity) : bool :=
  (EntityType_eqb (type ent) PLAYER && flag (isDeadly other))
  || (EntityType_eqb (type ent) PROJECTILE
      && EntityType_eqb (type other) PLAYER).

(** [if (ent.type === PROJECTILE && other.type === WALL)
       ent.isVisible = false]. *)
Definition hitWall (ent other : GameEntity) : GameEntity :=
  if EntityType_eqb (type ent) PROJECTILE && EntityType_eqb (type other) WALL
  then with_isVisible ent false
  else ent.

(** One turn of the loop over [other] on the X axis. *)
Definition sweepX_step (entRectX : Rect) (m : Mover) (other : GameEntity)
  : Flow Mover :=
  let ent := m_ent m in
  if skipped ent other then Go m
  else if checkCollision entRectX (rectOf (m_heap m) other) then
    if lethal ent other then Stop Died m
    else
      let ent1 := hitWall ent other in
      if isSolid other then
        let v := velocity ent1 in
        let h1 :=
          if Behavior_is PATROL (behavior ent1)
          then setX (m_heap m) v (- x (deref (m_heap m) v))
          else setX (m_heap m) v 0 in
        Go {| m_heap := h1;
              m_ent := ent1;
              m_next := x (deref h1 (pos ent1));
              m_grounded := m_grounded m;
              m_targetX :=
                if EntityType_eqb (type ent1) PLAYER then None
                else m_targetX m |}
      else
        Go {| m_heap := m_heap m; m_ent := ent1; m_next := m_next m;
              m_grounded := m_grounded m; m_targetX := m_targetX m |}
  else Go m.

(** One turn of the loop over [other] on the Y axis. *)
Definition sweepY_step (entRectY : Rect) (m : Mover) (other : GameEntity)
  : Flow Mover :=
  let ent := m_ent m in
  if skipped ent other then Go m
  else if checkCollision entRectY (rectOf (m_heap m) other) then
    if lethal ent other then Stop Died m
    else
      let ent1 := hitWall ent other in
      if isSolid other then
        let v := velocity ent1 in
        let vy := y (deref (m_heap m) v) in
        if Num.gtb vy 0 then
          Go {| m_heap := setY (m_heap m) v 0;
                m_ent := ent1;
                m_next := y (deref (m_heap m) (pos other)) - y (size ent1);
                m_grounded := true;
                m_targetX := m_targetX m |}
        else if Num.ltb vy 0 then
          Go {| m_heap := setY (m_heap m) v 0;
                m_ent := ent1;
                m_next := y (deref (m_heap m) (pos other)) + y (size other);
                m_grounded := m_grounded m;
                m_targetX := m_targetX m |}
        else
          Go {| m_heap := m_heap m; m_ent := ent1; m_next := m_next m;
                m_grounded := m_grounded m; m_targetX := m_targetX m |}
      else
        Go {| m_heap := m_heap m; m_ent := ent1; m_next := m_next m;
              m_grounded := m_grounded m; m_targetX := m_targetX m |}
  else Go m.

(** [for (const other of currentEntities) { ... }], left when a turn
    returns from [gameLoop]. *)
Fixpoint sweep (step : Mover -> GameEntity -> Flow Mover)
    (others : list GameEntity) (m : Mover) : Flow Mover :=
  match others with
  | [] => Go m
  | other :: rest =>
      match step m other with
      | Go m' => sweep step rest m'
      | Stop sig m' => Stop sig m'
      end
  end.

(* ================================================================== *)
(** ** The loop body *)

(** The frame as the mover left it. *)
Definition frameOf (fr : Frame) (m : Mover) : Frame :=
  {| f_heap := m_heap m; currentEntities := currentEntities fr;
     newProjectiles := newProjectiles fr; f_targetX := m_targetX m;
     f_lastStepTime := f_lastStepTime fr; f_audio := f_audio fr |}.

(** From [let nextX = ...] to the end of the loop over [other]. *)
Definition moveX (deltaTime : Q) (fr : Frame) (ent : GameEntity)
  : Flow Mover :=
  let h := f_heap fr in
  let v := velocity ent in
  let nextX := x (deref h (pos ent)) + x (deref h v) * deltaTime in
  let ent1 :=
    if (Num.ltb nextX (-100) || Num.gtb nextX (CANVAS_WIDTH + 100))
       && EntityType_eqb (type ent) PROJECTILE
    then with_isVisible ent false
    else ent in
  let '(nextX1, h1) :=
    if Num.ltb nextX 0 then (0, setX h v 0) else (nextX, h) in
  let '(nextX2, h2) :=
    if Num.gtb nextX1 (CANVAS_WIDTH - x (size ent1))
    then (CANVAS_WIDTH - x (size ent1), setX h1 v 0)
    else (nextX1, h1) in
  let entRectX :=
    {| r_pos := {| x := nextX2; y := y (deref h2 (pos ent1)) |};
       r_size := size ent1 |} in
  sweep (sweepX_step entRectX) (currentEntities fr)
    {| m_heap := h2; m_ent := ent1; m_next := nextX2;
       m_grounded := false; m_targetX := f_targetX fr |}.

(** From [let nextY = ...] to the end of the loop over [other]. *)
Definition moveY (deltaTime : Q) (fr : Frame) (ent : GameEntity)
  : Flow Mover :=
  let h := f_heap fr in
  let nextY := y (deref h (pos ent)) + y (deref h (velocity ent)) * deltaTime in
  let entRectY :=
    {| r_pos := {| x := x (deref h (pos ent)); y := nextY |};
       r_size := size ent |} in
  sweep (sweepY_step entRectY) (currentEntities fr)
    {| m_heap := h; m_ent := ent; m_next := nextY;
       m_grounded := false; m_targetX := f_targetX fr |}.

(** What follows the two sweeps: the fall out of the world, the jump, the
    exit, and the write of the entity into [currentEntities]. *)
Definition finishEntity (keys : Keys) (i : nat) (fr : Frame)
    (ent : GameEntity) (grounded : bool) : Flow Frame :=
  let fallen := Num.gtb (y (deref (f_heap fr) (pos ent))) (CANVAS_HEIGHT + 200) in
  if fallen && is_player ent then Stop Died (play fr sfxDie)
  else
    let ent1 :=
      if fallen && EntityType_eqb (type ent) PROJECTILE
      then with_isVisible ent false
      else ent in
    let fr1 :=
      if is_player ent1 && grounded && heldJump keys
      then setHeap (play fr sfxJump) (setY (f_heap fr) (velocity ent1) (-600))
      else fr in
    let reached :=
      is_player ent1 &&
      match List.find is_exit (currentEntities fr1) with
      | Some exit =>
          checkCollision (rectOf (f_heap fr1) ent1) (rectOf (f_heap fr1) exit)
      | None => false
      end in
    if reached then Stop ReachedExit fr1
    else Go (setCurrent fr1 (<[i := ent1]> (currentEntities fr1))).

(** The body from [if (ent.isStatic)] on: the forces, the control of the
    player, the two sweeps and what follows them. *)
Definition resolveEntity (phys : GlobalPhysics) (deltaTime time : Q)
    (keys : Keys) (i : nat) (fr : Frame) (ent : GameEntity) : Flow Frame :=
  if isStatic ent then
    Go (setCurrent fr (<[i := ent]> (currentEntities fr)))
  else
    let fr3 := setHeap fr (applyGravity phys deltaTime (f_heap fr) ent) in
    let fr4 :=
      if is_player ent
      then playerControl phys deltaTime time keys ent fr3
      else fr3 in
    match moveX deltaTime fr4 ent with
    | Stop sig m => Stop sig (play (frameOf fr4 m) sfxDie)
    | Go mx =>
        let ent3 := m_ent mx in
        let fr5 :=
          setHeap (frameOf fr4 mx)
            (setX (m_heap mx) (pos ent3) (m_next mx)) in
        match moveY deltaTime fr5 ent3 with
        | Stop sig m => Stop sig (play (frameOf fr5 m) sfxDie)
        | Go my =>
            let ent4 := m_ent my in
            let fr6 :=
              setHeap (frameOf fr5 my)
                (setY (m_heap my) (pos ent4) (m_next my)) in
            finishEntity keys i fr6 ent4 (m_grounded my)
        end
    end.

(** The AI logic of the body: the patrol block, then the turret block. *)
Definition behaviours (M : MathLib) (time : Q) (fr : Frame)
    (ent : GameEntity) : Frame * GameEntity :=
  let '(h1, ent1) := patrolBehavior M (f_heap fr) ent in
  turretBehavior M time (setHeap fr h1) ent1.

(** The body of [for (let i = 0; i < currentEntities.length; i++)]:
    [ent] is a copy of the record at [i], which shares its objects. *)
Definition processEntity (M : MathLib) (phys : GlobalPhysics)
    (deltaTime time : Q) (keys : Keys) (fr : Frame) (i : nat) : Flow Frame :=
  match currentEntities fr !! i with
  | None => Go fr
  | Some ent =>
      let '(fr2, ent2) := behaviours M time fr ent in
      resolveEntity phys deltaTime time keys i fr2 ent2
  end.

(** The loop over the indices of [currentEntities]. *)
Fixpoint runLoop (body : Frame -> nat -> Flow Frame) (indices : list nat)
    (fr : Frame) : Flow Frame :=
  match indices with
  | [] => Go fr
  | i :: rest =>
      match body fr i with
      | Go fr' => runLoop body rest fr'
      | Stop sig fr' => Stop sig fr'
      end
  end.

(* ================================================================== *)
(** ** The frame *)

Inductive Outcome :=
| Idle            (* the loop is not running: nothing is done *)
| Committed       (* the next World State is committed *)
| ResetOutcome    (* the player died: the level is set up again *)
| LevelComplete   (* the player reached the exit *)
| EditorTestEnded (* the player reached the exit in an editor test *).

Definition isRunning (mode : Mode) : bool :=
  (match gameState mode with
   | PLAYING => true
   | EDITOR => isEditorTesting mode
   | _ => false
   end) && negb (isPaused mode).

(** [Math.min((time - lastTimeRef.current) / 1000, 0.05) * timeScale]. *)
Definition deltaTimeOf (rawDeltaTimeMs timeScale : Q) : Q :=
  Qmin (rawDeltaTimeMs / 1000) 0.05 * timeScale.

(** The filter of the committed list: an entity that is not visible is
    dropped exactly when it is a projectile. *)
Definition active (e : GameEntity) : bool :=
  isVisible e || (negb (EntityType_eqb (type e) PROJECTILE) && negb (isVisible e)).

Definition startFrame (E : Engine) : Frame :=
  {| f_heap := heap E; currentEntities := entitiesRef E;
     newProjectiles := []; f_targetX := targetXRef E;
     f_lastStepTime := lastStepTimeRef E; f_audio := audio E |}.

(** The engine after a loop that ended in [fr], with [es] as its entities. *)
Definition engineOf (E : Engine) (time : Q) (fr : Frame)
    (es : list GameEntity) : Engine :=
  {| heap := f_heap fr; entitiesRef := es; physicsRef := physicsRef E;
     lastTimeRef := time; targetXRef := f_targetX fr;
     lastStepTimeRef := f_lastStepTime fr; audio := f_audio fr |}.

(** The loop of one frame, from the copy of the entity list on. *)
Definition frameLoop (M : MathLib) (keys : Keys) (time : Q) (E : Engine)
  : Flow Frame :=
  let deltaTime :=
    deltaTimeOf (time - lastTimeRef E) (timeScale (physicsRef E)) in
  let fr0 := startFrame E in
  runLoop (processEntity M (physicsRef E) deltaTime time keys)
    (seq 0 (length (currentEntities fr0))) fr0.

Definition gameLoop (M : MathLib) (mode : Mode) (keys : Keys) (time : Q)
    (E : Engine) : Engine * Outcome :=
  if negb (isRunning mode) then (E, Idle)
  else
    match frameLoop M keys time E with
    | Stop Died fr =>
        (resetLevel mode (engineOf E time fr (entitiesRef E)), ResetOutcome)
    | Stop ReachedExit fr =>
        match gameState mode with
        | EDITOR =>
            (engineOf E time (play fr sfxWin) (entitiesRef E), EditorTestEnded)
        | _ =>
            (engineOf E time (play fr sfxLevelComplete) (entitiesRef E),
             LevelComplete)
        end
    | Go fr =>
        let activeEntities :=
          List.filter active (currentEntities fr) ++ newProjectiles fr in
        (engineOf E time fr activeEntities, Committed)
    end.

(** [handleSceneClick]: a click on the scene sets the target. *)
Definition handleSceneClick (mode : Mode) (clickX : Q) (E : Engine) : Engine :=
  if isRunning mode then
    {| heap := heap E; entitiesRef := entitiesRef E;
       physicsRef := physicsRef E; lastTimeRef := lastTimeRef E;
       targetXRef := Some clickX; lastStepTimeRef := lastStepTimeRef E;
       audio := audio E |}
  else E.

(* ================================================================== *)
(** ** The handlers of the component *)

(** Outside a frame the component is the state of its last render (a
    [Mode]), the refs, the objects and the sound log (an [Engine]), the
    selection, and what [entitiesRef] holds while the editor builds: the
    records of the blueprint followed by a ghost of the player, which are
    not a World State (a record of the blueprint need not have a
    velocity).  A setter called with an updater ([setEditorLevel(prev =>
    ...)]) is applied to the state as the calls before it left it; what a
    handler reads from its closure ([gameState], [isEditorTesting],
    [editorLevel], [entities]) is the state of the render it belongs to,
    which its calls do not change: the handlers take it as an argument of
    its own. *)
Record Component := {
  c_mode : Mode;
  c_engine : Engine;
  c_editorEntities : list EntityTemplate;
  c_selectedEntityId : option string
}.

(** [gameState === 'EDITOR' && !isEditorTesting]. *)
Definition building (mode : Mode) : bool :=
  match gameState mode with
  | EDITOR => negb (isEditorTesting mode)
  | _ => false
  end.

Definition with_entities (l : LevelData) (es : list EntityTemplate)
  : LevelData :=
  {| level_id := level_id l; level_name := level_name l;
     level_description := level_description l; startPos := startPos l;
     entities := es; physics := physics l |}.

Definition with_startPos (l : LevelData) (p : ref) : LevelData :=
  {| level_id := level_id l; level_name := level_name l;
     level_description := level_description l; startPos := p;
     entities := entities l; physics := physics l |}.

Definition with_physics (l : LevelData) (p : GlobalPhysics) : LevelData :=
  {| level_id := level_id l; level_name := level_name l;
     level_description := level_description l; startPos := startPos l;
     entities := entities l; physics := p |}.

Definition with_editorLevel (m : Mode) (l : LevelData) : Mode :=
  {| gameState := gameState m; isEditorTesting := isEditorTesting m;
     isPaused := isPaused m; currentLevelId := currentLevelId m;
     editorLevel := l; LEVELS_first := LEVELS_first m;
     LEVELS_rest := LEVELS_rest m |}.

Definition with_isEditorTesting (m : Mode) (b : bool) : Mode :=
  {| gameState := gameState m; isEditorTesting := b;
     isPaused := isPaused m; currentLevelId := currentLevelId m;
     editorLevel := editorLevel m; LEVELS_first := LEVELS_first m;
     LEVELS_rest := LEVELS_rest m |}.

Definition with_heap (E : Engine) (h : Heap) : Engine :=
  {| heap := h; entitiesRef := entitiesRef E; physicsRef := physicsRef E;
     lastTimeRef := lastTimeRef E; targetXRef := targetXRef E;
     lastStepTimeRef := lastStepTimeRef E; audio := audio E |}.

Definition with_entitiesRef (E : Engine) (es : list GameEntity) : Engine :=
  {| heap := heap E; entitiesRef := es; physicsRef := physicsRef E;
     lastTimeRef := lastTimeRef E; targetXRef := targetXRef E;
     lastStepTimeRef := lastStepTimeRef E; audio := audio E |}.

Definition with_physicsRef (E : Engine) (p : GlobalPhysics) : Engine :=
  {| heap := heap E; entitiesRef := entitiesRef E; physicsRef := p;
     lastTimeRef := lastTimeRef E; targetXRef := targetXRef E;
     lastStepTimeRef := lastStepTimeRef E; audio := audio E |}.

(** A cue of the audio engine played outside a frame. *)
Definition sound (E : Engine) (s : Sfx) : Engine :=
  {| heap := heap E; entitiesRef := entitiesRef E; physicsRef := physicsRef E;
     lastTimeRef := lastTimeRef E; targetXRef := targetXRef E;
     lastStepTimeRef := lastStepTimeRef E; audio := audio E ++ [s] |}.

(** *** Objects of updates *)

(** One key of an object of updates ([Partial<GameEntity>]) with its
    value.  An object of updates is the list of its keys in the order in
    which they were written; [label] and [color] are not fields of the
    record, and an object that holds only them is the empty list. *)
Inductive Assign :=
| a_id (a : string)
| a_type (a : EntityType)
| a_name (a : string)
| a_pos (a : ref)
| a_size (a : Vector2)
| a_velocity (a : ref)
| a_isStatic (a : bool)
| a_isSolid (a : bool)
| a_isVisible (a : bool)
| a_isLocked (a : bool)
| a_isDeadly (a : bool)
| a_isAlwaysVisible (a : bool)
| a_gravityScale (a : Q)
| a_behavior (a : Behavior)
| a_origin (a : Vector2)
| a_patrolStart (a : Vector2)
| a_patrolEnd (a : Vector2)
| a_patrolSpeed (a : Q)
| a_fireRate (a : Q)
| a_projectileSpeed (a : Q)
| a_lastFireTime (a : Q).

Definition assign {V : Type} (lift : ref -> V) (e : EntityOf V) (u : Assign)
  : EntityOf V :=
  match u with
  | a_id a =>
      mkEntity a (type e) (name e) (pos e) (size e) (velocity e)
        (isStatic e) (isSolid e) (isVisible e) (isLocked e) (isDeadly e)
        (isAlwaysVisible e) (gravityScale e) (behavior e) (origin e)
        (patrolStart e) (patrolEnd e) (patrolSpeed e) (fireRate e)
        (projectileSpeed e) (lastFireTime e)
  | a_type a =>
      mkEntity (id e) a (name e) (pos e) (size e) (velocity e) (isStatic e)
        (isSolid e) (isVisible e) (isLocked e) (isDeadly e)
        (isAlwaysVisible e) (gravityScale e) (behavior e) (origin e)
        (patrolStart e) (patrolEnd e) (patrolSpeed e) (fireRate e)
        (projectileSpeed e) (lastFireTime e)
  | a_name a =>
      mkEntity (id e) (type e) a (pos e) (size e) (velocity e) (isStatic e)
        (isSolid e) (isVisible e) (isLocked e) (isDeadly e)
        (isAlwaysVisible e) (gravityScale e) (behavior e) (origin e)
        (patrolStart e) (patrolEnd e) (patrolSpeed e) (fireRate e)
        (projectileSpeed e) (lastFireTime e)
  | a_pos a =>
      mkEntity (id e) (type e) (name e) a (size e) (velocity e) (isStatic e)
        (isSolid e) (isVisible e) (isLocked e) (isDeadly e)
        (isAlwaysVisible e) (gravityScale e) (behavior e) (origin e)
        (patrolStart e) (patrolEnd e) (patrolSpeed e) (fireRate e)
        (projectileSpeed e) (lastFireTime e)
  | a_size a =>
      mkEntity (id e) (type e) (name e) (pos e) a (velocity e) (isStatic e)
        (isSolid e) (isVisible e) (isLocked e) (isDeadly e)
        (isAlwaysVisible e) (gravityScale e) (behavior e) (origin e)
        (patrolStart e) (patrolEnd e) (patrolSpeed e) (fireRate e)
        (projectileSpeed e) (lastFireTime e)
  | a_velocity a =>
      mkEntity (id e) (type e) (name e) (pos e) (size e) (lift a)
        (isStatic e) (isSolid e) (isVisible e) (isLocked e) (isDeadly e)
        (isAlwaysVisible e) (gravityScale e) (behavior e) (origin e)
        (patrolStart e) (patrolEnd e) (patrolSpeed e) (fireRate e)
        (projectileSpeed e) (lastFireTime e)
  | a_isStatic a =>
      mkEntity (id e) (type e) (name e) (pos e) (size e) (velocity e) a
        (isSolid e) (isVisible e) (isLocked e) (isDeadly e)
        (isAlwaysVisible e) (gravityScale e) (behavior e) (origin e)
        (patrolStart e) (patrolEnd e) (patrolSpeed e) (fireRate e)
        (projectileSpeed e) (lastFireTime e)
  | a_isSolid a =>
      mkEntity (id e) (type e) (name e) (pos e) (size e) (velocity e)
        (isStatic e) a (isVisible e) (isLocked e) (isDeadly e)
        (isAlwaysVisible e) (gravityScale e) (behavior e) (origin e)
        (patrolStart e) (patrolEnd e) (patrolSpeed e) (fireRate e)
        (projectileSpeed e) (lastFireTime e)
  | a_isVisible a =>
      mkEntity (id e) (type e) (name e) (pos e) (size e) (velocity e)
        (isStatic e) (isSolid e) a (isLocked e) (isDeadly e)
        (isAlwaysVisible e) (gravityScale e) (behavior e) (origin e)
        (patrolStart e) (patrolEnd e) (patrolSpeed e) (fireRate e)
        (projectileSpeed e) (lastFireTime e)
  | a_isLocked a =>
      mkEntity (id e) (type e) (name e) (pos e) (size e) (velocity e)
        (isStatic e) (isSolid e) (isVisible e) (Some a) (isDeadly e)
        (isAlwaysVisible e) (gravityScale e) (behavior e) (origin e)
        (patrolStart e) (patrolEnd e) (patrolSpeed e) (fireRate e)
        (projectileSpeed e) (lastFireTime e)
  | a_isDeadly a =>
      mkEntity (id e) (type e) (name e) (pos e) (size e) (velocity e)
        (isStatic e) (isSolid e) (isVisible e) (isLocked e) (Some a)
        (isAlwaysVisible e) (gravityScale e) (behavior e) (origin e)
        (patrolStart e) (patrolEnd e) (patrolSpeed e) (fireRate e)
        (projectileSpeed e) (lastFireTime e)
  | a_isAlwaysVisible a =>
      mkEntity (id e) (type e) (name e) (pos e) (size e) (velocity e)
        (isStatic e) (isSolid e) (isVisible e) (isLocked e) (isDeadly e)
        (Some a) (gravityScale e) (behavior e) (origin e) (patrolStart e)
        (patrolEnd e) (patrolSpeed e) (fireRate e) (projectileSpeed e)
        (lastFireTime e)
  | a_gravityScale a =>
      mkEntity (id e) (type e) (name e) (pos e) (size e) (velocity e)
        (isStatic e) (isSolid e) (isVisible e) (isLocked e) (isDeadly e)
        (isAlwaysVisible e) (Some a) (behavior e) (origin e) (patrolStart e)
        (patrolEnd e) (patrolSpeed e) (fireRate e) (projectileSpeed e)
        (lastFireTime e)
  | a_behavior a =>
      mkEntity (id e) (type e) (name e) (pos e) (size e) (velocity e)
        (isStatic e) (isSolid e) (isVisible e) (isLocked e) (isDeadly e)
        (isAlwaysVisible e) (gravityScale e) (Some a) (origin e)
        (patrolStart e) (patrolEnd e) (patrolSpeed e) (fireRate e)
        (projectileSpeed e) (lastFireTime e)
  | a_origin a =>
      mkEntity (id e) (type e) (name e) (pos e) (size e) (velocity e)
        (isStatic e) (isSolid e) (isVisible e) (isLocked e) (isDeadly e)
        (isAlwaysVisible e) (gravityScale e) (behavior e) (Some a)
        (patrolStart e) (patrolEnd e) (patrolSpeed e) (fireRate e)
        (projectileSpeed e) (lastFireTime e)
  | a_patrolStart a =>
      mkEntity (id e) (type e) (name e) (pos e) (size e) (velocity e)
        (isStatic e) (isSolid e) (isVisible e) (isLocked e) (isDeadly e)
        (isAlwaysVisible e) (gravityScale e) (behavior e) (origin e)
        (Some a) (patrolEnd e) (patrolSpeed e) (fireRate e)
        (projectileSpeed e) (lastFireTime e)
  | a_patrolEnd a =>
      mkEntity (id e) (type e) (name e) (pos e) (size e) (velocity e)
        (isStatic e) (isSolid e) (isVisible e) (isLocked e) (isDeadly e)
        (isAlwaysVisible e) (gravityScale e) (behavior e) (origin e)
        (patrolStart e) (Some a) (patrolSpeed e) (fireRate e)
        (projectileSpeed e) (lastFireTime e)
  | a_patrolSpeed a =>
      mkEntity (id e) (type e) (name e) (pos e) (size e) (velocity e)
        (isStatic e) (isSolid e) (isVisible e) (isLocked e) (isDeadly e)
        (isAlwaysVisible e) (gravityScale e) (behavior e) (origin e)
        (patrolStart e) (patrolEnd e) (Some a) (fireRate e)
        (projectileSpeed e) (lastFireTime e)
  | a_fireRate a =>
      mkEntity (id e) (type e) (name e) (pos e) (size e) (velocity e)
        (isStatic e) (isSolid e) (isVisible e) (isLocked e) (isDeadly e)
        (isAlwaysVisible e) (gravityScale e) (behavior e) (origin e)
        (patrolStart e) (patrolEnd e) (patrolSpeed e) (Some a)
        (projectileSpeed e) (lastFireTime e)
  | a_projectileSpeed a =>
      mkEntity (id e) (type e) (name e) (pos e) (size e) (velocity e)
        (isStatic e) (isSolid e) (isVisible e) (isLocked e) (isDeadly e)
        (isAlwaysVisible e) (gravityScale e) (behavior e) (origin e)
        (patrolStart e) (patrolEnd e) (patrolSpeed e) (fireRate e) (Some a)
        (lastFireTime e)
  | a_lastFireTime a =>
      mkEntity (id e) (type e) (name e) (pos e) (size e) (velocity e)
        (isStatic e) (isSolid e) (isVisible e) (isLocked e) (isDeadly e)
        (isAlwaysVisible e) (gravityScale e) (behavior e) (origin e)
        (patrolStart e) (patrolEnd e) (patrolSpeed e) (fireRate e)
        (projectileSpeed e) (Some a)
  end.

(** [{ ...e, ...updates }]. *)
Definition spread {V : Type} (lift : ref -> V) (e : EntityOf V)
    (updates : list Assign) : EntityOf V :=
  fold_left (assign lift) updates e.

(** [updates.pos]. *)
Definition updated_pos (updates : list Assign) : option ref :=
  fold_left (fun o u => match u with a_pos r => Some r | _ => o end)
    updates None.

(** [es.map(e => e.id === id ? { ...e, ...updates } : e)]. *)
Definition updateById {V : Type} (lift : ref -> V) (i : string)
    (updates : list Assign) (es : list (EntityOf V)) : list (EntityOf V) :=
  map (fun e => if String.eqb (id e) i then spread lift e updates else e) es.

(** One key of an object of updates of the physics
    ([Partial<GlobalPhysics>]) with its value. *)
Inductive PhysicsAssign :=
| p_gravity (a : Q)
| p_friction (a : Q)
| p_timeScale (a : Q).

Definition assignPhysics (p : GlobalPhysics) (u : PhysicsAssign)
  : GlobalPhysics :=
  match u with
  | p_gravity a =>
      {| gravity := a; friction := friction p; timeScale := timeScale p |}
  | p_friction a =>
      {| gravity := gravity p; friction := a; timeScale := timeScale p |}
  | p_timeScale a =>
      {| gravity := gravity p; friction := friction p; timeScale := a |}
  end.

(** [{ ...p, ...updates }]. *)
Definition spreadPhysics (p : GlobalPhysics) (updates : list PhysicsAssign)
  : GlobalPhysics :=
  fold_left assignPhysics updates p.

(** *** Updates from the inspector *)

(** [handleUpdateEntity].  While the editor builds, the entities of the
    blueprint are computed from the [editorLevel] of the closure and put in
    the state by an updater that keeps the rest of it; the colour given to
    a door that is unlocked is not part of the record. *)
Definition handleUpdateEntity (closure : Mode) (i : string)
    (updates : list Assign) (c : Component) : Component :=
  if building closure then
    let prev := editorLevel (c_mode c) in
    let level' :=
      if String.eqb i "ghost_player" then
        match updated_pos updates with
        | Some p => with_startPos prev p
        | None => prev
        end
      else
        let newEntities :=
          updateById Some i updates (entities (editorLevel closure)) in
        with_entities prev newEntities in
    let newRefEntities := updateById Some i updates (c_editorEntities c) in
    {| c_mode := with_editorLevel (c_mode c) level';
       c_engine := c_engine c;
       c_editorEntities := newRefEntities;
       c_selectedEntityId := c_selectedEntityId c |}
  else
    let newEntities :=
      updateById (fun r => r) i updates (entitiesRef (c_engine c)) in
    {| c_mode := c_mode c;
       c_engine := with_entitiesRef (c_engine c) newEntities;
       c_editorEntities := c_editorEntities c;
       c_selectedEntityId := c_selectedEntityId c |}.

(** [handleUpdatePhysics]. *)
Definition handleUpdatePhysics (closure : Mode)
    (updates : list PhysicsAssign) (c : Component) : Component :=
  let mode' :=
    if building closure then
      let prev := editorLevel (c_mode c) in
      with_editorLevel (c_mode c)
        (with_physics prev (spreadPhysics (physics prev) updates))
    else c_mode c in
  {| c_mode := mode';
     c_engine :=
       with_physicsRef (c_engine c)
         (spreadPhysics (physicsRef (c_engine c)) updates);
     c_editorEntities := c_editorEntities c;
     c_selectedEntityId := c_selectedEntityId c |}.

(** *** The editor *)

(** The value of the enumeration [EntityType], a string. *)
Definition EntityType_name (t : EntityType) : string :=
  match t with
  | PLAYER => "PLAYER" | WALL => "WALL" | DOOR => "DOOR"
  | PLATFORM => "PLATFORM" | ENEMY => "ENEMY" | PROJECTILE => "PROJECTILE"
  | EXIT => "EXIT" | TEXT => "TEXT"
  end.

(** The entity that [handleEditorDrop] makes for the item [t] of the
    palette dropped at [(px, py)], with its position object at [p] and its
    velocity object at [v]: the fields every item has, then the defaults
    of the turret (the item [PROJECTILE]), of the door, of the enemy and
    of the text, each spread over what comes before. *)
Definition droppedEntity (M : MathLib) (now : Q) (t : EntityType)
    (px py : Q) (p v : ref) : EntityTemplate :=
  let base :=
    mkEntity
      ("custom_" ++ EntityType_name t ++ "_" ++ Number_toString M now)%string
      t
      ("New_" ++ EntityType_name t)%string
      p
      (match t with
       | WALL => {| x := 100; y := 50 |}
       | PLATFORM => {| x := 100; y := 20 |}
       | DOOR => {| x := 40; y := 150 |}
       | EXIT => {| x := 50; y := 100 |}
       | _ => {| x := 30; y := 30 |}
       end)
      (Some v)
      (negb (EntityType_eqb t ENEMY))
      (negb (EntityType_eqb t TEXT) && negb (EntityType_eqb t EXIT))
      true
      None None None None None None None None None None None None in
  let turretDefaults :=
    if EntityType_eqb t PROJECTILE
    then [a_type ENEMY; a_behavior TURRET; a_name "Turret"; a_fireRate 2000;
          a_isStatic true; a_isSolid true]
    else [] in
  let doorDefaults :=
    if EntityType_eqb t DOOR
    then [a_isLocked true; a_isSolid true; a_isStatic true]
    else [] in
  let enemyDefaults :=
    if EntityType_eqb t ENEMY
    then [a_behavior PATROL;
          a_patrolStart {| x := px; y := py |};
          a_patrolEnd {| x := px + 100; y := py |};
          a_isDeadly true]
    else [] in
  let textDefaults :=
    if EntityType_eqb t TEXT then [a_isSolid false] else [] in
  spread Some base
    (turretDefaults ++ doorDefaults ++ enemyDefaults ++ textDefaults).

(** [handleEditorDrop]: [dropped] is the item read from the drag, [None]
    when the drag carries none; [now] is [Date.now()]. *)
Definition handleEditorDrop (M : MathLib) (now : Q)
    (dropped : option EntityType) (px py : Q) (c : Component) : Component :=
  match dropped with
  | None => c
  | Some t =>
      let E := sound (c_engine c) sfxClick in
      let '(h1, p) := alloc (heap E) {| x := px; y := py |} in
      let '(h2, v) := alloc h1 zero2 in
      let newEntity := droppedEntity M now t px py p v in
      let prev := editorLevel (c_mode c) in
      {| c_mode :=
           with_editorLevel (c_mode c)
             (with_entities prev (entities prev ++ [newEntity]));
         c_engine := with_heap E h2;
         c_editorEntities := c_editorEntities c;
         c_selectedEntityId := c_selectedEntityId c |}
  end.

(** [handleEntityMove]: [entities] is the state of that name in the
    closure, the list the viewport shows; [newPos] is the object that the
    viewport made. *)
Definition handleEntityMove (closure : Mode) (entities : list EntityTemplate)
    (i : string) (newPos : ref) (c : Component) : Component :=
  let c1 := handleUpdateEntity closure i [a_pos newPos] c in
  match List.find (fun e => String.eqb (id e) i) entities with
  | Some ent =>
      match patrolStart ent with
      | Some pStart =>
          if Behavior_is PATROL (behavior ent) then
            let h := heap (c_engine c1) in
            let diffX := x (deref h newPos) - x (deref h (pos ent)) in
            let diffY := y (deref h newPos) - y (deref h (pos ent)) in
            let pEnd :=
              match patrolEnd ent with Some e => e | None => zero2 end in
            handleUpdateEntity closure i
              [a_patrolStart {| x := x pStart + diffX; y := y pStart + diffY |};
               a_patrolEnd {| x := x pEnd + diffX; y := y pEnd + diffY |}]
              c1
          else c1
      | None => c1
      end
  | None => c1
  end.

(** [handleDeleteEntity]. *)
Definition handleDeleteEntity (i : string) (c : Component) : Component :=
  if String.eqb i "ghost_player" then c
  else
    let prev := editorLevel (c_mode c) in
    {| c_mode :=
         with_editorLevel (c_mode c)
           (with_entities prev
              (List.filter (fun e => negb (String.eqb (id e) i))
                 (entities prev)));
       c_engine := sound (c_engine c) sfxDie;
       c_editorEntities := c_editorEntities c;
       c_selectedEntityId := None |}.

(** The ghost of the player that the editor shows at the start position. *)
Definition ghost_player (p v : ref) : EntityTemplate :=
  mkEntity "ghost_player" PLAYER "Start_Position" p PLAYER_SIZE (Some v)
    true false true None None None (Some 0) None None None None None None
    None None.

(** The effect that follows a render in which the level, the state of the
    game, the test or the blueprint of the editor has changed: a level
    that is played is set up; while the editor builds, the entities shown
    are those of the blueprint, and the ghost. *)
Definition initEffect (c : Component) : Component :=
  let mode := c_mode c in
  match gameState mode with
  | PLAYING =>
      {| c_mode := mode;
         c_engine := setupLevel (currentLevel mode) (c_engine c);
         c_editorEntities := c_editorEntities c;
         c_selectedEntityId := None |}
  | EDITOR =>
      if isEditorTesting mode then c
      else
        let level := editorLevel mode in
        let h := heap (c_engine c) in
        let '(h1, p) := alloc h (deref h (startPos level)) in
        let '(h2, v) := alloc h1 zero2 in
        {| c_mode := mode;
           c_engine :=
             with_physicsRef (with_heap (c_engine c) h2) (physics level);
           c_editorEntities := entities level ++ [ghost_player p v];
           c_selectedEntityId := c_selectedEntityId c |}
  | _ => c
  end.

(** [handleTestToggle]. *)
Definition handleTestToggle (closure : Mode) (c : Component) : Component :=
  {| c_mode :=
       with_isEditorTesting (c_mode c) (negb (isEditorTesting closure));
     c_engine := setupLevel (editorLevel closure) (sound (c_engine c) sfxClick);
     c_editorEntities := c_editorEntities c;
     c_selectedEntityId := None |}.

(** *** The inspector (Inspector.tsx) *)

(** [handleEntityChange]: [entity] is the entity that is selected. *)
Definition handleEntityChange (closure : Mode) (entity : option EntityTemplate)
    (update : list Assign) (c : Component) : Component :=
  match entity with
  | Some e =>
      handleUpdateEntity closure (id e) update
        {| c_mode := c_mode c;
           c_engine := sound (c_engine c) sfxClick;
           c_editorEntities := c_editorEntities c;
           c_selectedEntityId := c_selectedEntityId c |}
  | None => c
  end.

(** The object of updates that [handleBehaviorChange] builds. *)
Definition behaviorUpdates (h : Heap) (entity : EntityTemplate)
    (newBehavior : Behavior) : list Assign :=
  a_behavior newBehavior ::
  match newBehavior with
  | PATROL =>
      [a_patrolStart
         (match patrolStart entity with
          | Some s => s
          | None => deref h (pos entity)
          end);
       a_patrolEnd
         (match patrolEnd entity with
          | Some e => e
          | None => {| x := x (deref h (pos entity)) + 100;
                       y := y (deref h (pos entity)) |}
          end);
       a_patrolSpeed (Num.or_default (patrolSpeed entity) 100);
       a_isStatic false]
  | TURRET =>
      [a_fireRate (Num.or_default (fireRate entity) 2000);
       a_projectileSpeed (Num.or_default (projectileSpeed entity) 300);
       a_isStatic true]
  | DEFAULT => [a_isStatic true]
  end.

(** [handleBehaviorChange]. *)
Definition handleBehaviorChange (closure : Mode)
    (entity : option EntityTemplate) (newBehavior : Behavior) (c : Component)
  : Component :=
  match entity with
  | None => c
  | Some e =>
      let updates := behaviorUpdates (heap (c_engine c)) e newBehavior in
      let c1 := handleEntityChange closure entity [a_behavior newBehavior] c in
      handleUpdateEntity closure (id e) updates c1
  end.

(** *** The viewport (GameViewport.tsx) *)

(** [Math.round]: the nearest integer, a half going up. *)
Definition Math_round (a : Q) : Q := inject_Z (Qfloor (a + (1 # 2))).

Definition SNAP : Q := 10.

(** [Math.round(raw / SNAP) * SNAP]. *)
Definition snapped (raw : Q) : Q := Math_round (raw / SNAP) * SNAP.

(** Where the pointer is ([clientX], [clientY]), and the left and the top
    of the rectangle of the container. *)
Record Pointer := { clientX : Q; clientY : Q }.
Record DOMRect := { rect_left : Q; rect_top : Q }.

(** [handleDrop]: the coordinates that are passed to [onDropEntity], if
    it is called.  The container is mounted and the handler is given. *)
Definition handleDrop (isEditor : bool) (e : Pointer) (containerRect : DOMRect)
  : option (Q * Q) :=
  if negb isEditor then None
  else
    Some (snapped (clientX e - rect_left containerRect),
          snapped (clientY e - rect_top containerRect)).

(** [handleMouseMove]: the entity and the position that are passed to
    [onEntityMove], if it is called. *)
Definition handleMouseMove (isEditor : bool) (draggingId : option string)
    (dragOffset : Vector2) (e : Pointer) (containerRect : DOMRect)
  : option (string * Vector2) :=
  match draggingId with
  | Some i =>
      if negb isEditor || String.eqb i "" then None
      else
        let rawX := clientX e - rect_left containerRect - x dragOffset in
        let rawY := clientY e - rect_top containerRect - y dragOffset in
        Some (i, {| x := snapped rawX; y := snapped rawY |})
  | None => None
  end.

(** *** The end of a level *)

Definition with_currentLevelId (m : Mode) (i : Q) : Mode :=
  {| gameState := gameState m; isEditorTesting := isEditorTesting m;
     isPaused := isPaused m; currentLevelId := i;
     editorLevel := editorLevel m; LEVELS_first := LEVELS_first m;
     LEVELS_rest := LEVELS_rest m |}.

Definition with_gameState (m : Mode) (g : GameState) : Mode :=
  {| gameState := g; isEditorTesting := isEditorTesting m;
     isPaused := isPaused m; currentLevelId := currentLevelId m;
     editorLevel := editorLevel m; LEVELS_first := LEVELS_first m;
     LEVELS_rest := LEVELS_rest m |}.

Definition LEVELS (m : Mode) : list LevelData :=
  LEVELS_first m :: LEVELS_rest m.

(** What [handleLevelComplete] schedules, for 1.5 s after the exit was
    reached (the frame has played its cue): the next level, or the end of
    the game.  The test reads [currentLevelId] from the closure; the
    increment is an updater. *)
Definition handleLevelComplete (closure : Mode) (c : Component) : Component :=
  if Num.ltb (currentLevelId closure)
       (inject_Z (Z.of_nat (length (LEVELS closure))))
  then
    {| c_mode :=
         with_currentLevelId (c_mode c) (currentLevelId (c_mode c) + 1);
       c_engine := c_engine c;
       c_editorEntities := c_editorEntities c;
       c_selectedEntityId := c_selectedEntityId c |}
  else
    {| c_mode := with_gameState (c_mode c) WON;
       c_engine := sound (c_engine c) sfxWin;
       c_editorEntities := c_editorEntities c;
       c_selectedEntityId := c_selectedEntityId c |}.

(** *** The music of the audio engine *)

Inductive Track := menu | game | none.

Definition Track_eqb (a b : Track) : bool :=
  match a, b with
  | menu, menu | game, game | none, none => true
  | _, _ => false
  end.

(** The fields of the audio engine that the sequencer of the music uses,
    with the intervals of the window that are set: an interval is known by
    a handle, which is never zero, and comes with the track it plays. *)
Record AudioEngine := {
  musicInterval : option positive;
  currentTrack : Track;
  intervals : list (positive * Track);
  nextHandle : positive
}.

(** [stopMusic]. *)
Definition stopMusic (a : AudioEngine) : AudioEngine :=
  match musicInterval a with
  | Some handle =>
      {| musicInterval := None;
         currentTrack := none;
         intervals :=
           List.filter (fun it => negb (Pos.eqb (fst it) handle))
             (intervals a);
         nextHandle := nextHandle a |}
  | None =>
      {| musicInterval := None; currentTrack := none;
         intervals := intervals a; nextHandle := nextHandle a |}
  end.

(** [startMusic]; [track] is ['menu'] or ['game']. *)
Definition startMusic (track : Track) (a : AudioEngine) : AudioEngine :=
  if Track_eqb (currentTrack a) track then a
  else
    let a1 := stopMusic a in
    {| musicInterval := Some (nextHandle a1);
       currentTrack := track;
       intervals := intervals a1 ++ [(nextHandle a1, track)];
       nextHandle := Pos.succ (nextHandle a1) |}.

Definition initialAudio : AudioEngine :=
  {| musicInterval := None; currentTrack := none; intervals := [];
     nextHandle := 1%positive |}.

(** The effect on the music that follows a render in which the state of
    the game or the test of the editor has changed; [running] is whether
    the audio context exists and runs. *)
Definition musicEffect (running : bool) (mode : Mode) (a : AudioEngine)
  : AudioEngine :=
  if running then
    match gameState mode with
    | MENU | ABOUT | WON => startMusic menu a
    | PLAYING => startMusic game a
    | EDITOR => if isEditorTesting mode then startMusic game a else stopMusic a
    end
  else
    match gameState mode with
    | MENU => startMusic menu a
    | _ => a
    end.

(** The effect that runs on mount, after [audio.init()]. *)
Definition mountEffect (running : bool) (mode : Mode) (a : AudioEngine)
  : AudioEngine :=
  if running then
    match gameState mode with
    | MENU => startMusic menu a
    | _ => a
    end
  else a.

(** [handleUserGesture], after [audio.init()]: the first click or key
    press. *)
Definition handleUserGesture (mode : Mode) (a : AudioEngine) : AudioEngine :=
  match gameState mode with
  | MENU | ABOUT | WON => startMusic menu a
  | PLAYING => startMusic game a
  | EDITOR => if isEditorTesting mode then startMusic game a else stopMusic a
  end.

(** The places of the component that call the music of the audio engine. *)
Inductive MusicCall :=
| onMount (running : bool) (mode : Mode)
| onGesture (mode : Mode)
| onRender (running : bool) (mode : Mode).

Definition musicCall (a : AudioEngine) (call : MusicCall) : AudioEngine :=
  match call with
  | onMount running mode => mountEffect running mode a
  | onGesture mode => handleUserGesture mode a
  | onRender running mode => musicEffect running mode a
  end.

(* ================================================================== *)
(** ** Observations on a frame *)

(** The loop stopped before the body runs for index [i]: the state in
    which the entity at [i] is resolved. *)
Definition frameBefore (M : MathLib) (keys : Keys) (time : Q) (E : Engine)
    (i : nat) : Flow Frame :=
  runLoop
    (processEntity M (physicsRef E)
       (deltaTimeOf (time - lastTimeRef E) (timeScale (physicsRef E)))
       time keys)
    (seq 0 i) (startFrame E).

(** What a collision query made in [fr] reads as the position of the entry
    at index [j] of [currentEntities]. *)
Definition observedPos (fr : Frame) (j : nat) : option Vector2 :=
  match currentEntities fr !! j with
  | Some o => Some (deref (f_heap fr) (pos o))
  | None => None
  end.

(** *** The body for one entity, step by step

    The pieces of [resolveEntity] and of the two sweeps under names of
    their own, for the statements that speak of a state inside the body.
    [resolveEntity_steps], [moveX_startX] and [moveY_startY] show that the
    body is made of them. *)

(** The body from [// Apply Forces] to [let nextX]: the gravity, and for
    the player the control. *)
Definition forces (phys : GlobalPhysics) (deltaTime time : Q) (keys : Keys)
    (fr : Frame) (ent : GameEntity) : Frame :=
  let fr3 := setHeap fr (applyGravity phys deltaTime (f_heap fr) ent) in
  if is_player ent then playerControl phys deltaTime time keys ent fr3
  else fr3.

(** [ent.pos.x = nextX], [mx] being the state in which the sweep on X has
    ended, and [ent.pos.y = nextY]. *)
Definition placeX (fr : Frame) (mx : Mover) : Frame :=
  setHeap (frameOf fr mx) (setX (m_heap mx) (pos (m_ent mx)) (m_next mx)).

Definition placeY (fr : Frame) (my : Mover) : Frame :=
  setHeap (frameOf fr my) (setY (m_heap my) (pos (m_ent my)) (m_next my)).

(** The body from [let nextX] on: the two sweeps and what follows them. *)
Definition sweepsFrom (deltaTime : Q) (keys : Keys) (i : nat) (fr : Frame)
    (ent : GameEntity) : Flow Frame :=
  match moveX deltaTime fr ent with
  | Stop sig m => Stop sig (play (frameOf fr m) sfxDie)
  | Go mx =>
      match moveY deltaTime (placeX fr mx) (m_ent mx) with
      | Stop sig m => Stop sig (play (frameOf (placeX fr mx) m) sfxDie)
      | Go my =>
          finishEntity keys i (placeY (placeX fr mx) my) (m_ent my)
            (m_grounded my)
      end
  end.

(** [entRectX], and the state in which the loop over [other] starts on X:
    the tentative [nextX], kept inside the canvas. *)
Definition startX (deltaTime : Q) (fr : Frame) (ent : GameEntity)
  : Rect * Mover :=
  let h := f_heap fr in
  let v := velocity ent in
  let nextX := x (deref h (pos ent)) + x (deref h v) * deltaTime in
  let ent1 :=
    if (Num.ltb nextX (-100) || Num.gtb nextX (CANVAS_WIDTH + 100))
       && EntityType_eqb (type ent) PROJECTILE
    then with_isVisible ent false
    else ent in
  let '(nextX1, h1) :=
    if Num.ltb nextX 0 then (0, setX h v 0) else (nextX, h) in
  let '(nextX2, h2) :=
    if Num.gtb nextX1 (CANVAS_WIDTH - x (size ent1))
    then (CANVAS_WIDTH - x (size ent1), setX h1 v 0)
    else (nextX1, h1) in
  ({| r_pos := {| x := nextX2; y := y (deref h2 (pos ent1)) |};
      r_size := size ent1 |},
   {| m_heap := h2; m_ent := ent1; m_next := nextX2;
      m_grounded := false; m_targetX := f_targetX fr |}).

(** [entRectY], and the state in which the loop over [other] starts on
    Y. *)
Definition startY (deltaTime : Q) (fr : Frame) (ent : GameEntity)
  : Rect * Mover :=
  let h := f_heap fr in
  let nextY := y (deref h (pos ent)) + y (deref h (velocity ent)) * deltaTime in
  ({| r_pos := {| x := x (deref h (pos ent)); y := nextY |};
      r_size := size ent |},
   {| m_heap := h; m_ent := ent; m_next := nextY;
      m_grounded := false; m_targetX := f_targetX fr |}).

(** The rectangle of [other], were its position [p]. *)
Definition seenAt (p : Vector2) (other : GameEntity) : Rect :=
  {| r_pos := p; r_size := size other |}.

(** One turn of the loop over [other] on X in which [other] stands at
    [p]: [sweepX_step], with [p] for the position that it reads of
    [other].  It is what a turn is compared with, to say where the turn
    has seen [other]. *)
Definition sweepX_step_seeing (p : Vector2) (entRectX : Rect) (m : Mover)
    (other : GameEntity) : Flow Mover :=
  let ent := m_ent m in
  if skipped ent other then Go m
  else if checkCollision entRectX (seenAt p other) then
    if lethal ent other then Stop Died m
    else
      let ent1 := hitWall ent other in
      if isSolid other then
        let v := velocity ent1 in
        let h1 :=
          if Behavior_is PATROL (behavior ent1)
          then setX (m_heap m) v (- x (deref (m_heap m) v))
          else setX (m_heap m) v 0 in
        Go {| m_heap := h1;
              m_ent := ent1;
              m_next := x (deref h1 (pos ent1));
              m_grounded := m_grounded m;
              m_targetX :=
                if EntityType_eqb (type ent1) PLAYER then None
                else m_targetX m |}
      else
        Go {| m_heap := m_heap m; m_ent := ent1; m_next := m_next m;
              m_grounded := m_grounded m; m_targetX := m_targetX m |}
  else Go m.

(** The same on Y, where the turn also reads [other.pos.y] to put the
    entity on, or under, [other]. *)
Definition sweepY_step_seeing (p : Vector2) (entRectY : Rect) (m : Mover)
    (other : GameEntity) : Flow Mover :=
  let ent := m_ent m in
  if skipped ent other then Go m
  else if checkCollision entRectY (seenAt p other) then
    if lethal ent other then Stop Died m
    else
      let ent1 := hitWall ent other in
      if isSolid other then
        let v := velocity ent1 in
        let vy := y (deref (m_heap m) v) in
        if Num.gtb vy 0 then
          Go {| m_heap := setY (m_heap m) v 0;
                m_ent := ent1;
                m_next := y p - y (size ent1);
                m_grounded := true;
                m_targetX := m_targetX m |}
        else if Num.ltb vy 0 then
          Go {| m_heap := setY (m_heap m) v 0;
                m_ent := ent1;
                m_next := y p + y (size other);
                m_grounded := m_grounded m;
                m_targetX := m_targetX m |}
        else
          Go {| m_heap := m_heap m; m_ent := ent1; m_next := m_next m;
                m_grounded := m_grounded m; m_targetX := m_targetX m |}
      else
        Go {| m_heap := m_heap m; m_ent := ent1; m_next := m_next m;
              m_grounded := m_grounded m; m_targetX := m_targetX m |}
  else Go m.

(** Whether the turret block, run for [ent] at [now] in [fr], pushes a
    projectile. *)
Definition fires (M : MathLib) (now : Q) (fr : Frame) (ent : GameEntity)
  : bool :=
  Nat.ltb (length (newProjectiles fr))
          (length (newProjectiles (fst (turretBehavior M now fr ent)))).


(* ================================================================== *)
(** ** Invariants of the World State and of the loop *)

(** The references held by entities: position and velocity of each. *)
Definition refsOf (es : list GameEntity) : list ref :=
  flat_map (fun e => [pos e; velocity e]) es.

(** The objects of the entities of [es] exist in [h], and no two of them
    are the same object. *)
Definition wellFormed (h : Heap) (es : list GameEntity) : Prop :=
  Forall (fun r => (r < next h)%nat) (refsOf es) /\ NoDup (refsOf es).

(** The references held by a frame: those of its entities, then those of
    its new projectiles. *)
Definition frameRefs (fr : Frame) : list ref :=
  refsOf (currentEntities fr) ++ refsOf (newProjectiles fr).

(** The references held by the entities of a blueprint. *)
Definition templateRefs (es : list EntityTemplate) : list ref :=
  flat_map
    (fun e => pos e :: match velocity e with Some r => [r] | None => [] end)
    es.

(** The objects of a blueprint exist in [h], and no two of its start
    position and the positions and velocities of its entities are the same
    object. *)
Definition blueprintApart (h : Heap) (level : LevelData) : Prop :=
  Forall (fun r => (r < next h)%nat)
    (startPos level :: templateRefs (entities level))
  /\ NoDup (startPos level :: templateRefs (entities level)).

(** The cues of a frame that goes on: a shot, a jump, a step. *)
Definition quiet (s : Sfx) : bool :=
  match s with
  | sfxShoot | sfxJump | sfxStep => true
  | _ => false
  end.

(** What a piece of the body has added to the sound log [log]: cues of a
    frame that goes on, followed by the cue of the death when it returns
    because the player died. *)
Definition soundsOf (log : list Sfx) (f : Flow Frame) : Prop :=
  match f with
  | Go fr | Stop ReachedExit fr =>
      exists news,
        f_audio fr = log ++ news /\ Forall (fun s => quiet s = true) news
  | Stop Died fr =>
      exists news,
        f_audio fr = log ++ news ++ [sfxDie]
        /\ Forall (fun s => quiet s = true) news
  end.

(** The cue a frame plays when it ends. *)
Definition closingCue (o : Outcome) : list Sfx :=
  match o with
  | Idle | Committed => []
  | ResetOutcome => [sfxDie]
  | LevelComplete => [sfxLevelComplete]
  | EditorTestEnded => [sfxWin]
  end.

(** What holds of the audio engine between two calls of its methods: the
    intervals that are set are the one that the engine knows, which plays
    the current track, or none; and the engine knows an interval exactly
    when a track is current. *)
Definition oneSequencer (a : AudioEngine) : Prop :=
  intervals a
  = match musicInterval a with
    | Some handle => [(handle, currentTrack a)]
    | None => []
    end
  /\ (musicInterval a = None <-> currentTrack a = none).

(** [h'] is [h] but for the objects behind [p] and [v]: nothing was
    allocated, and every other object is as it was. *)
Definition sameBut (p v : ref) (h h' : Heap) : Prop :=
  next h' = next h /\ forall r, r <> p -> r <> v -> deref h' r = deref h r.

(** A property of the state a piece of the body leaves, whether it falls
    through or returns. *)
Definition after {A : Type} (P : A -> Prop) (f : Flow A) : Prop :=
  match f with
  | Go a => P a
  | Stop _ a => P a
  end.

(** The mover is the entity with position [p] and velocity [v], and has
    written no other object since [h]. *)
Definition moverOK (p v : ref) (h : Heap) (m : Mover) : Prop :=
  pos (m_ent m) = p /\ velocity (m_ent m) = v /\ sameBut p v h (m_heap m).

(** What a piece of the body that resolves the entity at [i], with
    position [p] and velocity [v], may do to the frame [fr]. *)
Definition resolvedBy (p v : ref) (i : nat) (fr : Frame) (f : Flow Frame)
  : Prop :=
  after (fun fr' => sameBut p v (f_heap fr) (f_heap fr')
                    /\ newProjectiles fr' = newProjectiles fr) f
  /\ forall fr', f = Go fr' ->
       exists ent', currentEntities fr' = <[i := ent']> (currentEntities fr)
                    /\ pos ent' = p /\ velocity ent' = v.

(** The state of the loop of a frame that started from the objects [h0]
    and the entities [es0], before the body runs for index [k]: the
    entries from [k] on are those of [es0]; no entry has changed its
    position object; and the objects of [h0] that are not the position or
    the velocity of an entry before [k] are as they were. *)
Definition loopInv (h0 : Heap) (es0 : list GameEntity) (k : nat) (fr : Frame)
  : Prop :=
  length (currentEntities fr) = length es0
  /\ (next h0 <= next (f_heap fr))%nat
  /\ (forall j, (k <= j)%nat -> currentEntities fr !! j = es0 !! j)
  /\ (forall j o, currentEntities fr !! j = Some o ->
        exists o0, es0 !! j = Some o0 /\ pos o = pos o0)
  /\ (forall r, (r < next h0)%nat ->
        (forall j o0, (j < k)%nat -> es0 !! j = Some o0 ->
                      r <> pos o0 /\ r <> velocity o0) ->
        deref (f_heap fr) r = deref h0 r).

(** The projectile [pr] was pushed by the turret block in this frame and
    has not been touched since: the block ran for the entry at some index
    [i], in the state [fr] in which the body starts for [i], and the
    objects of [pr] in [h] hold the velocity and the spawn position it
    aimed. *)
Definition spawnedIn (M : MathLib) (keys : Keys) (time : Q) (E : Engine)
    (h : Heap) (pr : GameEntity) : Prop :=
  exists i fr ent,
    frameBefore M keys time E i = Go fr
    /\ currentEntities fr !! i = Some ent
    /\ let h1 := fst (patrolBehavior M (f_heap fr) ent) in
       let turret := snd (patrolBehavior M (f_heap fr) ent) in
       pr = projectile_entity M turret time (next h1) (S (next h1))
       /\ turretAim M h1 turret (List.find is_player (currentEntities fr))
          = Some (deref h (velocity pr), deref h (pos pr)).

(** The frame with [pending] in front of its new projectiles. *)
Definition withPending (pending : list GameEntity) (fr : Frame) : Frame :=
  {| f_heap := f_heap fr; currentEntities := currentEntities fr;
     newProjectiles := pending ++ newProjectiles fr;
     f_targetX := f_targetX fr; f_lastStepTime := f_lastStepTime fr;
     f_audio := f_audio fr |}.

(** The state a piece of the body leaves, through [f]. *)
Definition mapFlow {A B : Type} (f : A -> B) (fl : Flow A) : Flow B :=
  match fl with
  | Go a => Go (f a)
  | Stop sig a => Stop sig (f a)
  end.

Definition is_projectile (e : GameEntity) : bool :=
  EntityType_eqb (type e) PROJECTILE.

(** The record of an entity without the three fields that the loop body
    assigns: [velocity] (the patrol block gives the entity a new object),
    [isVisible] and [lastFireTime]. *)
Definition fixedPart (e : GameEntity) : EntityOf unit :=
  mkEntity (id e) (type e) (name e) (pos e) (size e) tt
    (isStatic e) (isSolid e) true (isLocked e) (isDeadly e)
    (isAlwaysVisible e) (gravityScale e) (behavior e) (origin e)
    (patrolStart e) (patrolEnd e) (patrolSpeed e) (fireRate e)
    (projectileSpeed e) None.

(** [e'] is [e] as the loop body may leave it: the fields it does not
    assign are those of [e], and [isVisible] is that of [e] unless [e] is a
    projectile that was hidden. *)
Definition rewritten (e e' : GameEntity) : Prop :=
  fixedPart e' = fixedPart e
  /\ (isVisible e' = isVisible e
      \/ (is_projectile e = true /\ isVisible e' = false)).

(** The guard of the patrol block of the body, and the guard of its turret
    block. *)
Definition patrols (e : GameEntity) : bool :=
  Behavior_is PATROL (behavior e)
  && match patrolStart e with Some _ => true | None => false end
  && match patrolEnd e with Some _ => true | None => false end
  && negb (isStatic e).

Definition shoots (e : GameEntity) : bool :=
  Behavior_is TURRET (behavior e)
  && match fireRate e with Some rate => Num.truthy rate | None => false end.

(** Whether a frame with this outcome has requested the frame that follows
    it.  Every frame ends with [requestAnimationFrame(gameLoop)], the one
    that finds the loop not running and the one that sets the level up
    again ([resetLevel]) included, but the frame in which the player
    reaches the exit, which returns at once. *)
Definition requestsNext (o : Outcome) : bool :=
  match o with
  | LevelComplete | EditorTestEnded => false
  | _ => true
  end.

(** The frames that the loop runs one after the other in the state [mode]
    of one render, with the keys held and at the times of [inputs]: the
    state they leave, and the outcome of each.  The run ends with the
    inputs, or with the frame in which the player reaches the exit: no
    frame is requested after it, and what follows (the next level, the end
    of the test) belongs to another render. *)
Fixpoint frames (M : MathLib) (mode : Mode) (inputs : list (Keys * Q))
    (E : Engine) : Engine * list Outcome :=
  match inputs with
  | [] => (E, [])
  | (keys, time) :: rest =>
      let '(E1, o) := gameLoop M mode keys time E in
      if requestsNext o then
        let '(E2, os) := frames M mode rest E1 in
        (E2, o :: os)
      else (E1, [o])
  end.

(** The blueprint that [resetLevel] sets up again. *)
Definition blueprintOf (mode : Mode) : LevelData :=
  match gameState mode, isEditorTesting mode with
  | EDITOR, true => editorLevel mode
  | _, _ => currentLevel mode
  end.





(* ================================================================== *)
(** ** A computable host library, and scenarios *)

Module Host.

(** The square root rounded down on the grid of the denominator: exact
    whenever numerator times denominator is a perfect square. *)
Definition sqrt (q : Q) : Q :=
  Z.sqrt (Qnum q * Zpos (Qden q)) # Qden q.

Definition pi : Q := 355 # 113.

(** Rational approximations of the arc tangent, the cosine and the sine;
    exact at 0, that is when aiming along the positive x axis. *)
Definition atan (z : Q) : Q :=
  if Num.leb (Qabs z) 1 then z / (1 + 0.28 * z * z)
  else (if Num.ltb 0 z then pi / 2 else - (pi / 2)) - z / (z * z + 0.28).

Definition atan2 (dy dx : Q) : Q :=
  if Num.ltb 0 dx then atan (dy / dx)
  else if Num.ltb dx 0 then
    (if Num.leb 0 dy then atan (dy / dx) + pi else atan (dy / dx) - pi)
  else if Num.ltb 0 dy then pi / 2
  else if Num.ltb dy 0 then - (pi / 2)
  else 0.

Definition cos (a : Q) : Q := 1 - a * a / 2 + a * a * a * a / 24.
Definition sin (a : Q) : Q := a - a * a * a / 6 + a * a * a * a * a / 120.

(** A number printed as its reduced fraction. *)
Definition toString (q : Q) : string :=
  let r := Qred q in
  match Qden r with
  | 1%positive => pretty (Qnum r)
  | d => (pretty (Qnum r) ++ "/" ++ pretty (Zpos d))%string
  end.

Definition math : MathLib :=
  {| Math_sqrt := sqrt; Math_atan2 := atan2; Math_cos := cos;
     Math_sin := sin; Number_toString := toString |}.

End Host.

Module Scenario.

(** The objects of a level, allocated in order: the references are
    0, 1, 2, ... *)
Definition objects (vs : list Vector2) : Heap :=
  fold_left (fun h v => fst (alloc h v)) vs emptyHeap.

Definition vec (a b : Q) : Vector2 := {| x := a; y := b |}.

Definition DEFAULT_PHYSICS : GlobalPhysics :=
  {| gravity := 0.5; friction := 0.85; timeScale := 1 |}.

Definition noKeys : Keys := fun _ => false.

Definition boot (h : Heap) : Engine :=
  {| heap := h; entitiesRef := []; physicsRef := DEFAULT_PHYSICS;
     lastTimeRef := 0; targetXRef := None; lastStepTimeRef := 0;
     audio := [] |}.

Definition level (start : ref) (es : list EntityTemplate) : LevelData :=
  {| level_id := 1; level_name := "LEVEL"; level_description := "";
     startPos := start; entities := es; physics := DEFAULT_PHYSICS |}.

Definition playing (l : LevelData) : Mode :=
  {| gameState := PLAYING; isEditorTesting := false; isPaused := false;
     currentLevelId := 1; editorLevel := l; LEVELS_first := l;
     LEVELS_rest := [] |}.

Definition testing (l : LevelData) : Mode :=
  {| gameState := EDITOR; isEditorTesting := true; isPaused := false;
     currentLevelId := 1; editorLevel := l; LEVELS_first := l;
     LEVELS_rest := [] |}.

(** *** Two crates gliding towards each other *)

Definition crate (i : string) (p v : ref) : EntityTemplate :=
  mkEntity i PLATFORM i p (vec 10 10) (Some v) false true true
    None None None (Some 0) None None None None None None None None.

(** Objects: 0 the start position, 1 and 2 the position and the velocity
    of crate a, 3 and 4 those of crate b. *)
Definition crates_heap : Heap :=
  objects [vec 500 500; vec 100 100; vec 100 0; vec 111 100; vec (-100) 0].

Definition crates_level : LevelData :=
  level 0%nat [crate "a" 1%nat 2%nat; crate "b" 3%nat 4%nat].

Definition crates : Engine := setupLevel crates_level (boot crates_heap).

(** *** An enemy dropped in the editor next to the start position *)

(** The entity [handleEditorDrop] makes for an enemy dropped at (88, 400),
    with its position at [p] and its velocity at [v]. *)
Definition dropped_enemy (p v : ref) : EntityTemplate :=
  mkEntity "custom_ENEMY_1" ENEMY "New_ENEMY" p (vec 30 30) (Some v)
    false true true None (Some true) None None (Some PATROL) None
    (Some (vec 88 400)) (Some (vec 188 400)) None None None None.

(** Objects: 0 the start position, 1 and 2 the position and the velocity
    of the enemy. *)
Definition editor_heap : Heap := objects [vec 50 400; vec 88 400; vec 0 0].

Definition editor_level : LevelData := level 0%nat [dropped_enemy 1%nat 2%nat].

(** The test is started, the scene is clicked at x = 300, and two frames
    run, at 50 ms and at 100 ms. *)
Definition editor_test : Engine :=
  handleSceneClick (testing editor_level) 300
    (setupLevel editor_level (boot editor_heap)).

Definition editor_frame1 : Engine * Outcome :=
  gameLoop Host.math (testing editor_level) noKeys 50 editor_test.

Definition editor_frame2 : Engine * Outcome :=
  gameLoop Host.math (testing editor_level) noKeys 100 (fst editor_frame1).

(** *** A turret in sight of the player *)

Definition turret (p v : ref) (last : option Q) : EntityTemplate :=
  mkEntity "turret" ENEMY "Turret" p (vec 30 30) (Some v)
    true true true None None None None (Some TURRET) None
    None None None (Some 2000) None last.

(** Objects: 0 the start position, 1 and 2 the position and the velocity
    of the turret. *)
Definition turret_heap : Heap := objects [vec 250 400; vec 151 401; vec 0 0].

Definition turret_level : LevelData := level 0%nat [turret 1%nat 2%nat None].

Definition turret_world : Engine :=
  setupLevel turret_level (boot turret_heap).


(** *** A turret next to the player *)

(** Objects as above, the turret 15 to the left of the player: the
    projectile spawns on the player. *)
Definition ambush_heap : Heap := objects [vec 250 400; vec 205 401; vec 0 0].

Definition ambush_level : LevelData := level 0%nat [turret 1%nat 2%nat None].

Definition ambush_world : Engine :=
  setupLevel ambush_level (boot ambush_heap).

(** *** A patrol whose speed was set to 0 *)

Definition patroller (speed : option Q) : GameEntity :=
  mkEntity "patrol" ENEMY "Patrol" 0%nat (vec 30 30) 1%nat
    false true true None (Some true) None (Some 1) (Some PATROL) None
    (Some (vec 0 0)) (Some (vec 100 0)) speed None None None.

Definition patrol_heap : Heap := objects [vec 0 0; vec 0 0].

(** *** An exit that is not visible, at the start position *)

Definition hidden_exit (p v : ref) : EntityTemplate :=
  mkEntity "exit" EXIT "Exit" p (vec 50 100) (Some v)
    true false false None None None None None None
    None None None None None None.

Definition exit_heap : Heap := objects [vec 50 400; vec 40 380; vec 0 0].

Definition exit_level : LevelData := level 0%nat [hidden_exit 1%nat 2%nat].

Definition exit_world : Engine := setupLevel exit_level (boot exit_heap).

(** *** A blueprint with an entity of size zero *)

Definition empty_wall (p v : ref) : EntityTemplate :=
  mkEntity "wall" WALL "Wall" p (vec 0 0) (Some v)
    true true true None None None None None None
    None None None None None None.

Definition malformed_heap : Heap := objects [vec 50 400; vec 300 300; vec 0 0].

Definition malformed_level : LevelData := level 0%nat [empty_wall 1%nat 2%nat].

Definition malformed_world : Engine :=
  setupLevel malformed_level (boot malformed_heap).

(** *** The editor *)

(** The blueprint of the editor as the component makes it: no entity, the
    start position (50, 400), which is object 0. *)
Definition emptyBlueprint : LevelData :=
  {| level_id := 99; level_name := "CUSTOM_LEVEL";
     level_description := "User defined environment."; startPos := 0%nat;
     entities := []; physics := DEFAULT_PHYSICS |}.

Definition editing (l : LevelData) : Mode :=
  {| gameState := EDITOR; isEditorTesting := false; isPaused := false;
     currentLevelId := 1; editorLevel := l; LEVELS_first := l;
     LEVELS_rest := [] |}.

(** The editor is opened: objects 1 and 2 are those of the ghost. *)
Definition workshop : Component :=
  initEffect
    {| c_mode := editing emptyBlueprint;
       c_engine := boot (objects [vec 50 400]);
       c_editorEntities := [];
       c_selectedEntityId := None |}.

(** An enemy is dropped at (88, 400), at the time 1: objects 3 and 4 are its
    position and its velocity, 5 and 6 those of the next ghost. *)
Definition workshop_enemy : Component :=
  initEffect (handleEditorDrop Host.math 1 (Some ENEMY) 88 400 workshop).

(** The enemy is dragged: the viewport has made the object 7, (200, 400),
    to move it to. *)
Definition workshop_drag : Component :=
  {| c_mode := c_mode workshop_enemy;
     c_engine :=
       with_heap (c_engine workshop_enemy)
         (fst (alloc (heap (c_engine workshop_enemy)) (vec 200 400)));
     c_editorEntities := c_editorEntities workshop_enemy;
     c_selectedEntityId := Some "custom_ENEMY_1"%string |}.

(** A table of two levels, the two crates and then the turret, and the
    component that plays the first one. *)
Definition second_level : LevelData :=
  {| level_id := 2; level_name := "LEVEL 2"; level_description := "";
     startPos := 0%nat; entities := [turret 1%nat 2%nat None];
     physics := DEFAULT_PHYSICS |}.

Definition campaign : Component :=
  {| c_mode :=
       {| gameState := PLAYING; isEditorTesting := false; isPaused := false;
          currentLevelId := 1; editorLevel := emptyBlueprint;
          LEVELS_first := crates_level; LEVELS_rest := [second_level] |};
     c_engine := crates;
     c_editorEntities := [];
     c_selectedEntityId := None |}.

(** The test of the level with the enemy, as a component. *)
Definition test_component : Component :=
  {| c_mode := testing editor_level; c_engine := editor_test;
     c_editorEntities := []; c_selectedEntityId := None |}.

End Scenario.

(* ================================================================== *)
(** * Properties *)

(** ** Comparisons *)

Lemma ltb_lt (a b : Q) : Num.ltb a b = true <-> a < b.
Proof.
  unfold Num.ltb. rewrite negb_true_iff, <- not_true_iff_false, Qle_bool_iff.
  split; [apply Qnot_le_lt | apply Qlt_not_le].
Qed.

Lemma ltb_ge (a b : Q) : Num.ltb a b = false <-> b <= a.
Proof. unfold Num.ltb. rewrite negb_false_iff. apply Qle_bool_iff. Qed.

Lemma gtb_gt (a b : Q) : Num.gtb a b = true <-> b < a.
Proof. apply ltb_lt. Qed.

Lemma gtb_le (a b : Q) : Num.gtb a b = false <-> a <= b.
Proof. apply ltb_ge. Qed.

Lemma leb_le (a b : Q) : Num.leb a b = true <-> a <= b.
Proof. apply Qle_bool_iff. Qed.

Lemma leb_gt (a b : Q) : Num.leb a b = false <-> b < a.
Proof.
  unfold Num.leb. rewrite <- not_true_iff_false, Qle_bool_iff.
  split; [apply Qnot_le_lt | apply Qlt_not_le].
Qed.

Lemma geb_ge (a b : Q) : Num.geb a b = true <-> b <= a.
Proof. apply Qle_bool_iff. Qed.

Lemma geb_lt (a b : Q) : Num.geb a b = false <-> a < b.
Proof. apply leb_gt. Qed.

Lemma eqb_eq (a b : Q) : Num.eqb a b = true <-> a == b.
Proof. apply Qeq_bool_iff. Qed.

Lemma eqb_neq (a b : Q) : Num.eqb a b = false <-> ~ a == b.
Proof.
  unfold Num.eqb. rewrite <- not_true_iff_false, Qeq_bool_iff. reflexivity.
Qed.

Lemma truthy_false (a : Q) : Num.truthy a = false <-> a == 0.
Proof. unfold Num.truthy. rewrite negb_false_iff. apply Qeq_bool_iff. Qed.

Lemma truthy_true (a : Q) : Num.truthy a = true <-> ~ a == 0.
Proof.
  unfold Num.truthy.
  rewrite negb_true_iff, <- not_true_iff_false, Qeq_bool_iff. reflexivity.
Qed.

(** ** The collision test *)

(** C8.  [checkCollision a b] holds exactly when the rectangles of [a] and
    [b] overlap strictly on both axes; rectangles that only touch, along an
    edge or at a corner, do not collide. *)
Theorem checkCollision_strict_overlap (a b : Rect) :
  (checkCollision a b = true <->
     x (r_pos a) < x (r_pos b) + x (r_size b) /\
     x (r_pos a) + x (r_size a) > x (r_pos b) /\
     y (r_pos a) < y (r_pos b) + y (r_size b) /\
     y (r_pos a) + y (r_size a) > y (r_pos b))
  /\
  (x (r_pos a) + x (r_size a) == x (r_pos b) \/
   x (r_pos b) + x (r_size b) == x (r_pos a) \/
   y (r_pos a) + y (r_size a) == y (r_pos b) \/
   y (r_pos b) + y (r_size b) == y (r_pos a) ->
   checkCollision a b = false).
Proof.
  assert (Hiff : checkCollision a b = true <->
     x (r_pos a) < x (r_pos b) + x (r_size b) /\
     x (r_pos a) + x (r_size a) > x (r_pos b) /\
     y (r_pos a) < y (r_pos b) + y (r_size b) /\
     y (r_pos a) + y (r_size a) > y (r_pos b)).
  { unfold checkCollision.
    rewrite !andb_true_iff, !ltb_lt, !gtb_gt. tauto. }
  split; [exact Hiff|].
  intros Htouch. apply not_true_iff_false. rewrite Hiff.
  intros (H1 & H2 & H3 & H4).
  destruct Htouch as [E | [E | [E | E]]]; rewrite E in *;
    eapply Qlt_irrefl; eassumption.
Qed.

(** ** The time step *)

(** C7, as amended.  The time step of a frame is
    [min (raw / 1000) 0.05 * timeScale]; it is at most [0.05 * timeScale]
    when [timeScale] is not negative, and at least that when [timeScale]
    is not positive. *)
Theorem deltaTime_clamped (M : MathLib) (keys : Keys) (time : Q)
    (E : Engine) :
  let raw := time - lastTimeRef E in
  let scale := timeScale (physicsRef E) in
  let deltaTime := deltaTimeOf raw scale in
  frameLoop M keys time E =
    runLoop (processEntity M (physicsRef E) deltaTime time keys)
      (seq 0 (length (entitiesRef E))) (startFrame E)
  /\ deltaTime == Qmin (raw / 1000) 0.05 * scale
  /\ (0 <= scale -> deltaTime <= 0.05 * scale)
  /\ (scale <= 0 -> 0.05 * scale <= deltaTime).
Proof.
  cbv zeta. split; [reflexivity|]. split; [reflexivity|].
  unfold deltaTimeOf.
  pose proof (Q.le_min_r ((time - lastTimeRef E) / 1000) 0.05) as Hmin.
  split; intros Hs.
  - apply Qmult_le_compat_r; assumption.
  - pose proof (Qmult_le_0_compat
                  (0.05 - Qmin ((time - lastTimeRef E) / 1000) 0.05)
                  (- timeScale (physicsRef E))) as Hprod.
    lapply Hprod; [clear Hprod; intros Hprod | lra].
    lapply Hprod; [clear Hprod; intros Hprod | lra].
    lra.
Qed.

(** C7, as stated, fails for a negative [timeScale]: a raw step of 10 ms
    at [timeScale = -1] gives a step of -0.01, above [0.05 * -1]. *)
Lemma deltaTime_exceeds_cap_when_negative :
  deltaTimeOf 10 (-1) == -0.01 /\ ~ deltaTimeOf 10 (-1) <= 0.05 * -1.
Proof. split; [reflexivity|]. vm_compute. intros H. apply H. reflexivity. Qed.

(** ** Objects *)

Arguments deref : simpl never.
Arguments store : simpl never.
Arguments setX : simpl never.
Arguments setY : simpl never.
Arguments alloc : simpl never.

Lemma deref_store (h : Heap) (r r' : ref) (v : Vector2) :
  deref (store h r v) r' = if Nat.eqb r' r then v else deref h r'.
Proof. reflexivity. Qed.

Lemma deref_setX_same (h : Heap) (r : ref) (a : Q) :
  deref (setX h r a) r = {| x := a; y := y (deref h r) |}.
Proof. unfold setX. rewrite deref_store, Nat.eqb_refl. reflexivity. Qed.

Lemma deref_setY_same (h : Heap) (r : ref) (a : Q) :
  deref (setY h r a) r = {| x := x (deref h r); y := a |}.
Proof. unfold setY. rewrite deref_store, Nat.eqb_refl. reflexivity. Qed.

Lemma deref_setX_other (h : Heap) (r r' : ref) (a : Q) :
  r' <> r -> deref (setX h r a) r' = deref h r'.
Proof.
  intros Hne. unfold setX. rewrite deref_store.
  destruct (Nat.eqb_spec r' r); [contradiction | reflexivity].
Qed.

Lemma deref_setY_other (h : Heap) (r r' : ref) (a : Q) :
  r' <> r -> deref (setY h r a) r' = deref h r'.
Proof.
  intros Hne. unfold setY. rewrite deref_store.
  destruct (Nat.eqb_spec r' r); [contradiction | reflexivity].
Qed.

Lemma setX_keeps_y (h : Heap) (r r' : ref) (a : Q) :
  y (deref (setX h r a) r') = y (deref h r').
Proof.
  unfold setX. rewrite deref_store.
  destruct (Nat.eqb_spec r' r) as [->|]; reflexivity.
Qed.

Lemma setY_keeps_x (h : Heap) (r r' : ref) (a : Q) :
  x (deref (setY h r a) r') = x (deref h r').
Proof.
  unfold setY. rewrite deref_store.
  destruct (Nat.eqb_spec r' r) as [->|]; reflexivity.
Qed.

Lemma next_setX (h : Heap) (r : ref) (a : Q) : next (setX h r a) = next h.
Proof. reflexivity. Qed.

Lemma next_setY (h : Heap) (r : ref) (a : Q) : next (setY h r a) = next h.
Proof. reflexivity. Qed.

Lemma deref_alloc_new (h : Heap) (v : Vector2) :
  deref (fst (alloc h v)) (snd (alloc h v)) = v.
Proof. unfold alloc, deref. cbn. rewrite Nat.eqb_refl. reflexivity. Qed.

Lemma deref_alloc_old (h : Heap) (v : Vector2) (r : ref) :
  (r < next h)%nat -> deref (fst (alloc h v)) r = deref h r.
Proof.
  intros Hlt. unfold alloc, deref. cbn.
  destruct (Nat.eqb_spec r (next h)); [lia | reflexivity].
Qed.

Lemma next_alloc (h : Heap) (v : Vector2) :
  next (fst (alloc h v)) = S (next h).
Proof. reflexivity. Qed.

(** ** Player control *)

(** The control block of the player, in whatever state it runs.  With a
    horizontal key held the horizontal velocity receives +300 dt and
    -300 dt per held direction, the click target is cleared, and the
    result is multiplied by the friction.  Otherwise, with a click target,
    the target is cleared and the velocity set to 0 when the centre is
    less than 5 away from it, and the velocity is set to
    sign(distance) * 200, without friction, when it is not.  Otherwise the
    velocity is multiplied by the friction.  The vertical velocity is left
    as it is. *)
Lemma playerControl_law (phys : GlobalPhysics) (deltaTime time : Q)
    (keys : Keys) (ent : GameEntity) (fr : Frame) :
  let v := velocity ent in
  let vx := x (deref (f_heap fr) v) in
  let fr' := playerControl phys deltaTime time keys ent fr in
  let vx' := x (deref (f_heap fr') v) in
  let accel :=
    (if heldRight keys then 300 * deltaTime else 0)
    - (if heldLeft keys then 300 * deltaTime else 0) in
  y (deref (f_heap fr') v) = y (deref (f_heap fr) v)
  /\
  (heldRight keys || heldLeft keys = true ->
     vx' == (vx + accel) * friction phys /\ f_targetX fr' = None)
  /\
  (heldRight keys || heldLeft keys = false ->
     match f_targetX fr with
     | Some targetX =>
         let center := x (deref (f_heap fr) (pos ent)) + x (size ent) / 2 in
         let diff := targetX - center in
         (Qabs diff < 5 -> vx' = 0 /\ f_targetX fr' = None)
         /\ (5 <= Qabs diff ->
             vx' = Num.sign diff * 200 /\ f_targetX fr' = Some targetX)
     | None => vx' = vx * friction phys /\ f_targetX fr' = None
     end).
Proof.
  cbv zeta. unfold playerControl, MOVE_ACCEL, MAX_WALK_SPEED.
  destruct (heldRight keys), (heldLeft keys); cbn [orb].
  1-3: split;
    [ match goal with
      | |- context [if ?c then step_sound _ _ else _] => destruct c
      end; cbn; rewrite ?setX_keeps_y; reflexivity
    | split; [intros _ | discriminate] ];
    match goal with
    | |- context [if ?c then step_sound _ _ else _] => destruct c
    end; cbn; rewrite !deref_setX_same; cbn; split; try reflexivity; ring.
  destruct (f_targetX fr) as [targetX|] eqn:Htarget.
  - destruct (Num.ltb (Qabs (targetX - (x (deref (f_heap fr) (pos ent))
                                        + x (size ent) / 2))) 5) eqn:Hnear.
    + apply ltb_lt in Hnear. cbn. rewrite setX_keeps_y, deref_setX_same. cbn.
      split; [reflexivity|]. split; [discriminate | intros _].
      split; [intros _; split; reflexivity | intros Hfar].
      exfalso. apply (Qlt_irrefl 5). eapply Qle_lt_trans; eassumption.
    + apply ltb_ge in Hnear.
      match goal with
      | |- context [if ?c then step_sound _ _ else _] => destruct c
      end; cbn; rewrite setX_keeps_y, deref_setX_same; cbn;
        (split; [reflexivity|]; split; [discriminate | intros _];
         split; [intros Hlt; exfalso; apply (Qlt_irrefl 5);
                 eapply Qle_lt_trans; eassumption
                | intros _; split; [reflexivity | assumption]]).
  - cbn. rewrite setX_keeps_y, deref_setX_same. cbn.
    split; [reflexivity|]. split; [discriminate | intros _].
    split; [reflexivity | assumption].
Qed.

(** ** Patrol *)

Lemma assign_velocity_deref (h : Heap) (ent : GameEntity) (v : Vector2) :
  deref (fst (assign_velocity h ent v))
        (velocity (snd (assign_velocity h ent v))) = v.
Proof.
  unfold assign_velocity, alloc, deref. cbn. rewrite Nat.eqb_refl. reflexivity.
Qed.

(** C4, as amended.  For a patrol that is not static, with path
    [P = patrolEnd - patrolStart] of length [len > 0] and with
    [speed = patrolSpeed || 100] (so 100 when [patrolSpeed] is unset or
    zero): a velocity that is exactly zero becomes [unit P * speed];
    otherwise a forward velocity at progress [t >= 1] becomes
    [- unit P * speed], a backward velocity at [t <= 0] becomes
    [unit P * speed], and in every other case nothing changes.  For
    [len <= 0] nothing changes. *)
Theorem patrolBehavior_law (M : MathLib) (h : Heap) (ent : GameEntity)
    (pStart pEnd : Vector2) :
  behavior ent = Some PATROL ->
  isStatic ent = false ->
  patrolStart ent = Some pStart ->
  patrolEnd ent = Some pEnd ->
  let P := {| x := x pEnd - x pStart; y := y pEnd - y pStart |} in
  let len := Math_sqrt M (x P ^ 2 + y P ^ 2) in
  let speed := Num.or_default (patrolSpeed ent) 100 in
  let forward := {| x := x P / len * speed; y := y P / len * speed |} in
  let backward :=
    {| x := - (x P / len) * speed; y := - (y P / len) * speed |} in
  let p := deref h (pos ent) in
  let t := ((x p - x pStart) * x P + (y p - y pStart) * y P) / (len * len) in
  let v := deref h (velocity ent) in
  let vdot := x v * x P + y v * y P in
  let stopped := x v == 0 /\ y v == 0 in
  let h' := fst (patrolBehavior M h ent) in
  let ent' := snd (patrolBehavior M h ent) in
  let v' := deref h' (velocity ent') in
  (0 < len ->
     (stopped -> v' = forward) /\
     (~ stopped -> 0 <= vdot -> 1 <= t -> v' = backward) /\
     (~ stopped -> vdot < 0 -> t <= 0 -> v' = forward) /\
     (~ stopped -> (0 <= vdot -> t < 1) -> (vdot < 0 -> 0 < t) ->
      h' = h /\ ent' = ent))
  /\ (len <= 0 -> h' = h /\ ent' = ent)
  /\ (forall s, patrolSpeed ent = Some s -> ~ s == 0 -> speed = s)
  /\ (forall s, patrolSpeed ent = Some s -> s == 0 -> speed = 100)
  /\ (patrolSpeed ent = None -> speed = 100).
Proof.
  intros Hb Hs Hps Hpe. cbv zeta.
  unfold patrolBehavior. rewrite Hps, Hpe, Hb, Hs.
  cbn [Behavior_is negb andb x y].
  set (len := Math_sqrt M _).
  set (t := _ / (len * len)).
  set (vdot := x (deref h (velocity ent)) * (x pEnd - x pStart)
               + y (deref h (velocity ent)) * (y pEnd - y pStart)).
  split; [intros Hlen | split; [intros Hlen|]].
  - apply gtb_gt in Hlen. rewrite Hlen.
    destruct (Num.eqb (x (deref h (velocity ent))) 0
              && Num.eqb (y (deref h (velocity ent))) 0) eqn:Hstop.
    + apply andb_true_iff in Hstop as [Hx Hy]. apply eqb_eq in Hx, Hy.
      split; [intros _; apply assign_velocity_deref|].
      split; [|split]; intros Hns; exfalso; apply Hns; split; assumption.
    + assert (Hns : ~ (x (deref h (velocity ent)) == 0
                       /\ y (deref h (velocity ent)) == 0)).
      { intros [Hx Hy]. apply eqb_eq in Hx, Hy.
        rewrite Hx, Hy in Hstop. discriminate. }
      split; [intros Hst; contradiction|].
      destruct (Num.geb vdot 0) eqn:Hdir; cbn [andb negb].
      * apply geb_ge in Hdir.
        destruct (Num.geb t 1) eqn:Hend.
        -- apply geb_ge in Hend.
           split; [intros _ _ _; apply assign_velocity_deref|].
           split; [intros _ Hlt _; exfalso; lra|].
           intros _ Hfwd _. specialize (Hfwd Hdir). exfalso; lra.
        -- apply geb_lt in Hend.
           split; [intros _ _ Hge; exfalso; lra|].
           split; [intros _ Hlt _; exfalso; lra|].
           intros _ _ _. split; reflexivity.
      * apply geb_lt in Hdir.
        destruct (Num.leb t 0) eqn:Hbeg.
        -- apply leb_le in Hbeg.
           split; [intros _ Hge _; exfalso; lra|].
           split; [intros _ _ _; apply assign_velocity_deref|].
           intros _ _ Hbwd. specialize (Hbwd Hdir). exfalso; lra.
        -- apply leb_gt in Hbeg.
           split; [intros _ Hge _; exfalso; lra|].
           split; [intros _ _ Hle; exfalso; lra|].
           intros _ _ _. split; reflexivity.
  - apply gtb_le in Hlen. rewrite Hlen. split; reflexivity.
  - unfold Num.or_default.
    split; [|split].
    + intros s -> Hnz. apply truthy_true in Hnz. rewrite Hnz. reflexivity.
    + intros s -> Hz. apply truthy_false in Hz. rewrite Hz. reflexivity.
    + intros ->. reflexivity.
Qed.

(** A patrol at rest, with [patrolSpeed = 50], on the path from (0, 0) to
    (100, 0): the theorem applies and gives the velocity 50 along x. *)
Lemma patrolBehavior_law_witness :
  let r := patrolBehavior Host.math Scenario.patrol_heap
             (Scenario.patroller (Some 50)) in
  x (deref (fst r) (velocity (snd r))) == 50.
Proof.
  cbv zeta.
  pose proof (patrolBehavior_law Host.math Scenario.patrol_heap
                (Scenario.patroller (Some 50))
                (Scenario.vec 0 0) (Scenario.vec 100 0)
                eq_refl eq_refl eq_refl eq_refl) as H.
  cbv zeta in H. destruct H as [H _].
  destruct (H ltac:(vm_compute; reflexivity)) as [Hfwd _].
  rewrite (Hfwd ltac:(split; vm_compute; reflexivity)).
  vm_compute. reflexivity.
Defined.

(** C4, as stated, fails for [patrolSpeed = 0]: the patrol at rest on the
    path from (0, 0) to (100, 0) takes the velocity 100 along x, not
    [unit P * 0]. *)
Lemma patrol_speed_zero_moves_at_100 :
  let ent := Scenario.patroller (Some 0) in
  let r := patrolBehavior Host.math Scenario.patrol_heap ent in
  patrolSpeed ent = Some 0
  /\ deref Scenario.patrol_heap (velocity ent) = zero2
  /\ Host.sqrt ((100 - 0) ^ 2 + (0 - 0) ^ 2) == 100
  /\ x (deref (fst r) (velocity (snd r))) == 100
  /\ ~ x (deref (fst r) (velocity (snd r))) == (100 - 0) / 100 * 0.
Proof.
  cbv zeta. split; [reflexivity|]. split; [reflexivity|].
  split; [vm_compute; reflexivity|]. split; [vm_compute; reflexivity|].
  vm_compute. discriminate.
Qed.

(** ** Turret *)

Lemma turretBehavior_cases (M : MathLib) (now : Q) (fr : Frame)
    (ent : GameEntity) :
  (fires M now fr ent = false /\ turretBehavior M now fr ent = (fr, ent))
  \/
  (fires M now fr ent = true /\
   exists rate fireVelocity spawnPos,
     fireRate ent = Some rate /\
     Behavior_is TURRET (behavior ent) = true /\
     Num.truthy rate = true /\
     turretAim M (f_heap fr) ent (List.find is_player (currentEntities fr))
       = Some (fireVelocity, spawnPos) /\
     rearmed now ent rate = true /\
     snd (turretBehavior M now fr ent) = with_lastFireTime ent now /\
     fst (turretBehavior M now fr ent) =
       {| f_heap :=
            fst (alloc (fst (alloc (f_heap fr) spawnPos)) fireVelocity);
          currentEntities := currentEntities fr;
          newProjectiles :=
            newProjectiles fr ++
            [projectile_entity M ent now (next (f_heap fr))
               (S (next (f_heap fr)))];
          f_targetX := f_targetX fr;
          f_lastStepTime := f_lastStepTime fr;
          f_audio := f_audio fr ++ [sfxShoot] |}).
Proof.
  unfold fires, turretBehavior.
  destruct (fireRate ent) as [rate|];
    [| left; split; [apply Nat.ltb_irrefl | reflexivity]].
  destruct (Behavior_is TURRET (behavior ent)) eqn:Hb;
    [| left; split; [apply Nat.ltb_irrefl | reflexivity]].
  destruct (Num.truthy rate) eqn:Hr;
    [| left; split; [apply Nat.ltb_irrefl | reflexivity]].
  cbn [andb].
  destruct (turretAim M (f_heap fr) ent
              (List.find is_player (currentEntities fr)))
    as [[fireVelocity spawnPos]|] eqn:Haim;
    [| left; split; [apply Nat.ltb_irrefl | reflexivity]].
  destruct (rearmed now ent rate) eqn:Harm;
    [| left; split; [apply Nat.ltb_irrefl | reflexivity]].
  right. unfold alloc. cbn. split.
  - apply Nat.ltb_lt. rewrite length_app. cbn. lia.
  - exists rate, fireVelocity, spawnPos. repeat split; assumption.
Qed.

(** ** Visibility *)

Lemma skipped_invisible (ent other : GameEntity) :
  isVisible other = false -> skipped ent other = true.
Proof.
  intros Hv. unfold skipped. rewrite Hv. cbn. apply orb_true_r.
Qed.

(** C5, as amended.  An entity that is not visible takes no part in the
    collision sweeps: a turn of either sweep over it leaves the mover as
    it is, and each sweep over a list of entities gives what it gives over
    the visible ones among them. *)
Theorem invisible_excluded_from_sweeps (entRect : Rect)
    (others : list GameEntity) (m : Mover) :
  (forall other, isVisible other = false ->
     sweepX_step entRect m other = Go m /\ sweepY_step entRect m other = Go m)
  /\ sweep (sweepX_step entRect) others m
     = sweep (sweepX_step entRect) (List.filter isVisible others) m
  /\ sweep (sweepY_step entRect) others m
     = sweep (sweepY_step entRect) (List.filter isVisible others) m.
Proof.
  assert (Hstep : forall m' other, isVisible other = false ->
            sweepX_step entRect m' other = Go m'
            /\ sweepY_step entRect m' other = Go m').
  { intros m' other Hv. unfold sweepX_step, sweepY_step.
    rewrite (skipped_invisible _ _ Hv). split; reflexivity. }
  split; [apply Hstep|].
  split; revert m; induction others as [|other rest IH]; intros m;
    try reflexivity; cbn [sweep List.filter];
    destruct (isVisible other) eqn:Hv; cbn [sweep].
  - destruct (sweepX_step entRect m other); [apply IH | reflexivity].
  - rewrite (proj1 (Hstep m other Hv)). apply IH.
  - destruct (sweepY_step entRect m other); [apply IH | reflexivity].
  - rewrite (proj2 (Hstep m other Hv)). apply IH.
Qed.

(** C5, as stated, fails for the exit: with an exit that is not visible at
    the start position, the first frame ends the level. *)
Lemma hidden_exit_completes_level :
  map (fun e => (type e, isVisible e)) (entitiesRef Scenario.exit_world)
    = [(EXIT, false); (PLAYER, true)]
  /\ snd (gameLoop Host.math (Scenario.playing Scenario.exit_level)
            Scenario.noKeys 16 Scenario.exit_world) = LevelComplete.
Proof. split; vm_compute; reflexivity. Qed.

(** ** Level load *)

Lemma instantiateAll_sizes (h : Heap) (es : list EntityTemplate) :
  map size (snd (instantiateAll h es)) = map size es
  /\ map id (snd (instantiateAll h es)) = map id es
  /\ map pos (snd (instantiateAll h es)) = map pos es.
Proof.
  revert h. induction es as [|e rest IH]; intros h; [repeat split|].
  cbn [instantiateAll].
  destruct (instantiate h e) as [h1 e'] eqn:He.
  destruct (instantiateAll h1 rest) as [h2 rest'] eqn:Hrest.
  specialize (IH h1). rewrite Hrest in IH. cbn [snd] in IH.
  destruct IH as (IH1 & IH2 & IH3).
  unfold instantiate in He.
  destruct (match velocity e with
            | Some r => (h, r)
            | None => alloc h zero2
            end) as [h' v].
  injection He as <- <-.
  cbn. rewrite IH1, IH2, IH3. repeat split.
Qed.

(** C9, as amended.  Level setup validates nothing: for every blueprint it
    yields a World State that holds the blueprint entities in order, each
    with its identifier, its position object and its size as they are in
    the blueprint, followed by the player. *)
Theorem setupLevel_accepts_every_blueprint (level : LevelData) (E : Engine) :
  let world := entitiesRef (setupLevel level E) in
  map size world = map size (entities level) ++ [PLAYER_SIZE]
  /\ map id world = map id (entities level) ++ ["player_1"%string]
  /\ map pos (take (length (entities level)) world) = map pos (entities level)
  /\ length world = S (length (entities level)).
Proof.
  cbv zeta. unfold setupLevel, alloc.
  match goal with
  | |- context [instantiateAll ?h (entities level)] =>
      pose proof (instantiateAll_sizes h (entities level)) as (H1 & H2 & H3);
      destruct (instantiateAll h (entities level)) as [h3 es]
  end.
  cbn [entitiesRef snd] in *.
  assert (Hlen : length es = length (entities level)).
  { pose proof (f_equal length H1) as Hl.
    rewrite !length_map in Hl. exact Hl. }
  rewrite !map_app, H1, H2. cbn [map player_entity size id].
  split; [reflexivity|]. split; [reflexivity|].
  split.
  - rewrite <- Hlen, take_app_length. assumption.
  - rewrite length_app, Hlen. cbn. lia.
Qed.

(** C9, as stated, fails: a blueprint with a wall of size 0 x 0 is set up
    without an error, and the frame loop runs over it. *)
Lemma zero_size_blueprint_is_loaded_and_run :
  map size (entities Scenario.malformed_level) = [Scenario.vec 0 0]
  /\ map size (entitiesRef Scenario.malformed_world)
     = [Scenario.vec 0 0; PLAYER_SIZE]
  /\ snd (gameLoop Host.math (Scenario.playing Scenario.malformed_level)
            Scenario.noKeys 16 Scenario.malformed_world) = Committed.
Proof. repeat split; vm_compute; reflexivity. Qed.

(** ** The blueprint *)

(** C2 fails on the code.  In an editor test of a level with one enemy,
    dropped at (88, 400): the first frame moves the position object of the
    blueprint entity itself, to (93, 402.5); in the second frame the player
    walks into the enemy and dies, and the World State set up by the reset
    has the enemy at (98, 407.5), where the blueprint object then is, not
    at (88, 400).  The start position is not touched and the player is
    back on it. *)
Theorem blueprint_position_is_overwritten :
  let template := Scenario.dropped_enemy 1%nat 2%nat in
  let frame1 := Scenario.editor_frame1 in
  let frame2 := Scenario.editor_frame2 in
  entities Scenario.editor_level = [template]
  /\ deref Scenario.editor_heap (pos template) = Scenario.vec 88 400
  /\ snd frame1 = Committed
  /\ x (deref (heap (fst frame1)) (pos template)) == 93
  /\ y (deref (heap (fst frame1)) (pos template)) == 402.5
  /\ snd frame2 = ResetOutcome
  /\ map pos (entitiesRef (fst frame2)) = [pos template; 6%nat]
  /\ x (deref (heap (fst frame2)) (pos template)) == 98
  /\ y (deref (heap (fst frame2)) (pos template)) == 407.5
  /\ deref (heap (fst frame2)) (startPos Scenario.editor_level)
     = Scenario.vec 50 400
  /\ deref (heap (fst frame2)) 6%nat = Scenario.vec 50 400.
Proof. cbv zeta. repeat split; vm_compute; reflexivity. Qed.

(** ** Order of the updates within a frame *)

(** C1, as stated, fails.  Two crates glide towards each other, a from
    x = 100 to the right and b from x = 111 to the left, 1 unit each in a
    frame of 10 ms.  When b is resolved, the position read for a is the
    one a was moved to in this frame, (101, 100): b is stopped at 111 with
    its velocity set to 0, although its tentative rectangle at x = 110
    does not collide with the rectangle of a at the start of the frame. *)
Lemma later_entity_sees_earlier_update :
  let E := Scenario.crates in
  let frame := gameLoop Host.math (Scenario.playing Scenario.crates_level)
                 Scenario.noKeys 10 E in
  map id (entitiesRef E) = ["a"; "b"; "player_1"]%string
  /\ observedPos (startFrame E) 0 = Some (Scenario.vec 100 100)
  /\ match frameBefore Host.math Scenario.noKeys 10 E 1 with
     | Go fr =>
         match observedPos fr 0 with
         | Some p => x p == 101 /\ y p == 100
         | None => False
         end
     | Stop _ _ => False
     end
  /\ snd frame = Committed
  /\ x (deref (heap (fst frame)) 3%nat) == 111
  /\ x (deref (heap (fst frame)) 4%nat) == 0
  /\ checkCollision
       {| r_pos := Scenario.vec 110 100; r_size := Scenario.vec 10 10 |}
       {| r_pos := Scenario.vec 100 100; r_size := Scenario.vec 10 10 |}
     = false.
Proof.
  cbv zeta.
  split; [vm_compute; reflexivity|]. split; [vm_compute; reflexivity|].
  split; [vm_compute; split; reflexivity|].
  repeat split; vm_compute; reflexivity.
Qed.

(** ** What the resolution of one entity writes *)

Section Footprint.

Variables p v : ref.

Lemma sameBut_refl (h : Heap) : sameBut p v h h.
Proof. split; reflexivity. Qed.

Lemma sameBut_trans (h1 h2 h3 : Heap) :
  sameBut p v h1 h2 -> sameBut p v h2 h3 -> sameBut p v h1 h3.
Proof.
  intros [Hn1 H1] [Hn2 H2]. split; [congruence|].
  intros r Hp Hv. rewrite H2, H1; auto.
Qed.

Lemma sameBut_setX (h h' : Heap) (r : ref) (a : Q) :
  sameBut p v h h' -> r = p \/ r = v -> sameBut p v h (setX h' r a).
Proof.
  intros [Hn H] Hr. split; [rewrite next_setX; assumption|].
  intros r' Hp Hv. rewrite deref_setX_other; [auto|].
  destruct Hr; congruence.
Qed.

Lemma sameBut_setY (h h' : Heap) (r : ref) (a : Q) :
  sameBut p v h h' -> r = p \/ r = v -> sameBut p v h (setY h' r a).
Proof.
  intros [Hn H] Hr. split; [rewrite next_setY; assumption|].
  intros r' Hp Hv. rewrite deref_setY_other; [auto|].
  destruct Hr; congruence.
Qed.

Lemma hitWall_refs (ent other : GameEntity) :
  pos (hitWall ent other) = pos ent
  /\ velocity (hitWall ent other) = velocity ent.
Proof. unfold hitWall. destruct (_ && _); split; reflexivity. Qed.

Lemma sweepX_step_ok (h : Heap) (entRect : Rect) (m : Mover)
    (other : GameEntity) :
  moverOK p v h m -> after (moverOK p v h) (sweepX_step entRect m other).
Proof.
  intros (Hp & Hv & Hs). unfold sweepX_step.
  destruct (hitWall_refs (m_ent m) other) as [Hwp Hwv].
  destruct (skipped _ _); [split; [|split]; assumption|].
  destruct (checkCollision _ _); [|split; [|split]; assumption].
  destruct (lethal _ _); [split; [|split]; assumption|].
  destruct (isSolid other); cbn [after];
    (split; [cbn; congruence|]; split; [cbn; congruence|]); cbn [m_heap];
    [|assumption].
  rewrite Hwv, Hv.
  destruct (Behavior_is _ _); apply sameBut_setX; auto.
Qed.

Lemma sweepY_step_ok (h : Heap) (entRect : Rect) (m : Mover)
    (other : GameEntity) :
  moverOK p v h m -> after (moverOK p v h) (sweepY_step entRect m other).
Proof.
  intros (Hp & Hv & Hs). unfold sweepY_step.
  destruct (hitWall_refs (m_ent m) other) as [Hwp Hwv].
  destruct (skipped _ _); [split; [|split]; assumption|].
  destruct (checkCollision _ _); [|split; [|split]; assumption].
  destruct (lethal _ _); [split; [|split]; assumption|].
  destruct (isSolid other);
    [|split; [cbn; congruence|]; split; [cbn; congruence | assumption]].
  rewrite Hwv, Hv.
  destruct (Num.gtb _ _); [|destruct (Num.ltb _ _)]; cbn [after];
    (split; [cbn; congruence|]; split; [cbn; congruence|]); cbn [m_heap];
    try assumption; apply sameBut_setY; auto.
Qed.

Lemma sweep_ok (step : Mover -> GameEntity -> Flow Mover) (h : Heap) :
  (forall m other, moverOK p v h m -> after (moverOK p v h) (step m other)) ->
  forall others m,
    moverOK p v h m -> after (moverOK p v h) (sweep step others m).
Proof.
  intros Hstep others. induction others as [|other rest IH]; intros m Hm;
    [exact Hm|].
  cbn [sweep]. specialize (Hstep m other Hm).
  destruct (step m other) as [m' | sig m']; cbn [after] in *; auto.
Qed.

Lemma moveX_ok (deltaTime : Q) (fr : Frame) (ent : GameEntity) :
  pos ent = p -> velocity ent = v ->
  after (moverOK p v (f_heap fr)) (moveX deltaTime fr ent).
Proof.
  intros Hp Hv. unfold moveX.
  match goal with
  | |- context [if ?c then with_isVisible ent false else ent] =>
      set (ent1 := if c then with_isVisible ent false else ent)
  end.
  assert (Hent1 : pos ent1 = p /\ velocity ent1 = v).
  { subst ent1. destruct (_ && _); split; assumption. }
  destruct Hent1 as [Hp1 Hv1].
  destruct (Num.ltb _ 0);
    match goal with |- context [Num.gtb ?a ?b] => destruct (Num.gtb a b) end;
    apply sweep_ok; try (intros; apply sweepX_step_ok; assumption);
    (split; [assumption|]; split; [assumption|]); cbn [m_heap];
    rewrite ?Hv;
    repeat (apply sameBut_setX; [|auto]); apply sameBut_refl.
Qed.

Lemma moveY_ok (deltaTime : Q) (fr : Frame) (ent : GameEntity) :
  pos ent = p -> velocity ent = v ->
  after (moverOK p v (f_heap fr)) (moveY deltaTime fr ent).
Proof.
  intros Hp Hv. unfold moveY.
  apply sweep_ok; [intros; apply sweepY_step_ok; assumption|].
  split; [assumption|]. split; [assumption|]. apply sameBut_refl.
Qed.

Lemma playerControl_ok (phys : GlobalPhysics) (deltaTime time : Q)
    (keys : Keys) (ent : GameEntity) (fr : Frame) :
  velocity ent = v ->
  let fr' := playerControl phys deltaTime time keys ent fr in
  sameBut p v (f_heap fr) (f_heap fr')
  /\ currentEntities fr' = currentEntities fr
  /\ newProjectiles fr' = newProjectiles fr.
Proof.
  intros Hv. cbv zeta. unfold playerControl. rewrite Hv.
  assert (H2 : sameBut p v (f_heap fr)
    (if heldLeft keys
     then setX (if heldRight keys
                then setX (f_heap fr) v
                       (x (deref (f_heap fr) v) + MOVE_ACCEL * deltaTime)
                else f_heap fr) v
            (x (deref (if heldRight keys
                       then setX (f_heap fr) v
                              (x (deref (f_heap fr) v) + MOVE_ACCEL * deltaTime)
                       else f_heap fr) v) - MOVE_ACCEL * deltaTime)
     else if heldRight keys
          then setX (f_heap fr) v
                 (x (deref (f_heap fr) v) + MOVE_ACCEL * deltaTime)
          else f_heap fr)).
  { destruct (heldLeft keys), (heldRight keys);
      repeat (apply sameBut_setX; [|auto]); apply sameBut_refl. }
  revert H2. generalize (if heldLeft keys
     then setX (if heldRight keys
                then setX (f_heap fr) v
                       (x (deref (f_heap fr) v) + MOVE_ACCEL * deltaTime)
                else f_heap fr) v
            (x (deref (if heldRight keys
                       then setX (f_heap fr) v
                              (x (deref (f_heap fr) v) + MOVE_ACCEL * deltaTime)
                       else f_heap fr) v) - MOVE_ACCEL * deltaTime)
     else if heldRight keys
          then setX (f_heap fr) v
                 (x (deref (f_heap fr) v) + MOVE_ACCEL * deltaTime)
          else f_heap fr).
  intros h2 H2.
  destruct (heldRight keys || heldLeft keys).
  - match goal with
    | |- context [if ?c then step_sound _ _ else _] => destruct c
    end; cbn; (split; [apply sameBut_setX; auto | split; reflexivity]).
  - destruct (f_targetX fr) as [targetX|].
    + destruct (Num.ltb _ 5).
      * cbn. split; [apply sameBut_setX; auto | split; reflexivity].
      * match goal with
        | |- context [if ?c then step_sound _ _ else _] => destruct c
        end; cbn; (split; [apply sameBut_setX; auto | split; reflexivity]).
    + cbn. split; [apply sameBut_setX; auto | split; reflexivity].
Qed.

Lemma finishEntity_ok (keys : Keys) (i : nat) (fr : Frame)
    (ent : GameEntity) (grounded : bool) :
  pos ent = p -> velocity ent = v ->
  resolvedBy p v i fr (finishEntity keys i fr ent grounded).
Proof.
  intros Hp Hv. unfold finishEntity, resolvedBy.
  destruct (Num.gtb _ _ && is_player ent).
  { split; [split; [apply sameBut_refl | reflexivity] | discriminate]. }
  match goal with
  | |- context [if ?c then with_isVisible ent false else ent] =>
      set (ent1 := if c then with_isVisible ent false else ent)
  end.
  assert (Hent1 : pos ent1 = p /\ velocity ent1 = v).
  { subst ent1. destruct (_ && _); split; assumption. }
  destruct Hent1 as [Hp1 Hv1].
  match goal with
  | |- context [if ?c then setHeap (play fr sfxJump) ?h else fr] =>
      set (fr1 := if c then setHeap (play fr sfxJump) h else fr)
  end.
  assert (Hfr1 : sameBut p v (f_heap fr) (f_heap fr1)
                 /\ newProjectiles fr1 = newProjectiles fr
                 /\ currentEntities fr1 = currentEntities fr).
  { subst fr1. destruct (_ && _ && _); cbn;
      (split; [|split; reflexivity]);
      [apply sameBut_setY; [apply sameBut_refl | auto] | apply sameBut_refl]. }
  destruct Hfr1 as (Hs & Hn & Hc).
  match goal with
  | |- context [if ?c then Stop ReachedExit _ else _] => destruct c
  end.
  - split; [split; assumption | discriminate].
  - split; [split; assumption|].
    intros fr' [= <-]. exists ent1. cbn. rewrite Hc. auto.
Qed.

Lemma resolveEntity_ok (phys : GlobalPhysics) (deltaTime time : Q)
    (keys : Keys) (i : nat) (fr : Frame) (ent : GameEntity) :
  pos ent = p -> velocity ent = v ->
  resolvedBy p v i fr (resolveEntity phys deltaTime time keys i fr ent).
Proof.
  intros Hp Hv. unfold resolveEntity.
  destruct (isStatic ent).
  { split; [split; [apply sameBut_refl | reflexivity]|].
    intros fr' [= <-]. exists ent. auto. }
  set (fr3 := setHeap fr (applyGravity phys deltaTime (f_heap fr) ent)).
  set (fr4 := if is_player ent
              then playerControl phys deltaTime time keys ent fr3
              else fr3).
  assert (H4 : sameBut p v (f_heap fr) (f_heap fr4)
               /\ currentEntities fr4 = currentEntities fr
               /\ newProjectiles fr4 = newProjectiles fr).
  { assert (H3 : sameBut p v (f_heap fr) (f_heap fr3)).
    { subst fr3. cbn. unfold applyGravity.
      apply sameBut_setY; [apply sameBut_refl | auto]. }
    subst fr4.
    destruct (is_player ent); [|split; [assumption | split; reflexivity]].
    destruct (playerControl_ok phys deltaTime time keys ent fr3 Hv)
      as (Hs & Hc & Hn).
    split; [eapply sameBut_trans; eassumption|].
    split; [rewrite Hc | rewrite Hn]; reflexivity. }
  destruct H4 as (Hs4 & Hc4 & Hn4).
  pose proof (moveX_ok deltaTime fr4 ent Hp Hv) as Hmx.
  destruct (moveX deltaTime fr4 ent) as [mx | sig mx]; cbn [after] in Hmx;
    destruct Hmx as (Hpx & Hvx & Hsx).
  2:{ split; [|discriminate]. cbn.
      split; [eapply sameBut_trans; eassumption | assumption]. }
  set (fr5 := setHeap (frameOf fr4 mx)
                (setX (m_heap mx) (pos (m_ent mx)) (m_next mx))).
  assert (Hs5 : sameBut p v (f_heap fr) (f_heap fr5)).
  { subst fr5. cbn. eapply sameBut_trans; [exact Hs4|].
    apply sameBut_setX; auto. }
  pose proof (moveY_ok deltaTime fr5 (m_ent mx) Hpx Hvx) as Hmy.
  destruct (moveY deltaTime fr5 (m_ent mx)) as [my | sig my];
    cbn [after] in Hmy; destruct Hmy as (Hpy & Hvy & Hsy).
  2:{ split; [|discriminate]. cbn.
      split; [eapply sameBut_trans; eassumption | assumption]. }
  set (fr6 := setHeap (frameOf fr5 my)
                (setY (m_heap my) (pos (m_ent my)) (m_next my))).
  assert (Hs6 : sameBut p v (f_heap fr) (f_heap fr6)).
  { subst fr6. cbn. eapply sameBut_trans; [exact Hs5|].
    apply sameBut_setY; auto. }
  destruct (finishEntity_ok keys i fr6 (m_ent my) (m_grounded my) Hpy Hvy)
    as [Hafter Hgo].
  split.
  - destruct (finishEntity keys i fr6 (m_ent my) (m_grounded my));
      cbn [after] in *; destruct Hafter as [Hs Hn];
      (split; [eapply sameBut_trans; eassumption|]);
      rewrite Hn; subst fr6; cbn; assumption.
  - intros fr' Hfr'. destruct (Hgo fr' Hfr') as (ent' & Hc & Hp' & Hv').
    exists ent'. split; [|auto]. rewrite Hc. subst fr6. cbn. rewrite Hc4.
    reflexivity.
Qed.

End Footprint.

(** ** What the behaviours and the body do to the objects *)

Lemma patrolBehavior_cases (M : MathLib) (h : Heap) (ent : GameEntity) :
  patrolBehavior M h ent = (h, ent)
  \/ exists vel,
       patrolBehavior M h ent = (fst (alloc h vel), with_velocity ent (next h)).
Proof.
  unfold patrolBehavior, assign_velocity, alloc.
  destruct (patrolStart ent), (patrolEnd ent); auto.
  destruct (_ && _); auto.
  destruct (Num.gtb _ 0); auto.
  destruct (_ && _); [right; eexists; reflexivity|].
  destruct (_ && _); [right; eexists; reflexivity|].
  destruct (_ && _); [right; eexists; reflexivity | auto].
Qed.

Lemma behaviours_effect (M : MathLib) (time : Q) (fr : Frame)
    (ent : GameEntity) :
  (pos ent < next (f_heap fr))%nat ->
  (velocity ent < next (f_heap fr))%nat ->
  let fr2 := fst (behaviours M time fr ent) in
  let ent2 := snd (behaviours M time fr ent) in
  let h1 := fst (patrolBehavior M (f_heap fr) ent) in
  let turret := snd (patrolBehavior M (f_heap fr) ent) in
  currentEntities fr2 = currentEntities fr
  /\ (next (f_heap fr) <= next (f_heap fr2))%nat
  /\ (forall r, (r < next (f_heap fr))%nat ->
                deref (f_heap fr2) r = deref (f_heap fr) r)
  /\ pos ent2 = pos ent
  /\ (velocity ent2 = velocity ent \/ (next (f_heap fr) <= velocity ent2)%nat)
  /\ (velocity ent2 < next (f_heap fr2))%nat
  /\ (newProjectiles fr2 = newProjectiles fr
      \/ exists fireVelocity spawnPos,
           turretAim M h1 turret (List.find is_player (currentEntities fr))
             = Some (fireVelocity, spawnPos)
           /\ newProjectiles fr2
              = newProjectiles fr
                ++ [projectile_entity M turret time (next h1) (S (next h1))]
           /\ deref (f_heap fr2) (next h1) = spawnPos
           /\ deref (f_heap fr2) (S (next h1)) = fireVelocity
           /\ (next (f_heap fr) <= next h1)%nat
           /\ (S (next h1) < next (f_heap fr2))%nat
           /\ next h1 <> velocity ent2
           /\ S (next h1) <> velocity ent2).
Proof.
  intros Hp Hv. cbv zeta. unfold behaviours.
  destruct (patrolBehavior_cases M (f_heap fr) ent) as [-> | [vel ->]];
    cbn [fst snd];
    match goal with
    | |- context [turretBehavior M time ?f ?e] =>
        destruct (turretBehavior_cases M time f e)
          as [[_ ->] | [_ (rate & fv & sp & _ & _ & _ & Haim & _ & Hent & Hfr)]]
    end.
  - cbn. repeat split; auto.
  - rewrite Hent, Hfr. cbn [fst snd f_heap currentEntities newProjectiles
                             setHeap pos velocity with_lastFireTime].
    unfold alloc, deref. cbn [fst snd cell next].
    rewrite !Nat.eqb_refl.
    split; [reflexivity|]. split; [lia|].
    split.
    { intros r Hr. destruct (Nat.eqb_spec r (S (next (f_heap fr)))); [lia|].
      destruct (Nat.eqb_spec r (next (f_heap fr))); [lia | reflexivity]. }
    split; [reflexivity|]. split; [left; reflexivity|]. split; [lia|].
    right. exists fv, sp. cbn in Haim.
    split; [exact Haim|]. split; [reflexivity|].
    destruct (Nat.eqb_spec (next (f_heap fr)) (S (next (f_heap fr)))); [lia|].
    repeat split; lia.
  - cbn. unfold alloc, deref. cbn [fst snd cell next].
    split; [reflexivity|]. split; [lia|].
    split.
    { intros r Hr. destruct (Nat.eqb_spec r (next (f_heap fr)));
        [lia | reflexivity]. }
    split; [reflexivity|]. split; [right; lia|]. split; [lia|].
    left. reflexivity.
  - rewrite Hent, Hfr. cbn [fst snd f_heap currentEntities newProjectiles
                             setHeap pos velocity with_lastFireTime
                             with_velocity].
    unfold alloc, deref. cbn [fst snd cell next].
    rewrite !Nat.eqb_refl.
    split; [reflexivity|]. split; [lia|].
    split.
    { intros r Hr.
      destruct (Nat.eqb_spec r (S (S (next (f_heap fr))))); [lia|].
      destruct (Nat.eqb_spec r (S (next (f_heap fr)))); [lia|].
      destruct (Nat.eqb_spec r (next (f_heap fr))); [lia | reflexivity]. }
    split; [reflexivity|]. split; [right; lia|]. split; [lia|].
    right. exists fv, sp. cbn in Haim.
    split; [exact Haim|]. split; [reflexivity|].
    destruct (Nat.eqb_spec (S (next (f_heap fr))) (S (S (next (f_heap fr)))));
      [lia|].
    repeat split; lia.
Qed.

(** The body, run for an entity whose objects exist: it allocates, and
    writes no object that existed but the position and the velocity of the
    entity; falling through, it has put at [i] a record with the same
    position object, and has pushed at most one projectile, whose objects
    are new and hold the spawn position and the velocity of the aim. *)
Lemma processEntity_footprint (M : MathLib) (phys : GlobalPhysics)
    (deltaTime time : Q) (keys : Keys) (fr : Frame) (i : nat)
    (ent : GameEntity) :
  currentEntities fr !! i = Some ent ->
  (pos ent < next (f_heap fr))%nat ->
  (velocity ent < next (f_heap fr))%nat ->
  let h1 := fst (patrolBehavior M (f_heap fr) ent) in
  let turret := snd (patrolBehavior M (f_heap fr) ent) in
  after (fun fr' =>
           (next (f_heap fr) <= next (f_heap fr'))%nat
           /\ forall r, (r < next (f_heap fr))%nat ->
                        r <> pos ent -> r <> velocity ent ->
                        deref (f_heap fr') r = deref (f_heap fr) r)
        (processEntity M phys deltaTime time keys fr i)
  /\ forall fr',
       processEntity M phys deltaTime time keys fr i = Go fr' ->
       (exists ent', currentEntities fr' = <[i := ent']> (currentEntities fr)
                     /\ pos ent' = pos ent)
       /\ (newProjectiles fr' = newProjectiles fr
           \/ exists fireVelocity spawnPos,
                turretAim M h1 turret
                  (List.find is_player (currentEntities fr))
                  = Some (fireVelocity, spawnPos)
                /\ newProjectiles fr'
                   = newProjectiles fr
                     ++ [projectile_entity M turret time (next h1)
                           (S (next h1))]
                /\ deref (f_heap fr') (next h1) = spawnPos
                /\ deref (f_heap fr') (S (next h1)) = fireVelocity
                /\ (next (f_heap fr) <= next h1)%nat
                /\ (S (next h1) < next (f_heap fr'))%nat).
Proof.
  intros Hi Hp Hv. cbv zeta. unfold processEntity. rewrite Hi.
  pose proof (behaviours_effect M time fr ent Hp Hv) as Hb.
  cbv zeta in Hb.
  destruct (behaviours M time fr ent) as [fr2 ent2]. cbn [fst snd] in Hb.
  destruct Hb as (Hc2 & Hn2 & Hold & Hp2 & Hv2 & Hv2' & Hspawn).
  destruct (resolveEntity_ok (pos ent2) (velocity ent2) phys deltaTime time
              keys i fr2 ent2 eq_refl eq_refl) as [Hafter Hgo].
  assert (Hcells : forall fr',
            sameBut (pos ent2) (velocity ent2) (f_heap fr2) (f_heap fr') ->
            (next (f_heap fr) <= next (f_heap fr'))%nat
            /\ forall r, (r < next (f_heap fr))%nat ->
                         r <> pos ent -> r <> velocity ent ->
                         deref (f_heap fr') r = deref (f_heap fr) r).
  { intros fr' [Hn Hs]. split; [lia|].
    intros r Hr Hrp Hrv. rewrite Hs; [auto | congruence |].
    destruct Hv2 as [-> | Hfresh]; [assumption | lia]. }
  split.
  - destruct (resolveEntity _ _ _ _ _ _ _); cbn [after] in *;
      apply Hcells; apply Hafter.
  - intros fr' Hfr'. rewrite Hfr' in Hafter. cbn [after] in Hafter.
    destruct Hafter as [[Hn Hs] Hnp].
    destruct (Hgo fr' Hfr') as (ent' & Hc & Hp' & _).
    split; [exists ent'; split; congruence|].
    destruct Hspawn as [Hsame | (fv & sp & Haim & Hnew & Hsp & Hfv & Hlo
                                 & Hhi & Hne1 & Hne2)];
      [left; congruence|].
    right. exists fv, sp.
    split; [assumption|]. split; [congruence|].
    split; [rewrite Hs; [assumption | lia | assumption]|].
    split; [rewrite Hs; [assumption | lia | assumption]|].
    split; [assumption | lia].
Qed.

(** ** The loop of a frame *)

Lemma runLoop_app (body : Frame -> nat -> Flow Frame) (ks1 ks2 : list nat)
    (fr : Frame) :
  runLoop body (ks1 ++ ks2) fr =
  match runLoop body ks1 fr with
  | Go fr' => runLoop body ks2 fr'
  | Stop sig fr' => Stop sig fr'
  end.
Proof.
  revert fr. induction ks1 as [|k ks1 IH]; intros fr; [reflexivity|].
  cbn. destruct (body fr k); [apply IH | reflexivity].
Qed.

Lemma refs_lookup (es : list GameEntity) (j : nat) (o : GameEntity) :
  es !! j = Some o -> pos o ∈ refsOf es /\ velocity o ∈ refsOf es.
Proof.
  revert j. induction es as [|e es IH]; intros j Hj; [discriminate|].
  change (refsOf (e :: es)) with (pos e :: velocity e :: refsOf es).
  rewrite !elem_of_cons. destruct j as [|j]; cbn in Hj.
  - injection Hj as ->. auto.
  - destruct (IH j Hj). auto.
Qed.

Lemma refs_distinct (es : list GameEntity) (j k : nat) (a b : GameEntity) :
  NoDup (refsOf es) -> j <> k ->
  es !! j = Some a -> es !! k = Some b ->
  pos a <> pos b /\ pos a <> velocity b
  /\ velocity a <> pos b /\ velocity a <> velocity b.
Proof.
  revert j k. induction es as [|e es IH]; intros j k Hnd Hjk Hj Hk;
    [discriminate|].
  cbn [refsOf flat_map app] in Hnd.
  apply NoDup_cons in Hnd as [Hpe Hnd]. apply NoDup_cons in Hnd as [Hve Hnd].
  rewrite elem_of_cons in Hpe.
  destruct j as [|j], k as [|k]; cbn in Hj, Hk; [congruence | | |].
  - injection Hj as <-. destruct (refs_lookup es k b Hk) as [Hpb Hvb].
    repeat split; intros Heq; rewrite Heq in *; tauto.
  - injection Hk as <-. destruct (refs_lookup es j a Hj) as [Hpa Hva].
    repeat split; intros Heq; rewrite <- Heq in *; tauto.
  - apply (IH j k); auto.
Qed.

Section Loop.

Variables (M : MathLib) (keys : Keys) (time : Q) (E : Engine).

Let body : Frame -> nat -> Flow Frame :=
  processEntity M (physicsRef E)
    (deltaTimeOf (time - lastTimeRef E) (timeScale (physicsRef E))) time keys.

Lemma frameBefore_S (k : nat) :
  frameBefore M keys time E (S k) =
  match frameBefore M keys time E k with
  | Go fr => body fr k
  | Stop sig fr => Stop sig fr
  end.
Proof.
  unfold frameBefore. rewrite seq_S, runLoop_app. cbn [Nat.add].
  destruct (runLoop _ (seq 0 k) _) as [fr | sig fr]; [|reflexivity].
  cbn [runLoop]. fold body. destruct (body fr k); reflexivity.
Qed.

Lemma frameBefore_pred (k : nat) (fr' : Frame) :
  frameBefore M keys time E (S k) = Go fr' ->
  exists fr, frameBefore M keys time E k = Go fr /\ body fr k = Go fr'.
Proof.
  rewrite frameBefore_S.
  destruct (frameBefore M keys time E k) as [fr | sig fr]; [|discriminate].
  intros H. exists fr. auto.
Qed.

Lemma frameLoop_frameBefore :
  frameLoop M keys time E = frameBefore M keys time E (length (entitiesRef E)).
Proof. reflexivity. Qed.

Hypothesis Hvalid :
  Forall (fun r => (r < next (heap E))%nat) (refsOf (entitiesRef E)).

Lemma valid_lookup (j : nat) (o : GameEntity) :
  entitiesRef E !! j = Some o ->
  (pos o < next (heap E))%nat /\ (velocity o < next (heap E))%nat.
Proof.
  intros Hj. destruct (refs_lookup _ _ _ Hj) as [Hp Hv].
  rewrite Forall_forall in Hvalid. split; apply Hvalid; assumption.
Qed.

Lemma loopInv_step (k : nat) (fr fr' : Frame) :
  loopInv (heap E) (entitiesRef E) k fr ->
  body fr k = Go fr' ->
  loopInv (heap E) (entitiesRef E) (S k) fr'.
Proof.
  intros (Hlen & Hnext & Hrest & Hpos & Hcells) Hbody.
  destruct (currentEntities fr !! k) as [ent|] eqn:Hk.
  - assert (Hk0 : entitiesRef E !! k = Some ent)
      by (rewrite <- Hrest; [assumption | lia]).
    destruct (valid_lookup k ent Hk0) as [Hp Hv].
    destruct (processEntity_footprint M (physicsRef E)
                (deltaTimeOf (time - lastTimeRef E) (timeScale (physicsRef E)))
                time keys fr k ent Hk ltac:(lia) ltac:(lia)) as [Hafter Hgo].
    fold body in Hafter, Hgo. rewrite Hbody in Hafter. cbn [after] in Hafter.
    destruct Hafter as [Hn' Hc'].
    destruct (Hgo fr' Hbody) as [(ent' & Hcur & Hp') _].
    split; [rewrite Hcur, length_insert; assumption|].
    split; [lia|].
    split.
    { intros j Hj. rewrite Hcur, list_lookup_insert_ne by lia.
      apply Hrest. lia. }
    split.
    { intros j o. rewrite Hcur. intros Hj.
      apply list_lookup_insert_Some in Hj as [(<- & <- & _) | [Hne Hj]].
      - exists ent. split; [assumption | congruence].
      - apply Hpos. assumption. }
    intros r Hr Hfree.
    destruct (Hfree k ent ltac:(lia) Hk0) as [Hrp Hrv].
    rewrite Hc'; [|lia | assumption | assumption].
    apply Hcells; [assumption|].
    intros j o0 Hj. apply Hfree. lia.
  - unfold body, processEntity in Hbody. rewrite Hk in Hbody.
    injection Hbody as <-.
    split; [assumption|]. split; [assumption|].
    split; [intros j Hj; apply Hrest; lia|].
    split; [assumption|].
    intros r Hr Hfree. apply Hcells; [assumption|].
    intros j o0 Hj. apply Hfree. lia.
Qed.

Lemma loopInv_holds (k : nat) (fr : Frame) :
  frameBefore M keys time E k = Go fr ->
  loopInv (heap E) (entitiesRef E) k fr.
Proof.
  revert fr. induction k as [|k IH]; intros fr Hfr.
  - injection Hfr as <-. unfold loopInv. cbn.
    split; [reflexivity|]. split; [lia|]. split; [reflexivity|].
    split; [intros j o Hj; exists o; auto|]. reflexivity.
  - apply frameBefore_pred in Hfr as (fr0 & Hfr0 & Hbody).
    eapply loopInv_step; [apply IH|]; eassumption.
Qed.

(** The bodies that run after index [i] leave the entries before [i], and
    their position objects, as they are. *)
Lemma later_bodies_keep (i : nat) (fr : Frame) :
  NoDup (refsOf (entitiesRef E)) ->
  frameBefore M keys time E i = Go fr ->
  forall d fr',
    frameBefore M keys time E (i + d) = Go fr' ->
    forall j, (j < i)%nat ->
      currentEntities fr' !! j = currentEntities fr !! j
      /\ forall o, currentEntities fr !! j = Some o ->
                   deref (f_heap fr') (pos o) = deref (f_heap fr) (pos o).
Proof.
  intros Hnd Hfr. induction d as [|d IH]; intros fr' Hfr' j Hj.
  - rewrite Nat.add_0_r, Hfr in Hfr'. injection Hfr' as <-. auto.
  - rewrite Nat.add_succ_r in Hfr'.
    apply frameBefore_pred in Hfr' as (frk & Hfrk & Hbody).
    destruct (IH frk Hfrk j Hj) as [IHe IHc].
    pose proof (loopInv_holds _ _ Hfrk) as (Hlen & Hnext & Hrest & Hpos & _).
    pose proof (loopInv_holds _ _ Hfr) as (_ & _ & _ & Hpos_i & _).
    destruct (currentEntities frk !! (i + d)%nat) as [ent|] eqn:Hk.
    + assert (Hk0 : entitiesRef E !! (i + d)%nat = Some ent)
        by (rewrite <- Hrest; [assumption | lia]).
      destruct (valid_lookup _ ent Hk0) as [Hp Hv].
      destruct (processEntity_footprint M (physicsRef E)
                  (deltaTimeOf (time - lastTimeRef E)
                     (timeScale (physicsRef E)))
                  time keys frk (i + d) ent Hk ltac:(lia) ltac:(lia))
        as [Hafter Hgo].
      fold body in Hafter, Hgo. rewrite Hbody in Hafter.
      cbn [after] in Hafter. destruct Hafter as [_ Hc'].
      destruct (Hgo fr' Hbody) as [(ent' & Hcur & _) _].
      split.
      * rewrite Hcur, list_lookup_insert_ne by lia. assumption.
      * intros o Ho. rewrite <- (IHc o Ho).
        destruct (Hpos_i j o Ho) as (o0 & Ho0 & Hpo).
        destruct (valid_lookup j o0 Ho0) as [Hp0 _].
        destruct (refs_distinct (entitiesRef E) j (i + d) o0 ent Hnd
                    ltac:(lia) Ho0 Hk0) as (Hd1 & Hd2 & _).
        apply Hc'; [lia | congruence | congruence].
    + unfold body, processEntity in Hbody. rewrite Hk in Hbody.
      injection Hbody as <-. auto.
Qed.

(** The new projectiles of a frame are as they were spawned. *)
Lemma pending_untouched (k : nat) (fr : Frame) :
  frameBefore M keys time E k = Go fr ->
  Forall (fun pr =>
            spawnedIn M keys time E (f_heap fr) pr
            /\ (next (heap E) <= pos pr < next (f_heap fr))%nat
            /\ (next (heap E) <= velocity pr < next (f_heap fr))%nat)
         (newProjectiles fr).
Proof.
  revert fr. induction k as [|k IH]; intros fr Hfr.
  - injection Hfr as <-. constructor.
  - apply frameBefore_pred in Hfr as (fr0 & Hfr0 & Hbody).
    specialize (IH fr0 Hfr0).
    pose proof (loopInv_holds _ _ Hfr0) as (Hlen & Hnext & Hrest & _).
    destruct (currentEntities fr0 !! k) as [ent|] eqn:Hk.
    + assert (Hk0 : entitiesRef E !! k = Some ent)
        by (rewrite <- Hrest; [assumption | lia]).
      destruct (valid_lookup k ent Hk0) as [Hp Hv].
      destruct (processEntity_footprint M (physicsRef E)
                  (deltaTimeOf (time - lastTimeRef E)
                     (timeScale (physicsRef E)))
                  time keys fr0 k ent Hk ltac:(lia) ltac:(lia))
        as [Hafter Hgo].
      fold body in Hafter, Hgo. rewrite Hbody in Hafter.
      cbn [after] in Hafter. destruct Hafter as [Hn' Hc'].
      destruct (Hgo fr Hbody) as [_ Hspawn].
      assert (Hold : Forall (fun pr =>
                spawnedIn M keys time E (f_heap fr) pr
                /\ (next (heap E) <= pos pr < next (f_heap fr))%nat
                /\ (next (heap E) <= velocity pr < next (f_heap fr))%nat)
                (newProjectiles fr0)).
      { eapply Forall_impl; [exact IH|]. cbn.
        intros pr (Hsp & Hpp & Hpv).
        split; [|split; lia].
        destruct Hsp as (i & fri & enti & Hfri & Hi & Hpr & Haim).
        exists i, fri, enti. split; [assumption|]. split; [assumption|].
        cbv zeta. split; [assumption|].
        rewrite !Hc' by lia. exact Haim. }
      destruct Hspawn as [-> | (fv & sp & Haim & -> & Hsp & Hfv & Hlo & Hhi)];
        [assumption|].
      apply Forall_app. split; [assumption|].
      constructor; [|constructor].
      cbn [projectile_entity pos velocity].
      split; [|split; lia].
      exists k, fr0, ent. split; [assumption|]. split; [assumption|].
      cbv zeta. split; [reflexivity|].
      cbn [projectile_entity pos velocity]. rewrite Hsp, Hfv. exact Haim.
    + unfold body, processEntity in Hbody. rewrite Hk in Hbody.
      injection Hbody as <-. assumption.
Qed.

End Loop.

(** ** The new projectiles are not read *)

Lemma turretBehavior_withPending (M : MathLib) (time : Q)
    (pending : list GameEntity) (fr : Frame) (ent : GameEntity) :
  turretBehavior M time (withPending pending fr) ent =
  (withPending pending (fst (turretBehavior M time fr ent)),
   snd (turretBehavior M time fr ent)).
Proof.
  unfold turretBehavior, alloc.
  cbn [withPending f_heap currentEntities newProjectiles f_targetX
       f_lastStepTime f_audio].
  destruct (fireRate ent) as [rate|]; [|reflexivity].
  destruct (_ && _); [|reflexivity].
  destruct (turretAim _ _ _ _) as [[fv sp]|]; [|reflexivity].
  destruct (rearmed _ _ _); [|reflexivity].
  cbn. unfold withPending. cbn. rewrite app_assoc. reflexivity.
Qed.

Lemma behaviours_withPending (M : MathLib) (time : Q)
    (pending : list GameEntity) (fr : Frame) (ent : GameEntity) :
  behaviours M time (withPending pending fr) ent =
  (withPending pending (fst (behaviours M time fr ent)),
   snd (behaviours M time fr ent)).
Proof.
  unfold behaviours. cbn [withPending f_heap].
  destruct (patrolBehavior M (f_heap fr) ent) as [h1 ent1].
  apply (turretBehavior_withPending M time pending (setHeap fr h1) ent1).
Qed.

Lemma playerControl_withPending (phys : GlobalPhysics) (deltaTime time : Q)
    (keys : Keys) (ent : GameEntity) (pending : list GameEntity)
    (fr : Frame) :
  playerControl phys deltaTime time keys ent (withPending pending fr) =
  withPending pending (playerControl phys deltaTime time keys ent fr).
Proof.
  unfold playerControl.
  cbn [withPending f_heap f_targetX f_lastStepTime].
  destruct (heldRight keys || heldLeft keys).
  - match goal with
    | |- context [if ?c then step_sound _ _ else _] => destruct c
    end; reflexivity.
  - destruct (f_targetX fr); [|reflexivity].
    destruct (Num.ltb _ 5); [reflexivity|].
    match goal with
    | |- context [if ?c then step_sound _ _ else _] => destruct c
    end; reflexivity.
Qed.

Lemma finishEntity_withPending (keys : Keys) (i : nat)
    (pending : list GameEntity) (fr : Frame) (ent : GameEntity)
    (grounded : bool) :
  finishEntity keys i (withPending pending fr) ent grounded =
  mapFlow (withPending pending) (finishEntity keys i fr ent grounded).
Proof.
  unfold finishEntity. cbn [withPending f_heap].
  destruct (_ && is_player ent); [reflexivity|].
  match goal with
  | |- context [if ?c then setHeap (play _ sfxJump) _ else _] => destruct c
  end;
    cbn [withPending setHeap play setCurrent f_heap currentEntities
         newProjectiles f_targetX f_lastStepTime f_audio];
    match goal with
    | |- context [if ?c then Stop ReachedExit _ else _] => destruct c
    end; reflexivity.
Qed.

Lemma resolveEntity_withPending (phys : GlobalPhysics) (deltaTime time : Q)
    (keys : Keys) (i : nat) (pending : list GameEntity) (fr : Frame)
    (ent : GameEntity) :
  resolveEntity phys deltaTime time keys i (withPending pending fr) ent =
  mapFlow (withPending pending)
    (resolveEntity phys deltaTime time keys i fr ent).
Proof.
  unfold resolveEntity.
  destruct (isStatic ent); [reflexivity|].
  change (setHeap (withPending pending fr)
            (applyGravity phys deltaTime (f_heap (withPending pending fr)) ent))
    with (withPending pending
            (setHeap fr (applyGravity phys deltaTime (f_heap fr) ent))).
  set (fr3 := setHeap fr (applyGravity phys deltaTime (f_heap fr) ent)).
  assert (H4 : (if is_player ent
                then playerControl phys deltaTime time keys ent
                       (withPending pending fr3)
                else withPending pending fr3)
               = withPending pending
                   (if is_player ent
                    then playerControl phys deltaTime time keys ent fr3
                    else fr3)).
  { destruct (is_player ent);
      [apply playerControl_withPending | reflexivity]. }
  rewrite H4.
  set (fr4 := if is_player ent
              then playerControl phys deltaTime time keys ent fr3
              else fr3).
  change (moveX deltaTime (withPending pending fr4) ent)
    with (moveX deltaTime fr4 ent).
  destruct (moveX deltaTime fr4 ent) as [mx | sig mx]; [|reflexivity].
  change (setHeap (frameOf (withPending pending fr4) mx)
            (setX (m_heap mx) (pos (m_ent mx)) (m_next mx)))
    with (withPending pending
            (setHeap (frameOf fr4 mx)
               (setX (m_heap mx) (pos (m_ent mx)) (m_next mx)))).
  set (fr5 := setHeap (frameOf fr4 mx)
                (setX (m_heap mx) (pos (m_ent mx)) (m_next mx))).
  change (moveY deltaTime (withPending pending fr5) (m_ent mx))
    with (moveY deltaTime fr5 (m_ent mx)).
  destruct (moveY deltaTime fr5 (m_ent mx)) as [my | sig my]; [|reflexivity].
  apply (finishEntity_withPending keys i pending
           (setHeap (frameOf fr5 my)
              (setY (m_heap my) (pos (m_ent my)) (m_next my)))).
Qed.

Lemma processEntity_withPending (M : MathLib) (phys : GlobalPhysics)
    (deltaTime time : Q) (keys : Keys) (pending : list GameEntity)
    (fr : Frame) (i : nat) :
  processEntity M phys deltaTime time keys (withPending pending fr) i =
  mapFlow (withPending pending)
    (processEntity M phys deltaTime time keys fr i).
Proof.
  unfold processEntity. cbn [withPending currentEntities].
  destruct (currentEntities fr !! i) as [ent|]; [|reflexivity].
  rewrite behaviours_withPending.
  destruct (behaviours M time fr ent) as [fr2 ent2]. cbn [fst snd].
  apply resolveEntity_withPending.
Qed.

Lemma runLoop_withPending (M : MathLib) (phys : GlobalPhysics)
    (deltaTime time : Q) (keys : Keys) (pending : list GameEntity)
    (indices : list nat) (fr : Frame) :
  runLoop (processEntity M phys deltaTime time keys) indices
    (withPending pending fr) =
  mapFlow (withPending pending)
    (runLoop (processEntity M phys deltaTime time keys) indices fr).
Proof.
  revert fr. induction indices as [|i rest IH]; intros fr; [reflexivity|].
  cbn [runLoop]. rewrite processEntity_withPending.
  destruct (processEntity M phys deltaTime time keys fr i) as [fr' | sig fr'];
    cbn [mapFlow]; [apply IH | reflexivity].
Qed.

Lemma gameLoop_committed (M : MathLib) (mode : Mode) (keys : Keys)
    (time : Q) (E E' : Engine) :
  gameLoop M mode keys time E = (E', Committed) ->
  exists frEnd,
    frameLoop M keys time E = Go frEnd
    /\ E' = engineOf E time frEnd
              (List.filter active (currentEntities frEnd)
               ++ newProjectiles frEnd).
Proof.
  unfold gameLoop. destruct (negb (isRunning mode)); [discriminate|].
  destruct (frameLoop M keys time E) as [fr | [] fr].
  - intros [= <-]. exists fr. auto.
  - discriminate.
  - destruct (gameState mode); discriminate.
Qed.

(** ** The body, step by step *)

Lemma resolveEntity_steps (phys : GlobalPhysics) (deltaTime time : Q)
    (keys : Keys) (i : nat) (fr : Frame) (ent : GameEntity) :
  resolveEntity phys deltaTime time keys i fr ent
  = if isStatic ent
    then Go (setCurrent fr (<[i := ent]> (currentEntities fr)))
    else sweepsFrom deltaTime keys i
           (forces phys deltaTime time keys fr ent) ent.
Proof. reflexivity. Qed.

Lemma moveX_startX (deltaTime : Q) (fr : Frame) (ent : GameEntity) :
  moveX deltaTime fr ent
  = sweep (sweepX_step (fst (startX deltaTime fr ent))) (currentEntities fr)
      (snd (startX deltaTime fr ent)).
Proof.
  unfold moveX, startX.
  destruct (Num.ltb _ 0);
    match goal with |- context [Num.gtb ?a ?b] => destruct (Num.gtb a b) end;
    reflexivity.
Qed.

Lemma moveY_startY (deltaTime : Q) (fr : Frame) (ent : GameEntity) :
  moveY deltaTime fr ent
  = sweep (sweepY_step (fst (startY deltaTime fr ent))) (currentEntities fr)
      (snd (startY deltaTime fr ent)).
Proof. reflexivity. Qed.

Lemma sweepX_step_sees (p : Vector2) (entRectX : Rect) (m : Mover)
    (other : GameEntity) :
  deref (m_heap m) (pos other) = p ->
  sweepX_step entRectX m other = sweepX_step_seeing p entRectX m other.
Proof. intros <-. reflexivity. Qed.

Lemma sweepY_step_sees (p : Vector2) (entRectY : Rect) (m : Mover)
    (other : GameEntity) :
  deref (m_heap m) (pos other) = p ->
  sweepY_step entRectY m other = sweepY_step_seeing p entRectY m other.
Proof. intros <-. reflexivity. Qed.

(** The turns of a sweep that runs to its end. *)
Lemma sweep_turn (step : Mover -> GameEntity -> Flow Mover)
    (others : list GameEntity) (m0 mEnd : Mover) (j : nat)
    (other : GameEntity) (m : Mover) :
  sweep step others m0 = Go mEnd ->
  others !! j = Some other ->
  sweep step (take j others) m0 = Go m ->
  exists m', step m other = Go m'.
Proof.
  revert m0 j. induction others as [|o rest IH]; intros m0 j Hend Hj Hm;
    [discriminate|].
  destruct j as [|j].
  - cbn in Hj, Hm. injection Hj as ->. injection Hm as ->.
    cbn [sweep] in Hend.
    destruct (step m other) as [m' | sig m']; [eauto | discriminate].
  - cbn [sweep take] in *. destruct (step m0 o) as [m1 | sig m1];
      [|discriminate].
    eapply IH; eassumption.
Qed.

(** ** Entities keep their objects apart *)

Lemma processEntity_refs (M : MathLib) (phys : GlobalPhysics)
    (deltaTime time : Q) (keys : Keys) (fr fr' : Frame) (i : nat)
    (ent : GameEntity) :
  currentEntities fr !! i = Some ent ->
  (pos ent < next (f_heap fr))%nat ->
  (velocity ent < next (f_heap fr))%nat ->
  processEntity M phys deltaTime time keys fr i = Go fr' ->
  (next (f_heap fr) <= next (f_heap fr'))%nat
  /\ exists ent' extra,
       currentEntities fr' = <[i := ent']> (currentEntities fr)
       /\ refsOf (newProjectiles fr') = refsOf (newProjectiles fr) ++ extra
       /\ pos ent' = pos ent
       /\ (velocity ent' = velocity ent
           \/ (next (f_heap fr) <= velocity ent')%nat)
       /\ (velocity ent' < next (f_heap fr'))%nat
       /\ Forall (fun r => (next (f_heap fr) <= r < next (f_heap fr'))%nat)
                 extra
       /\ NoDup extra
       /\ velocity ent' ∉ extra.
Proof.
  intros Hi Hp Hv Hgo. unfold processEntity in Hgo. rewrite Hi in Hgo.
  pose proof (behaviours_effect M time fr ent Hp Hv) as Hb.
  cbv zeta in Hb.
  destruct (behaviours M time fr ent) as [fr2 ent2]. cbn [fst snd] in Hb.
  destruct Hb as (Hc2 & Hn2 & _ & Hp2 & Hv2 & Hv2' & Hspawn).
  destruct (resolveEntity_ok (pos ent2) (velocity ent2) phys deltaTime time
              keys i fr2 ent2 eq_refl eq_refl) as [Hafter Hres].
  rewrite Hgo in Hafter. cbn [after] in Hafter.
  destruct Hafter as [[Hn _] Hnp].
  destruct (Hres fr' Hgo) as (ent' & Hc & Hp' & Hv').
  split; [lia|].
  destruct Hspawn as [Hsame | (fv & sp & _ & Hnew & _ & _ & Hlo & Hhi
                               & Hne1 & Hne2)].
  - exists ent', []. rewrite app_nil_r.
    split; [congruence|]. split; [congruence|]. split; [congruence|].
    split; [rewrite Hv'; assumption|]. split; [lia|].
    split; [constructor|]. split; [constructor|]. apply not_elem_of_nil.
  - set (n1 := next (fst (patrolBehavior M (f_heap fr) ent))) in *.
    exists ent', [n1; S n1].
    split; [congruence|].
    split.
    { rewrite Hnp, Hnew. unfold refsOf. rewrite flat_map_app. reflexivity. }
    split; [congruence|].
    split; [rewrite Hv'; assumption|]. split; [lia|].
    split; [repeat constructor; lia|].
    split.
    { apply NoDup_cons. split; [rewrite elem_of_cons, elem_of_nil; lia|].
      apply NoDup_singleton. }
    rewrite Hv'. rewrite !elem_of_cons, elem_of_nil. intros [H | [H | []]];
      congruence.
Qed.

Lemma NoDup_fresh_update (R1 R2 extra : list ref) (p v v' : ref) (n : nat) :
  Forall (fun r => (r < n)%nat) (R1 ++ p :: v :: R2) ->
  NoDup (R1 ++ p :: v :: R2) ->
  v' = v \/ (n <= v')%nat ->
  Forall (fun r => (n <= r)%nat) extra ->
  NoDup extra ->
  v' ∉ extra ->
  NoDup (R1 ++ p :: v' :: R2 ++ extra).
Proof.
  intros Hlt Hnd Hv' Hge Hex Hvex.
  rewrite Forall_forall in Hlt, Hge.
  assert (Hold : forall r, r ∈ R1 ++ p :: v :: R2 -> r ∉ extra).
  { intros r Hr Hre. specialize (Hlt r Hr). specialize (Hge r Hre). lia. }
  apply NoDup_app in Hnd as (Hnd1 & Hdisj & Hnd2).
  apply NoDup_cons in Hnd2 as (Hp2 & Hnd2).
  apply NoDup_cons in Hnd2 as (Hv2 & Hnd2).
  assert (Hnew : forall r, r ∈ R1 ++ p :: R2 -> r <> v').
  { intros r Hr ->. destruct Hv' as [-> | Hfresh].
    - apply elem_of_app in Hr as [Hr | Hr].
      + apply (Hdisj v Hr). rewrite !elem_of_cons. auto.
      + apply elem_of_cons in Hr as [-> | Hr]; [|contradiction].
        apply Hp2. rewrite elem_of_cons. auto.
    - assert (v' ∈ R1 ++ p :: v :: R2) as Hin.
      { apply elem_of_app in Hr as [Hr | Hr]; rewrite elem_of_app;
          [left; assumption | right].
        rewrite !elem_of_cons in *. tauto. }
      specialize (Hlt v' Hin). lia. }
  apply NoDup_app. split; [assumption|]. split.
  - intros r Hr. rewrite !elem_of_cons, elem_of_app.
    intros [-> | [-> | [Hr2 | Hre]]].
    + apply (Hdisj p Hr). rewrite elem_of_cons. auto.
    + apply (Hnew v'); [rewrite elem_of_app; auto | reflexivity].
    + apply (Hdisj r Hr). rewrite !elem_of_cons. auto.
    + apply (Hold r); [rewrite elem_of_app; auto | assumption].
  - apply NoDup_cons. split.
    + rewrite elem_of_cons, elem_of_app. intros [-> | [Hr2 | Hre]].
      * apply (Hnew v'); [|reflexivity].
        rewrite elem_of_app, elem_of_cons. auto.
      * apply Hp2. rewrite elem_of_cons. auto.
      * apply (Hold p); [|assumption].
        rewrite elem_of_app, elem_of_cons. auto.
    + apply NoDup_cons. split.
      * rewrite elem_of_app. intros [Hr2 | Hre]; [|contradiction].
        apply (Hnew v'); [|reflexivity].
        rewrite elem_of_app, elem_of_cons. auto.
      * apply NoDup_app. split; [assumption|]. split; [|assumption].
        intros r Hr2. apply Hold. rewrite elem_of_app, !elem_of_cons. auto.
Qed.

Lemma refsOf_app (l1 l2 : list GameEntity) :
  refsOf (l1 ++ l2) = refsOf l1 ++ refsOf l2.
Proof. apply flat_map_app. Qed.

(** A run of the body keeps the references of the frame allocated and apart
    from each other. *)
Lemma processEntity_keeps_apart (M : MathLib) (phys : GlobalPhysics)
    (deltaTime time : Q) (keys : Keys) (fr fr' : Frame) (k : nat) :
  Forall (fun r => (r < next (f_heap fr))%nat) (frameRefs fr) ->
  NoDup (frameRefs fr) ->
  processEntity M phys deltaTime time keys fr k = Go fr' ->
  Forall (fun r => (r < next (f_heap fr'))%nat) (frameRefs fr')
  /\ NoDup (frameRefs fr').
Proof.
  intros Hlt Hnd Hgo.
  destruct (currentEntities fr !! k) as [ent|] eqn:Hk.
  2:{ unfold processEntity in Hgo. rewrite Hk in Hgo. injection Hgo as <-.
      auto. }
  pose proof (take_drop_middle _ _ _ Hk) as Hsplit.
  pose proof (lookup_lt_Some _ _ _ Hk) as Hklt.
  assert (Hold : frameRefs fr
                 = refsOf (take k (currentEntities fr))
                   ++ pos ent :: velocity ent
                      :: (refsOf (drop (S k) (currentEntities fr))
                          ++ refsOf (newProjectiles fr))).
  { unfold frameRefs. rewrite <- Hsplit at 1.
    rewrite refsOf_app, <- app_assoc. reflexivity. }
  rewrite Hold in Hlt, Hnd.
  assert (Hpv : (pos ent < next (f_heap fr))%nat
                /\ (velocity ent < next (f_heap fr))%nat).
  { rewrite Forall_app, !Forall_cons in Hlt. tauto. }
  destruct Hpv as [Hp Hv].
  destruct (processEntity_refs M phys deltaTime time keys fr fr' k ent
              Hk Hp Hv Hgo)
    as (Hn & ent' & extra & Hc & Hnp & Hp' & Hv' & Hv'lt & Hex & Hexnd & Hvex).
  assert (Hnew : frameRefs fr'
                 = refsOf (take k (currentEntities fr))
                   ++ pos ent :: velocity ent'
                      :: (refsOf (drop (S k) (currentEntities fr))
                          ++ refsOf (newProjectiles fr)) ++ extra).
  { unfold frameRefs. rewrite Hc, Hnp, insert_take_drop by assumption.
    rewrite refsOf_app.
    change (refsOf (ent' :: drop (S k) (currentEntities fr)))
      with (pos ent' :: velocity ent'
            :: refsOf (drop (S k) (currentEntities fr))).
    rewrite Hp', <- !app_assoc. cbn. rewrite <- ?app_assoc. reflexivity. }
  rewrite Hnew. split.
  - rewrite Forall_app, !Forall_cons, !Forall_app in *.
    destruct Hlt as (H1 & _ & _ & H2 & H3).
    assert (Hmono : forall l, Forall (fun r => (r < next (f_heap fr))%nat) l ->
                              Forall (fun r => (r < next (f_heap fr'))%nat) l).
    { intros l Hl. eapply Forall_impl; [exact Hl|]. cbn. intros; lia. }
    split; [auto|]. split; [lia|]. split; [assumption|].
    split; [split; auto|].
    eapply Forall_impl; [exact Hex|]. cbn. intros; lia.
  - eapply NoDup_fresh_update; eauto.
    eapply Forall_impl; [exact Hex|]. cbn. intros; lia.
Qed.

Lemma frameBefore_keeps_apart (M : MathLib) (keys : Keys) (time : Q)
    (E : Engine) (k : nat) (fr : Frame) :
  wellFormed (heap E) (entitiesRef E) ->
  frameBefore M keys time E k = Go fr ->
  Forall (fun r => (r < next (f_heap fr))%nat) (frameRefs fr)
  /\ NoDup (frameRefs fr).
Proof.
  intros [Hlt Hnd]. revert fr. induction k as [|k IH]; intros fr Hfr.
  - injection Hfr as <-. unfold frameRefs. cbn. rewrite app_nil_r. auto.
  - apply frameBefore_pred in Hfr as (fr0 & Hfr0 & Hbody).
    destruct (IH fr0 Hfr0) as [Hlt0 Hnd0].
    eapply processEntity_keeps_apart; eassumption.
Qed.

Lemma refsOf_filter (f : GameEntity -> bool) (es : list GameEntity) :
  refsOf (List.filter f es) `sublist_of` refsOf es.
Proof.
  induction es as [|e es IH]; [constructor|].
  cbn [List.filter].
  change (refsOf (e :: es)) with (pos e :: velocity e :: refsOf es).
  destruct (f e).
  - change (refsOf (e :: List.filter f es))
      with (pos e :: velocity e :: refsOf (List.filter f es)).
    apply sublist_skip, sublist_skip, IH.
  - apply sublist_cons, sublist_cons, IH.
Qed.

(** X7.  A frame that is committed leaves the entities with objects that
    exist and that they do not share, the projectiles it spawned included:
    what the theorems on a frame assume of a World State holds again of
    the next one. *)
Lemma committed_frame_wellFormed (M : MathLib) (mode : Mode) (keys : Keys)
    (time : Q) (E E' : Engine) :
  wellFormed (heap E) (entitiesRef E) ->
  gameLoop M mode keys time E = (E', Committed) ->
  wellFormed (heap E') (entitiesRef E').
Proof.
  intros Hwf Hloop.
  destruct (gameLoop_committed M mode keys time E E' Hloop)
    as (frEnd & HfrEnd & ->).
  rewrite frameLoop_frameBefore in HfrEnd.
  destruct (frameBefore_keeps_apart M keys time E _ frEnd Hwf HfrEnd)
    as [Hlt Hnd].
  unfold wellFormed. cbn [engineOf heap entitiesRef].
  assert (Hsub : refsOf (List.filter active (currentEntities frEnd)
                         ++ newProjectiles frEnd)
                 `sublist_of` frameRefs frEnd).
  { rewrite refsOf_app. unfold frameRefs.
    apply sublist_app; [apply refsOf_filter | reflexivity]. }
  split.
  - rewrite Forall_forall in *. intros r Hr. apply Hlt.
    eapply elem_of_sublist; eassumption.
  - eapply sublist_NoDup; eassumption.
Qed.

Lemma instantiateAll_refs (es : list EntityTemplate) :
  forall h,
    Forall (fun r => (r < next h)%nat) (templateRefs es) ->
    NoDup (templateRefs es) ->
    (next h <= next (fst (instantiateAll h es)))%nat
    /\ Forall (fun r => (r < next (fst (instantiateAll h es)))%nat
                        /\ (r ∈ templateRefs es \/ (next h <= r)%nat))
              (refsOf (snd (instantiateAll h es)))
    /\ NoDup (refsOf (snd (instantiateAll h es))).
Proof.
  induction es as [|e rest IH]; intros h Hlt Hnd.
  { cbn. split; [lia|]. split; constructor. }
  cbn [instantiateAll]. unfold instantiate, alloc.
  change (templateRefs (e :: rest))
    with ((pos e :: match velocity e with Some r => [r] | None => [] end)
          ++ templateRefs rest) in *.
  destruct (velocity e) as [r|] eqn:Hve; cbn [app] in *.
  - apply Forall_cons in Hlt as [Hp Hlt]. apply Forall_cons in Hlt as [Hr Hlt].
    apply NoDup_cons in Hnd as [Hpn Hnd]. apply NoDup_cons in Hnd as [Hrn Hnd].
    specialize (IH h Hlt Hnd).
    destruct (instantiateAll h rest) as [h2 rest']. cbn [fst snd] in *.
    destruct IH as (Hn & Hall & Hnd').
    change (refsOf (?e' :: rest')) with (pos e' :: velocity e' :: refsOf rest').
    cbn [pos velocity].
    rewrite Forall_forall in Hall.
    split; [assumption|]. split.
    + apply Forall_cons. split; [split; [lia | left; rewrite elem_of_cons; auto]|].
      apply Forall_cons.
      split; [split; [lia | left; rewrite !elem_of_cons; auto]|].
      apply Forall_forall. intros a Ha. destruct (Hall a Ha) as [Ha1 Ha2].
      split; [assumption|]. destruct Ha2; [left | right; assumption].
      rewrite !elem_of_cons. auto.
    + apply NoDup_cons. split.
      * rewrite elem_of_cons. intros [Heq | Ha].
        -- apply Hpn. rewrite elem_of_cons. auto.
        -- destruct (Hall _ Ha) as [_ [Hin | Hge]]; [|lia].
           apply Hpn. rewrite elem_of_cons. auto.
      * apply NoDup_cons. split; [|assumption].
        intros Ha. destruct (Hall _ Ha) as [_ [Hin | Hge]]; [|lia].
        contradiction.
  - apply Forall_cons in Hlt as [Hp Hlt].
    apply NoDup_cons in Hnd as [Hpn Hnd].
    match goal with
    | |- context [instantiateAll ?h1 rest] =>
        assert (Hlt1 : Forall (fun r => (r < next h1)%nat) (templateRefs rest))
          by (eapply Forall_impl; [exact Hlt|]; cbn; intros; lia);
        specialize (IH h1 Hlt1 Hnd);
        destruct (instantiateAll h1 rest) as [h2 rest']
    end.
    cbn [fst snd next] in *.
    destruct IH as (Hn & Hall & Hnd').
    change (refsOf (?e' :: rest')) with (pos e' :: velocity e' :: refsOf rest').
    cbn [pos velocity].
    rewrite Forall_forall in Hall, Hlt.
    split; [lia|]. split.
    + apply Forall_cons. split; [split; [lia | left; rewrite elem_of_cons; auto]|].
      apply Forall_cons. split; [split; [lia | right; lia]|].
      apply Forall_forall. intros a Ha. destruct (Hall a Ha) as [Ha1 Ha2].
      split; [assumption|]. destruct Ha2; [left | right; lia].
      rewrite !elem_of_cons. auto.
    + apply NoDup_cons. split.
      * rewrite elem_of_cons. intros [Heq | Ha]; [lia|].
        destruct (Hall _ Ha) as [_ [Hin | Hge]]; [contradiction | lia].
      * apply NoDup_cons. split; [|assumption].
        intros Ha. destruct (Hall _ Ha) as [_ [Hin | Hge]]; [|lia].
        specialize (Hlt _ Hin). lia.
Qed.

(** X6.  Set up from a blueprint whose objects exist and are not shared
    between its entities, a World State has entities whose objects exist
    and are not shared: the player and every entity without a velocity get
    objects of their own. *)
Lemma setupLevel_wellFormed (level : LevelData) (E : Engine) :
  Forall (fun r => (r < next (heap E))%nat) (templateRefs (entities level)) ->
  NoDup (templateRefs (entities level)) ->
  wellFormed (heap (setupLevel level E)) (entitiesRef (setupLevel level E)).
Proof.
  intros Hlt Hnd. unfold setupLevel, alloc.
  match goal with
  | |- context [instantiateAll ?h2 (entities level)] =>
      assert (Hlt2 : Forall (fun r => (r < next h2)%nat)
                       (templateRefs (entities level)))
        by (eapply Forall_impl; [exact Hlt|]; cbn; intros; lia);
      pose proof (instantiateAll_refs (entities level) h2 Hlt2 Hnd) as Hall;
      destruct (instantiateAll h2 (entities level)) as [h3 es]
  end.
  cbn [fst snd next heap entitiesRef] in *.
  destruct Hall as (Hn & Hall & Hnd').
  unfold wellFormed. rewrite refsOf_app.
  change (refsOf [player_entity ?a ?b]) with [a; b].
  rewrite Forall_forall in Hall, Hlt.
  split.
  - apply Forall_app. split.
    + apply Forall_forall. intros a Ha. apply Hall. assumption.
    + repeat constructor; lia.
  - apply NoDup_app. split; [assumption|]. split.
    + intros a Ha. rewrite !elem_of_cons, elem_of_nil.
      destruct (Hall a Ha) as [_ [Hin | Hge]]; [specialize (Hlt _ Hin)|]; lia.
    + apply NoDup_cons. split; [rewrite elem_of_cons, elem_of_nil; lia|].
      apply NoDup_singleton.
Qed.

(* ================================================================== *)
(** * The frame, entity by entity *)

(** ** What the body leaves of a record *)

Lemma sweep_inv (P : Mover -> Prop)
    (step : Mover -> GameEntity -> Flow Mover) (others : list GameEntity) :
  (forall m other, other ∈ others -> P m -> after P (step m other)) ->
  forall m, P m -> after P (sweep step others m).
Proof.
  induction others as [|other rest IH]; intros Hstep m Hm; [exact Hm|].
  cbn [sweep].
  assert (H1 : after P (step m other))
    by (apply Hstep; [rewrite elem_of_cons; auto | assumption]).
  destruct (step m other) as [m' | sig m']; cbn [after] in *; [|assumption].
  apply IH; [|assumption].
  intros m0 o Ho. apply Hstep. rewrite elem_of_cons. auto.
Qed.

Lemma rewritten_refl (e : GameEntity) : rewritten e e.
Proof. split; auto. Qed.

Lemma rewritten_type (e e' : GameEntity) :
  rewritten e e' -> type e' = type e.
Proof. intros [Hf _]. exact (f_equal type Hf). Qed.

Lemma rewritten_trans (e1 e2 e3 : GameEntity) :
  rewritten e1 e2 -> rewritten e2 e3 -> rewritten e1 e3.
Proof.
  intros H12 H23. pose proof (rewritten_type _ _ H12) as Ht.
  destruct H12 as [Hf12 Hv12], H23 as [Hf23 Hv23].
  split; [congruence|].
  unfold is_projectile in *. rewrite Ht in Hv23.
  destruct Hv23 as [Hv | [Hp Hv]]; [|auto].
  destruct Hv12 as [Hv' | [Hp Hv']]; [left | right; split]; congruence.
Qed.

Lemma rewritten_hidden (e : GameEntity) :
  is_projectile e = true -> rewritten e (with_isVisible e false).
Proof. intros Hp. split; [reflexivity | auto]. Qed.

Lemma rewritten_hitWall (ent other : GameEntity) :
  rewritten ent (hitWall ent other).
Proof.
  unfold hitWall.
  destruct (EntityType_eqb (type ent) PROJECTILE) eqn:Hp; cbn [andb];
    [|apply rewritten_refl].
  destruct (EntityType_eqb (type other) WALL);
    [apply rewritten_hidden; exact Hp | apply rewritten_refl].
Qed.

Lemma rewritten_if_hidden (c : bool) (ent : GameEntity) :
  rewritten ent
    (if c && EntityType_eqb (type ent) PROJECTILE
     then with_isVisible ent false else ent).
Proof.
  destruct (EntityType_eqb (type ent) PROJECTILE) eqn:Hp, c; cbn [andb];
    try apply rewritten_refl.
  apply rewritten_hidden. exact Hp.
Qed.

Lemma sweepX_step_rewritten (e0 : GameEntity) (entRect : Rect) (m : Mover)
    (other : GameEntity) :
  rewritten e0 (m_ent m) ->
  after (fun m' => rewritten e0 (m_ent m')) (sweepX_step entRect m other).
Proof.
  intros Hm. unfold sweepX_step.
  pose proof (rewritten_trans _ _ _ Hm (rewritten_hitWall (m_ent m) other))
    as Hw.
  destruct (skipped _ _); [exact Hm|].
  destruct (checkCollision _ _); [|exact Hm].
  destruct (lethal _ _); [exact Hm|].
  destruct (isSolid other); exact Hw.
Qed.

Lemma sweepY_step_rewritten (e0 : GameEntity) (entRect : Rect) (m : Mover)
    (other : GameEntity) :
  rewritten e0 (m_ent m) ->
  after (fun m' => rewritten e0 (m_ent m')) (sweepY_step entRect m other).
Proof.
  intros Hm. unfold sweepY_step.
  pose proof (rewritten_trans _ _ _ Hm (rewritten_hitWall (m_ent m) other))
    as Hw.
  destruct (skipped _ _); [exact Hm|].
  destruct (checkCollision _ _); [|exact Hm].
  destruct (lethal _ _); [exact Hm|].
  destruct (isSolid other); [|exact Hw].
  destruct (Num.gtb _ 0); [exact Hw|].
  destruct (Num.ltb _ 0); exact Hw.
Qed.

Lemma moveX_rewritten (deltaTime : Q) (fr : Frame) (ent : GameEntity) :
  after (fun m => rewritten ent (m_ent m)) (moveX deltaTime fr ent).
Proof.
  unfold moveX.
  match goal with
  | |- context [if ?c && _ then with_isVisible ent false else ent] =>
      pose proof (rewritten_if_hidden c ent) as Hent1;
      set (ent1 := if c && EntityType_eqb (type ent) PROJECTILE
                   then with_isVisible ent false else ent) in *
  end.
  destruct (Num.ltb _ 0);
    match goal with |- context [Num.gtb ?a ?b] => destruct (Num.gtb a b) end;
    (apply sweep_inv;
     [intros; apply sweepX_step_rewritten; assumption | exact Hent1]).
Qed.

Lemma moveY_rewritten (deltaTime : Q) (fr : Frame) (ent : GameEntity) :
  after (fun m => rewritten ent (m_ent m)) (moveY deltaTime fr ent).
Proof.
  unfold moveY. apply sweep_inv;
    [intros; apply sweepY_step_rewritten; assumption | apply rewritten_refl].
Qed.

Lemma finishEntity_rewritten (keys : Keys) (i : nat) (fr fr' : Frame)
    (ent : GameEntity) (grounded : bool) :
  finishEntity keys i fr ent grounded = Go fr' ->
  exists ent',
    currentEntities fr' = <[i := ent']> (currentEntities fr)
    /\ rewritten ent ent'.
Proof.
  unfold finishEntity.
  destruct (Num.gtb _ _ && is_player ent); [discriminate|].
  match goal with
  | |- context [if ?c && _ then with_isVisible ent false else ent] =>
      pose proof (rewritten_if_hidden c ent) as Hent1;
      set (ent1 := if c && EntityType_eqb (type ent) PROJECTILE
                   then with_isVisible ent false else ent) in *
  end.
  match goal with
  | |- context [if ?c then setHeap (play fr sfxJump) ?h else fr] =>
      set (fr1 := if c then setHeap (play fr sfxJump) h else fr);
      assert (Hc : currentEntities fr1 = currentEntities fr)
        by (subst fr1; destruct c; reflexivity)
  end.
  match goal with
  | |- context [if ?c then Stop ReachedExit _ else _] => destruct c
  end; [discriminate|].
  intros [= <-]. exists ent1. cbn. rewrite Hc. auto.
Qed.

Lemma resolveEntity_rewritten (phys : GlobalPhysics) (deltaTime time : Q)
    (keys : Keys) (i : nat) (fr fr' : Frame) (ent : GameEntity) :
  resolveEntity phys deltaTime time keys i fr ent = Go fr' ->
  exists ent',
    currentEntities fr' = <[i := ent']> (currentEntities fr)
    /\ rewritten ent ent'.
Proof.
  unfold resolveEntity.
  destruct (isStatic ent).
  { intros [= <-]. exists ent. split; [reflexivity | apply rewritten_refl]. }
  set (fr3 := setHeap fr (applyGravity phys deltaTime (f_heap fr) ent)).
  set (fr4 := if is_player ent
              then playerControl phys deltaTime time keys ent fr3
              else fr3).
  assert (Hc4 : currentEntities fr4 = currentEntities fr).
  { subst fr4. destruct (is_player ent); [|reflexivity].
    destruct (playerControl_ok (velocity ent) (velocity ent) phys deltaTime
                time keys ent fr3 eq_refl) as (_ & Hc & _).
    rewrite Hc. reflexivity. }
  pose proof (moveX_rewritten deltaTime fr4 ent) as Hmx.
  destruct (moveX deltaTime fr4 ent) as [mx | sig mx]; [|discriminate].
  cbn [after] in Hmx.
  match goal with
  | |- context [moveY deltaTime ?f (m_ent mx)] =>
      pose proof (moveY_rewritten deltaTime f (m_ent mx)) as Hmy;
      destruct (moveY deltaTime f (m_ent mx)) as [my | sig my];
      [|discriminate]
  end.
  cbn [after] in Hmy. intros Hfin.
  apply finishEntity_rewritten in Hfin as (ent' & Hcur & Hrw).
  exists ent'. split.
  - rewrite Hcur. cbn. rewrite Hc4. reflexivity.
  - eapply rewritten_trans; [exact Hmx|].
    eapply rewritten_trans; eassumption.
Qed.

Lemma behaviours_rewritten (M : MathLib) (time : Q) (fr : Frame)
    (ent : GameEntity) :
  let fr2 := fst (behaviours M time fr ent) in
  let ent2 := snd (behaviours M time fr ent) in
  currentEntities fr2 = currentEntities fr
  /\ rewritten ent ent2
  /\ (newProjectiles fr2 = newProjectiles fr
      \/ exists pr, newProjectiles fr2 = newProjectiles fr ++ [pr]
                    /\ is_projectile pr = true).
Proof.
  cbv zeta. unfold behaviours.
  destruct (patrolBehavior_cases M (f_heap fr) ent) as [-> | [vel ->]];
    cbn [fst snd];
    match goal with
    | |- context [turretBehavior M time ?f ?e] =>
        destruct (turretBehavior_cases M time f e)
          as [[_ ->] | [_ (rate & fv & sp & _ & _ & _ & _ & _ & Hent & Hfr)]]
    end; cbn [fst snd]; rewrite ?Hent, ?Hfr;
    cbn [currentEntities newProjectiles setHeap];
    (split; [reflexivity|]); (split; [split; [reflexivity | left; reflexivity]|]);
    [left; reflexivity | right; eexists; split; reflexivity
    | left; reflexivity | right; eexists; split; reflexivity].
Qed.

(** The body, falling through, has put at [i] the record it found there,
    but for the three fields it assigns, and has pushed projectiles only. *)
Lemma processEntity_rewritten (M : MathLib) (phys : GlobalPhysics)
    (deltaTime time : Q) (keys : Keys) (fr fr' : Frame) (i : nat)
    (ent : GameEntity) :
  currentEntities fr !! i = Some ent ->
  processEntity M phys deltaTime time keys fr i = Go fr' ->
  (exists ent',
     currentEntities fr' = <[i := ent']> (currentEntities fr)
     /\ rewritten ent ent')
  /\ (Forall (fun pr => is_projectile pr = true) (newProjectiles fr) ->
      Forall (fun pr => is_projectile pr = true) (newProjectiles fr')).
Proof.
  intros Hi. unfold processEntity. rewrite Hi.
  pose proof (behaviours_rewritten M time fr ent) as Hb. cbv zeta in Hb.
  destruct (behaviours M time fr ent) as [fr2 ent2]. cbn [fst snd] in Hb.
  destruct Hb as (Hc2 & Hrw2 & Hnp2). intros Hres.
  destruct (resolveEntity_ok (pos ent2) (velocity ent2) phys deltaTime time
              keys i fr2 ent2 eq_refl eq_refl) as [Hafter _].
  rewrite Hres in Hafter. cbn [after] in Hafter. destruct Hafter as [_ Hnp].
  apply resolveEntity_rewritten in Hres as (ent' & Hcur & Hrw).
  split.
  - exists ent'. split; [congruence|].
    eapply rewritten_trans; eassumption.
  - intros Hall. rewrite Hnp.
    destruct Hnp2 as [-> | (pr & -> & Hpr)]; [assumption|].
    apply Forall_app. split; [assumption|]. constructor; [exact Hpr|].
    constructor.
Qed.

Lemma frameBefore_rewritten (M : MathLib) (keys : Keys) (time : Q)
    (E : Engine) (k : nat) (fr : Frame) :
  frameBefore M keys time E k = Go fr ->
  Forall2 rewritten (entitiesRef E) (currentEntities fr)
  /\ Forall (fun pr => is_projectile pr = true) (newProjectiles fr).
Proof.
  revert fr. induction k as [|k IH]; intros fr Hfr.
  - injection Hfr as <-. cbn. split; [|constructor].
    apply Forall2_same_length_lookup. split; [reflexivity|].
    intros i a b Ha Hb. rewrite Ha in Hb. injection Hb as <-.
    apply rewritten_refl.
  - apply frameBefore_pred in Hfr as (fr0 & Hfr0 & Hbody).
    destruct (IH fr0 Hfr0) as [Hall Hnp].
    destruct (currentEntities fr0 !! k) as [ent|] eqn:Hk.
    + destruct (processEntity_rewritten _ _ _ _ _ _ _ _ _ Hk Hbody)
        as [(ent' & Hcur & Hrw) Hnp'].
      split; [|auto]. rewrite Hcur.
      destruct (Forall2_lookup_r _ _ _ _ _ Hall Hk) as (e0 & He0 & Hrw0).
      rewrite <- (list_insert_id _ _ _ He0).
      apply Forall2_insert; [assumption|].
      eapply rewritten_trans; eassumption.
    + unfold processEntity in Hbody. rewrite Hk in Hbody.
      injection Hbody as <-. auto.
Qed.

Lemma filter_no_projectile (l l' news : list GameEntity) :
  Forall2 rewritten l l' ->
  Forall (fun pr => is_projectile pr = true) news ->
  Forall2 (fun e e' => fixedPart e' = fixedPart e
                       /\ isVisible e' = isVisible e)
    (List.filter (fun e => negb (is_projectile e)) l)
    (List.filter (fun e => negb (is_projectile e))
       (List.filter active l' ++ news)).
Proof.
  intros Hall Hnews.
  assert (Hn : List.filter (fun e => negb (is_projectile e)) news = []).
  { induction Hnews as [|pr news Hpr _ IHn]; [reflexivity|].
    cbn [List.filter]. rewrite Hpr. exact IHn. }
  rewrite List.filter_app, Hn, app_nil_r. clear Hn Hnews news.
  induction Hall as [|e e' l l' Hrw _ IHl]; [constructor|].
  pose proof (rewritten_type _ _ Hrw) as Ht.
  destruct Hrw as [Hf Hv].
  assert (Hp : is_projectile e' = is_projectile e)
    by (unfold is_projectile; rewrite Ht; reflexivity).
  cbn [List.filter]. unfold active at 1. fold (is_projectile e').
  rewrite Hp.
  destruct (is_projectile e) eqn:Hpe.
  - destruct (isVisible e'); cbn [negb andb orb List.filter];
      rewrite ?Hp; cbn [negb]; exact IHl.
  - assert (Hact : isVisible e' || (negb false && negb (isVisible e')) = true)
      by (destruct (isVisible e'); reflexivity).
    rewrite Hact. cbn [negb List.filter]. rewrite Hp. cbn [negb].
    constructor; [|exact IHl].
    split; [assumption|]. destruct Hv as [Hv | [Hc _]]; [assumption|].
    discriminate.
Qed.

(** ** Records across a frame *)

(** X1.  A frame that is committed keeps every entity that is not a
    projectile, in the order of the list: the committed list holds, for
    each of them, a record that differs from the one before the frame in
    nothing but its velocity object and [lastFireTime] -- the flags a user
    sets ([isSolid], [isVisible], [isStatic], [isDeadly], ...), the size
    and the position object are those of before. *)
Theorem frame_keeps_non_projectiles (M : MathLib) (mode : Mode) (keys : Keys)
    (time : Q) (E E' : Engine) :
  gameLoop M mode keys time E = (E', Committed) ->
  Forall2 (fun e e' => fixedPart e' = fixedPart e
                       /\ isVisible e' = isVisible e)
    (List.filter (fun e => negb (is_projectile e)) (entitiesRef E))
    (List.filter (fun e => negb (is_projectile e)) (entitiesRef E')).
Proof.
  intros Hloop.
  destruct (gameLoop_committed M mode keys time E E' Hloop)
    as (frEnd & HfrEnd & ->).
  rewrite frameLoop_frameBefore in HfrEnd.
  destruct (frameBefore_rewritten M keys time E _ frEnd HfrEnd) as [Hall Hnp].
  cbn [engineOf entitiesRef]. apply filter_no_projectile; assumption.
Qed.

(** The first frame of the turret scenario: the turret fires, the records
    of the turret and of the player are kept. *)
Lemma frame_keeps_non_projectiles_witness :
  let E := Scenario.turret_world in
  let mode := Scenario.playing Scenario.turret_level in
  let E' := fst (gameLoop Host.math mode Scenario.noKeys 16 E) in
  Forall2 (fun e e' => fixedPart e' = fixedPart e
                       /\ isVisible e' = isVisible e)
    (List.filter (fun e => negb (is_projectile e)) (entitiesRef E))
    (List.filter (fun e => negb (is_projectile e)) (entitiesRef E')).
Proof.
  cbv zeta.
  apply (frame_keeps_non_projectiles Host.math
           (Scenario.playing Scenario.turret_level) Scenario.noKeys 16).
  assert (Hs : snd (gameLoop Host.math
                      (Scenario.playing Scenario.turret_level)
                      Scenario.noKeys 16 Scenario.turret_world) = Committed)
    by (vm_compute; reflexivity).
  destruct (gameLoop _ _ _ _ _) as [E' o]. cbn in Hs. subst o. reflexivity.
Defined.

(** ** Objects across a frame *)

Lemma patrolBehavior_static (M : MathLib) (h : Heap) (ent : GameEntity) :
  isStatic ent = true -> patrolBehavior M h ent = (h, ent).
Proof.
  intros Hs. unfold patrolBehavior. rewrite Hs, andb_false_r.
  destruct (patrolStart ent), (patrolEnd ent); reflexivity.
Qed.

(** The body, run for a static entity, falls through and writes no object
    that existed. *)
Lemma processEntity_static (M : MathLib) (phys : GlobalPhysics)
    (deltaTime time : Q) (keys : Keys) (fr : Frame) (i : nat)
    (ent : GameEntity) :
  currentEntities fr !! i = Some ent ->
  isStatic ent = true ->
  exists fr',
    processEntity M phys deltaTime time keys fr i = Go fr'
    /\ (next (f_heap fr) <= next (f_heap fr'))%nat
    /\ forall r, (r < next (f_heap fr))%nat ->
                 deref (f_heap fr') r = deref (f_heap fr) r.
Proof.
  intros Hi Hs. unfold processEntity, behaviours. rewrite Hi.
  rewrite (patrolBehavior_static M _ ent Hs).
  destruct (turretBehavior_cases M time (setHeap fr (f_heap fr)) ent)
    as [[_ Heq] | [_ (rate & fv & sp & _ & _ & _ & _ & _ & Hent & Hfr)]].
  - rewrite Heq. unfold resolveEntity. rewrite Hs.
    eexists. split; [reflexivity|]. cbn. split; [lia | reflexivity].
  - destruct (turretBehavior M time (setHeap fr (f_heap fr)) ent)
      as [fr2 ent2].
    cbn [fst snd] in Hent, Hfr. subst fr2 ent2.
    unfold resolveEntity. cbn [with_lastFireTime isStatic]. rewrite Hs.
    eexists. split; [reflexivity|].
    cbn [setCurrent f_heap setHeap]. unfold alloc, deref. cbn [fst next cell].
    split; [lia|].
    intros r Hr.
    destruct (Nat.eqb_spec r (S (next (f_heap fr)))); [lia|].
    destruct (Nat.eqb_spec r (next (f_heap fr))); [lia | reflexivity].
Qed.

Lemma instantiateAll_deref (es : list EntityTemplate) :
  forall h,
    (next h <= next (fst (instantiateAll h es)))%nat
    /\ forall r, (r < next h)%nat ->
                 deref (fst (instantiateAll h es)) r = deref h r.
Proof.
  induction es as [|e rest IH]; intros h; [cbn; auto|].
  cbn [instantiateAll]. unfold instantiate.
  destruct (velocity e) as [v|].
  - specialize (IH h).
    destruct (instantiateAll h rest) as [h2 rest']. exact IH.
  - specialize (IH (fst (alloc h zero2))).
    change (alloc h zero2) with (fst (alloc h zero2), snd (alloc h zero2)).
    cbv iota beta.
    destruct (instantiateAll (fst (alloc h zero2)) rest) as [h2 rest'].
    cbn [fst] in *. rewrite next_alloc in IH. destruct IH as [Hn Hd].
    split; [lia|].
    intros r Hr. rewrite Hd by lia. apply deref_alloc_old. assumption.
Qed.

Section Turns.

Variables (M : MathLib) (keys : Keys) (time : Q) (E : Engine).

Let turn : Frame -> nat -> Flow Frame :=
  processEntity M (physicsRef E)
    (deltaTimeOf (time - lastTimeRef E) (timeScale (physicsRef E))) time keys.

Lemma frameBefore_prefix (d k : nat) (fr : Frame) :
  frameBefore M keys time E (k + d) = Go fr ->
  exists fr0, frameBefore M keys time E k = Go fr0.
Proof.
  revert fr. induction d as [|d IH]; intros fr Hfr.
  - rewrite Nat.add_0_r in Hfr. eauto.
  - rewrite Nat.add_succ_r in Hfr.
    apply frameBefore_pred in Hfr as (fr1 & Hfr1 & _). eauto.
Qed.

Hypothesis Hvalid :
  Forall (fun r => (r < next (heap E))%nat) (refsOf (entitiesRef E)).

(** However the loop of the frame is left, it has allocated, and has
    written no object that existed but those of the entities. *)
Lemma frameBefore_leaves (k : nat) :
  after (fun fr =>
           (next (heap E) <= next (f_heap fr))%nat
           /\ forall r, (r < next (heap E))%nat ->
                        r ∉ refsOf (entitiesRef E) ->
                        deref (f_heap fr) r = deref (heap E) r)
        (frameBefore M keys time E k).
Proof.
  induction k as [|k IH]; [cbn; auto|].
  rewrite frameBefore_S.
  destruct (frameBefore M keys time E k) as [fr | sig fr] eqn:Hfr;
    [|exact IH].
  cbn [after] in IH. destruct IH as [Hn Hd].
  pose proof (loopInv_holds M keys time E Hvalid _ _ Hfr)
    as (_ & _ & Hrest & _).
  destruct (currentEntities fr !! k) as [ent|] eqn:Hk.
  - assert (Hk0 : entitiesRef E !! k = Some ent)
      by (rewrite <- Hrest; [assumption | lia]).
    destruct (valid_lookup E Hvalid k ent Hk0) as [Hp Hv].
    destruct (refs_lookup _ _ _ Hk0) as [Hpin Hvin].
    destruct (processEntity_footprint M (physicsRef E)
                (deltaTimeOf (time - lastTimeRef E) (timeScale (physicsRef E)))
                time keys fr k ent Hk ltac:(lia) ltac:(lia)) as [Hafter _].
    destruct (processEntity _ _ _ _ _ fr k) as [fr' | sig fr'];
      cbn [after] in *; destruct Hafter as [Hn' Hd'];
      (split; [lia|]); intros r Hr Hnot;
      (rewrite Hd'; [apply Hd; assumption | lia | | ]);
      intros ->; contradiction.
  - unfold processEntity. rewrite Hk. cbn. auto.
Qed.

(** Before the body runs for index [k], an object that existed and is not
    one of an entity before [k] that is not static is as it was. *)
Lemma static_cells_kept (k : nat) (fr : Frame) :
  frameBefore M keys time E k = Go fr ->
  forall r, (r < next (heap E))%nat ->
    (forall j o0, (j < k)%nat -> entitiesRef E !! j = Some o0 ->
                  isStatic o0 = false -> r <> pos o0 /\ r <> velocity o0) ->
    deref (f_heap fr) r = deref (heap E) r.
Proof.
  revert fr. induction k as [|k IH]; intros fr Hfr r Hr Hfree.
  - injection Hfr as <-. reflexivity.
  - apply frameBefore_pred in Hfr as (fr0 & Hfr0 & Hbody).
    pose proof (loopInv_holds M keys time E Hvalid _ _ Hfr0)
      as (_ & Hnext & Hrest & _).
    assert (IH0 : deref (f_heap fr0) r = deref (heap E) r).
    { apply IH; [assumption | assumption|].
      intros j o0 Hj. apply Hfree. lia. }
    destruct (currentEntities fr0 !! k) as [ent|] eqn:Hk.
    + assert (Hk0 : entitiesRef E !! k = Some ent)
        by (rewrite <- Hrest; [assumption | lia]).
      destruct (valid_lookup E Hvalid k ent Hk0) as [Hp Hv].
      destruct (isStatic ent) eqn:Hs.
      * destruct (processEntity_static M (physicsRef E)
                    (deltaTimeOf (time - lastTimeRef E)
                       (timeScale (physicsRef E)))
                    time keys fr0 k ent Hk Hs) as (fr' & Hgo & _ & Hd).
        rewrite Hgo in Hbody. injection Hbody as <-.
        rewrite Hd by lia. exact IH0.
      * destruct (processEntity_footprint M (physicsRef E)
                    (deltaTimeOf (time - lastTimeRef E)
                       (timeScale (physicsRef E)))
                    time keys fr0 k ent Hk ltac:(lia) ltac:(lia))
          as [Hafter _].
        rewrite Hbody in Hafter. cbn [after] in Hafter.
        destruct Hafter as [_ Hd].
        destruct (Hfree k ent ltac:(lia) Hk0 Hs) as [Hrp Hrv].
        rewrite Hd; [exact IH0 | lia | assumption | assumption].
    + unfold processEntity in Hbody. rewrite Hk in Hbody.
      injection Hbody as <-. exact IH0.
Qed.

Hypothesis Hapart : NoDup (refsOf (entitiesRef E)).

(** The turn of the entity at index [j] in a loop that runs to its end:
    the body finds the record and the objects of the entity as they were at
    the start of the frame, and the position it leaves is the one at the
    end of the loop. *)
Lemma entity_turn (frEnd : Frame) (j : nat) (o : GameEntity) :
  frameLoop M keys time E = Go frEnd ->
  entitiesRef E !! j = Some o ->
  exists fr fr',
    frameBefore M keys time E j = Go fr
    /\ turn fr j = Go fr'
    /\ currentEntities fr !! j = Some o
    /\ (next (heap E) <= next (f_heap fr))%nat
    /\ deref (f_heap fr) (pos o) = deref (heap E) (pos o)
    /\ deref (f_heap fr) (velocity o) = deref (heap E) (velocity o)
    /\ deref (f_heap frEnd) (pos o) = deref (f_heap fr') (pos o).
Proof.
  intros Hend Hj. rewrite frameLoop_frameBefore in Hend.
  pose proof (lookup_lt_Some _ _ _ Hj) as Hlt.
  assert (HSj : exists fr', frameBefore M keys time E (S j) = Go fr').
  { apply (frameBefore_prefix (length (entitiesRef E) - S j) (S j) frEnd).
    replace (S j + (length (entitiesRef E) - S j))%nat
      with (length (entitiesRef E)) by lia.
    exact Hend. }
  destruct HSj as [fr' Hfr'].
  pose proof Hfr' as Hpred.
  apply frameBefore_pred in Hpred as (fr & Hfr & Hbody).
  exists fr, fr'.
  pose proof (loopInv_holds M keys time E Hvalid _ _ Hfr)
    as (_ & Hnext & Hrest & _ & Hcells).
  assert (Hk : currentEntities fr !! j = Some o)
    by (rewrite Hrest; [assumption | lia]).
  destruct (valid_lookup E Hvalid j o Hj) as [Hp Hv].
  split; [assumption|]. split; [exact Hbody|]. split; [assumption|].
  split; [assumption|].
  assert (Hfree : forall r, r = pos o \/ r = velocity o ->
            forall j' o0, (j' < j)%nat -> entitiesRef E !! j' = Some o0 ->
                          r <> pos o0 /\ r <> velocity o0).
  { intros r Hr j' o0 Hj' Ho0.
    destruct (refs_distinct (entitiesRef E) j j' o o0 Hapart ltac:(lia)
                Hj Ho0) as (H1 & H2 & H3 & H4).
    destruct Hr as [-> | ->]; auto. }
  split; [apply Hcells; [assumption | apply Hfree; auto]|].
  split; [apply Hcells; [assumption | apply Hfree; auto]|].
  destruct (processEntity_footprint M (physicsRef E)
              (deltaTimeOf (time - lastTimeRef E) (timeScale (physicsRef E)))
              time keys fr j o Hk ltac:(lia) ltac:(lia)) as [_ Hgo].
  destruct (Hgo fr' Hbody) as [(ent' & Hcur & Hpe) _].
  assert (Hj' : currentEntities fr' !! j = Some ent').
  { rewrite Hcur. apply list_lookup_insert_eq.
    apply lookup_lt_Some in Hk. assumption. }
  assert (Hend' : frameBefore M keys time E
                    (S j + (length (entitiesRef E) - S j)) = Go frEnd).
  { replace (S j + (length (entitiesRef E) - S j))%nat
      with (length (entitiesRef E)) by lia.
    exact Hend. }
  destruct (later_bodies_keep M keys time E Hvalid (S j) fr' Hapart Hfr'
              _ frEnd Hend' j ltac:(lia)) as [_ Hkeep].
  rewrite <- Hpe. apply Hkeep. assumption.
Qed.

End Turns.

(** ** The horizontal bounds and the fall out of the world, for one entity *)

Lemma sweepX_step_inside (p v : ref) (w : Q) (h0 : Heap) (entRect : Rect)
    (m : Mover) (other : GameEntity) :
  p <> v ->
  0 <= x (deref h0 p) <= w ->
  pos (m_ent m) = p /\ velocity (m_ent m) = v
  /\ deref (m_heap m) p = deref h0 p /\ 0 <= m_next m <= w ->
  after (fun m' => pos (m_ent m') = p /\ velocity (m_ent m') = v
                   /\ deref (m_heap m') p = deref h0 p
                   /\ 0 <= m_next m' <= w)
        (sweepX_step entRect m other).
Proof.
  intros Hpv H0 (Hp & Hv & Hd & Hn). unfold sweepX_step.
  destruct (hitWall_refs (m_ent m) other) as [Hwp Hwv].
  destruct (skipped _ _); [cbn; auto|].
  destruct (checkCollision _ _); [|cbn; auto].
  destruct (lethal _ _); [cbn; auto|].
  destruct (isSolid other); cbn [after m_ent m_heap m_next];
    [|split; [congruence|]; split; [congruence | auto]].
  rewrite Hwp, Hwv, Hp, Hv.
  assert (Hh : forall a, deref (setX (m_heap m) v a) p = deref h0 p)
    by (intros a; rewrite deref_setX_other; assumption).
  destruct (Behavior_is _ _); rewrite Hh; auto.
Qed.

Lemma moveX_inside (deltaTime : Q) (fr : Frame) (ent : GameEntity) :
  pos ent <> velocity ent ->
  0 <= x (deref (f_heap fr) (pos ent)) <= CANVAS_WIDTH - x (size ent) ->
  after (fun m => pos (m_ent m) = pos ent /\ velocity (m_ent m) = velocity ent
                  /\ deref (m_heap m) (pos ent) = deref (f_heap fr) (pos ent)
                  /\ 0 <= m_next m <= CANVAS_WIDTH - x (size ent))
        (moveX deltaTime fr ent).
Proof.
  intros Hpv [Hlo Hhi]. unfold moveX.
  match goal with
  | |- context [if ?c then with_isVisible ent false else ent] =>
      set (ent1 := if c then with_isVisible ent false else ent)
  end.
  assert (Hent1 : pos ent1 = pos ent /\ velocity ent1 = velocity ent
                  /\ size ent1 = size ent).
  { subst ent1. destruct (_ && _); repeat split. }
  destruct Hent1 as (Hp1 & Hv1 & Hs1). rewrite Hs1.
  assert (Hw : 0 <= CANVAS_WIDTH - x (size ent))
    by (eapply Qle_trans; eassumption).
  assert (Hh : forall h a,
            deref (setX h (velocity ent) a) (pos ent) = deref h (pos ent))
    by (intros h a; apply deref_setX_other; assumption).
  destruct (Num.ltb _ 0) eqn:Hneg;
    match goal with
    | |- context [Num.gtb ?a ?b] => destruct (Num.gtb a b) eqn:Hbig
    end;
    (apply sweep_inv;
     [intros m other _ Hm;
      apply sweepX_step_inside; [assumption | split; assumption | exact Hm]
     |]);
    cbn [m_ent m_heap m_next];
    (split; [assumption|]); (split; [assumption|]);
    rewrite ?Hh; (split; [reflexivity|]).
  - split; [assumption | apply Qle_refl].
  - split; [apply Qle_refl | assumption].
  - split; [assumption | apply Qle_refl].
  - apply ltb_ge in Hneg. apply gtb_le in Hbig. split; assumption.
Qed.

Lemma sweepY_step_x (h0 : Heap) (entRect : Rect) (m : Mover)
    (other : GameEntity) :
  (forall r, x (deref (m_heap m) r) = x (deref h0 r)) ->
  after (fun m' => forall r, x (deref (m_heap m') r) = x (deref h0 r))
        (sweepY_step entRect m other).
Proof.
  intros Hm. unfold sweepY_step.
  destruct (skipped _ _); [exact Hm|].
  destruct (checkCollision _ _); [|exact Hm].
  destruct (lethal _ _); [exact Hm|].
  destruct (isSolid other); [|exact Hm].
  destruct (Num.gtb _ 0); [|destruct (Num.ltb _ 0)]; cbn [after m_heap];
    try exact Hm; intros r; rewrite setY_keeps_x; apply Hm.
Qed.

Lemma moveY_x (deltaTime : Q) (fr : Frame) (ent : GameEntity) :
  after (fun m => forall r, x (deref (m_heap m) r) = x (deref (f_heap fr) r))
        (moveY deltaTime fr ent).
Proof.
  unfold moveY. apply sweep_inv;
    [intros; apply sweepY_step_x; assumption | reflexivity].
Qed.

Lemma finishEntity_x (keys : Keys) (i : nat) (fr fr' : Frame)
    (ent : GameEntity) (grounded : bool) :
  finishEntity keys i fr ent grounded = Go fr' ->
  forall r, x (deref (f_heap fr') r) = x (deref (f_heap fr) r).
Proof.
  unfold finishEntity.
  destruct (Num.gtb _ _ && is_player ent); [discriminate|].
  match goal with
  | |- context [if ?c then setHeap (play fr sfxJump) ?h else fr] =>
      set (fr1 := if c then setHeap (play fr sfxJump) h else fr);
      assert (Hx : forall r, x (deref (f_heap fr1) r) = x (deref (f_heap fr) r))
        by (subst fr1; destruct c; [|reflexivity];
            intros r; cbn; apply setY_keeps_x)
  end.
  match goal with
  | |- context [if ?c then Stop ReachedExit _ else _] => destruct c
  end; [discriminate|].
  intros [= <-]. exact Hx.
Qed.

(** The resolution of an entity that does not share its position object
    with its velocity keeps it between the left and the right edge of the
    canvas. *)
Lemma resolveEntity_inside (phys : GlobalPhysics) (deltaTime time : Q)
    (keys : Keys) (i : nat) (fr fr' : Frame) (ent : GameEntity) :
  pos ent <> velocity ent ->
  resolveEntity phys deltaTime time keys i fr ent = Go fr' ->
  0 <= x (deref (f_heap fr) (pos ent)) <= CANVAS_WIDTH - x (size ent) ->
  0 <= x (deref (f_heap fr') (pos ent)) <= CANVAS_WIDTH - x (size ent).
Proof.
  intros Hpv. unfold resolveEntity.
  destruct (isStatic ent); [intros [= <-]; cbn; auto|].
  set (fr3 := setHeap fr (applyGravity phys deltaTime (f_heap fr) ent)).
  set (fr4 := if is_player ent
              then playerControl phys deltaTime time keys ent fr3
              else fr3).
  assert (H4 : deref (f_heap fr4) (pos ent) = deref (f_heap fr) (pos ent)).
  { assert (H3 : deref (f_heap fr3) (pos ent) = deref (f_heap fr) (pos ent))
      by (subst fr3; cbn; unfold applyGravity;
          apply deref_setY_other; assumption).
    subst fr4. destruct (is_player ent); [|exact H3].
    destruct (playerControl_ok (velocity ent) (velocity ent) phys deltaTime
                time keys ent fr3 eq_refl) as ([_ Hs] & _).
    rewrite Hs; assumption. }
  intros Hres Hin. rewrite <- H4 in Hin.
  pose proof (moveX_inside deltaTime fr4 ent Hpv Hin) as Hmx.
  destruct (moveX deltaTime fr4 ent) as [mx | sig mx]; [|discriminate].
  cbn [after] in Hmx. destruct Hmx as (Hpx & Hvx & _ & Hnx).
  set (fr5 := setHeap (frameOf fr4 mx)
                (setX (m_heap mx) (pos (m_ent mx)) (m_next mx))) in *.
  assert (H5 : x (deref (f_heap fr5) (pos ent)) = m_next mx)
    by (subst fr5; cbn; rewrite Hpx, deref_setX_same; reflexivity).
  pose proof (moveY_x deltaTime fr5 (m_ent mx)) as Hmy.
  destruct (moveY deltaTime fr5 (m_ent mx)) as [my | sig my]; [|discriminate].
  cbn [after] in Hmy.
  apply finishEntity_x with (r := pos ent) in Hres.
  rewrite Hres. cbn [setHeap f_heap]. rewrite setY_keeps_x, Hmy, H5.
  exact Hnx.
Qed.

Lemma finishEntity_above (keys : Keys) (i : nat) (fr fr' : Frame)
    (ent : GameEntity) (grounded : bool) :
  pos ent <> velocity ent ->
  is_player ent = true ->
  finishEntity keys i fr ent grounded = Go fr' ->
  y (deref (f_heap fr') (pos ent)) <= CANVAS_HEIGHT + 200.
Proof.
  intros Hpv Hpl. unfold finishEntity. rewrite Hpl, andb_true_r.
  destruct (Num.gtb _ _) eqn:Hfall; [discriminate|].
  apply gtb_le in Hfall. cbn [andb].
  match goal with
  | |- context [if ?c then setHeap (play fr sfxJump) ?h else fr] =>
      set (fr1 := if c then setHeap (play fr sfxJump) h else fr);
      assert (Hy : deref (f_heap fr1) (pos ent) = deref (f_heap fr) (pos ent))
        by (subst fr1; destruct c; [|reflexivity];
            cbn; apply deref_setY_other; assumption)
  end.
  match goal with
  | |- context [if ?c then Stop ReachedExit _ else _] => destruct c
  end; [discriminate|].
  intros [= <-]. cbn [setCurrent f_heap]. rewrite Hy. exact Hfall.
Qed.

(** The resolution of a player that is not static, falling through, leaves
    it no lower than 200 below the canvas. *)
Lemma resolveEntity_above (phys : GlobalPhysics) (deltaTime time : Q)
    (keys : Keys) (i : nat) (fr fr' : Frame) (ent : GameEntity) :
  pos ent <> velocity ent ->
  isStatic ent = false ->
  is_player ent = true ->
  resolveEntity phys deltaTime time keys i fr ent = Go fr' ->
  y (deref (f_heap fr') (pos ent)) <= CANVAS_HEIGHT + 200.
Proof.
  intros Hpv Hs Hpl. unfold resolveEntity. rewrite Hs, Hpl.
  set (fr3 := setHeap fr (applyGravity phys deltaTime (f_heap fr) ent)).
  set (fr4 := playerControl phys deltaTime time keys ent fr3).
  pose proof (moveX_ok (pos ent) (velocity ent) deltaTime fr4 ent
                eq_refl eq_refl) as Hmx.
  pose proof (moveX_rewritten deltaTime fr4 ent) as Hrx.
  destruct (moveX deltaTime fr4 ent) as [mx | sig mx]; [|discriminate].
  cbn [after] in Hmx, Hrx. destruct Hmx as (Hpx & Hvx & _).
  set (fr5 := setHeap (frameOf fr4 mx)
                (setX (m_heap mx) (pos (m_ent mx)) (m_next mx))).
  pose proof (moveY_ok (pos ent) (velocity ent) deltaTime fr5 (m_ent mx)
                Hpx Hvx) as Hmy.
  pose proof (moveY_rewritten deltaTime fr5 (m_ent mx)) as Hry.
  destruct (moveY deltaTime fr5 (m_ent mx)) as [my | sig my]; [|discriminate].
  cbn [after] in Hmy, Hry. destruct Hmy as (Hpy & Hvy & _).
  intros Hfin. rewrite <- Hpy.
  eapply finishEntity_above; [congruence | | exact Hfin].
  unfold is_player in *.
  rewrite (rewritten_type _ _ Hry), (rewritten_type _ _ Hrx). exact Hpl.
Qed.

Lemma refs_own (es : list GameEntity) (j : nat) (o : GameEntity) :
  NoDup (refsOf es) -> es !! j = Some o -> pos o <> velocity o.
Proof.
  revert j. induction es as [|e es IH]; intros j Hnd Hj; [discriminate|].
  cbn [refsOf flat_map app] in Hnd.
  apply NoDup_cons in Hnd as [Hpe Hnd]. apply NoDup_cons in Hnd as [_ Hnd].
  destruct j as [|j]; cbn in Hj.
  - injection Hj as <-. intros Heq. apply Hpe. rewrite Heq.
    rewrite elem_of_cons. auto.
  - apply (IH j); assumption.
Qed.

Lemma processEntity_inside (M : MathLib) (phys : GlobalPhysics)
    (deltaTime time : Q) (keys : Keys) (fr fr' : Frame) (i : nat)
    (ent : GameEntity) :
  currentEntities fr !! i = Some ent ->
  (pos ent < next (f_heap fr))%nat ->
  (velocity ent < next (f_heap fr))%nat ->
  pos ent <> velocity ent ->
  processEntity M phys deltaTime time keys fr i = Go fr' ->
  0 <= x (deref (f_heap fr) (pos ent)) <= CANVAS_WIDTH - x (size ent) ->
  0 <= x (deref (f_heap fr') (pos ent)) <= CANVAS_WIDTH - x (size ent).
Proof.
  intros Hi Hp Hv Hpv. unfold processEntity. rewrite Hi.
  pose proof (behaviours_effect M time fr ent Hp Hv) as Hb.
  pose proof (behaviours_rewritten M time fr ent) as Hr.
  cbv zeta in Hb, Hr.
  destruct (behaviours M time fr ent) as [fr2 ent2]. cbn [fst snd] in Hb, Hr.
  destruct Hb as (_ & _ & Hold & Hp2 & Hv2 & _).
  destruct Hr as (_ & [Hfix _] & _).
  pose proof (f_equal size Hfix) as Hsize. cbn in Hsize.
  intros Hres Hin. rewrite <- Hp2, <- Hsize.
  apply (resolveEntity_inside phys deltaTime time keys i fr2 fr' ent2);
    [destruct Hv2 as [-> | Hfresh]; [congruence | lia] | exact Hres |].
  rewrite Hp2, Hsize, Hold by assumption. exact Hin.
Qed.

Lemma processEntity_above (M : MathLib) (phys : GlobalPhysics)
    (deltaTime time : Q) (keys : Keys) (fr fr' : Frame) (i : nat)
    (ent : GameEntity) :
  currentEntities fr !! i = Some ent ->
  (pos ent < next (f_heap fr))%nat ->
  (velocity ent < next (f_heap fr))%nat ->
  pos ent <> velocity ent ->
  isStatic ent = false ->
  is_player ent = true ->
  processEntity M phys deltaTime time keys fr i = Go fr' ->
  y (deref (f_heap fr') (pos ent)) <= CANVAS_HEIGHT + 200.
Proof.
  intros Hi Hp Hv Hpv Hs Hpl. unfold processEntity. rewrite Hi.
  pose proof (behaviours_effect M time fr ent Hp Hv) as Hb.
  pose proof (behaviours_rewritten M time fr ent) as Hr.
  cbv zeta in Hb, Hr.
  destruct (behaviours M time fr ent) as [fr2 ent2]. cbn [fst snd] in Hb, Hr.
  destruct Hb as (_ & _ & _ & Hp2 & Hv2 & _).
  destruct Hr as (_ & [Hfix _] & _).
  pose proof (f_equal isStatic Hfix) as Hstat. cbn in Hstat.
  pose proof (f_equal type Hfix) as Htype. cbn in Htype.
  intros Hres. rewrite <- Hp2.
  apply (resolveEntity_above phys deltaTime time keys i fr2 fr' ent2);
    [destruct Hv2 as [-> | Hfresh]; [congruence | lia]
    | congruence
    | unfold is_player in *; rewrite Htype; exact Hpl
    | exact Hres].
Qed.

(** ** The canvas, the static entities and the fall, across a frame *)

(** X2.  A frame that is committed, over entities that share no object,
    keeps between the left and the right edge of the canvas every entity
    that was between them: [0 <= pos.x <= CANVAS_WIDTH - size.x] holds of
    the position after the frame when it holds of the one before. *)
Theorem frame_keeps_entity_inside_canvas (M : MathLib) (mode : Mode)
    (keys : Keys) (time : Q) (E E' : Engine) (j : nat) (o : GameEntity) :
  wellFormed (heap E) (entitiesRef E) ->
  gameLoop M mode keys time E = (E', Committed) ->
  entitiesRef E !! j = Some o ->
  0 <= x (deref (heap E) (pos o)) <= CANVAS_WIDTH - x (size o) ->
  0 <= x (deref (heap E') (pos o)) <= CANVAS_WIDTH - x (size o).
Proof.
  intros [Hvalid Hapart] Hloop Hj Hin.
  destruct (gameLoop_committed M mode keys time E E' Hloop)
    as (frEnd & HfrEnd & ->).
  cbn [engineOf heap].
  destruct (entity_turn M keys time E Hvalid Hapart frEnd j o HfrEnd Hj)
    as (fr & fr' & _ & Hturn & Hk & Hnext & Hpos & _ & Hend).
  destruct (valid_lookup E Hvalid j o Hj) as [Hp Hv].
  rewrite Hend.
  eapply processEntity_inside;
    [exact Hk | lia | lia | eapply refs_own; eassumption | exact Hturn |].
  rewrite Hpos. exact Hin.
Qed.

(** X3.  A frame that is committed, over entities that share no object,
    leaves no player that is not static lower than 200 below the canvas:
    a player that falls further ends the frame by a reset instead. *)
Theorem committed_player_is_above_the_fall_line (M : MathLib) (mode : Mode)
    (keys : Keys) (time : Q) (E E' : Engine) (j : nat) (o : GameEntity) :
  wellFormed (heap E) (entitiesRef E) ->
  gameLoop M mode keys time E = (E', Committed) ->
  entitiesRef E !! j = Some o ->
  type o = PLAYER ->
  isStatic o = false ->
  y (deref (heap E') (pos o)) <= CANVAS_HEIGHT + 200.
Proof.
  intros [Hvalid Hapart] Hloop Hj Hty Hs.
  destruct (gameLoop_committed M mode keys time E E' Hloop)
    as (frEnd & HfrEnd & ->).
  cbn [engineOf heap].
  destruct (entity_turn M keys time E Hvalid Hapart frEnd j o HfrEnd Hj)
    as (fr & fr' & _ & Hturn & Hk & Hnext & _ & _ & Hend).
  destruct (valid_lookup E Hvalid j o Hj) as [Hp Hv].
  rewrite Hend.
  eapply processEntity_above;
    [exact Hk | lia | lia | eapply refs_own; eassumption | exact Hs
    | unfold is_player; rewrite Hty; reflexivity | exact Hturn].
Qed.

(** X4.  A frame that is committed, over entities that share no object,
    writes neither the position nor the velocity of a static entity:
    whatever moves into it, and whether or not it fires, it is where it
    was. *)
Theorem static_entity_is_not_moved (M : MathLib) (mode : Mode)
    (keys : Keys) (time : Q) (E E' : Engine) (j : nat) (o : GameEntity) :
  wellFormed (heap E) (entitiesRef E) ->
  gameLoop M mode keys time E = (E', Committed) ->
  entitiesRef E !! j = Some o ->
  isStatic o = true ->
  deref (heap E') (pos o) = deref (heap E) (pos o)
  /\ deref (heap E') (velocity o) = deref (heap E) (velocity o).
Proof.
  intros [Hvalid Hapart] Hloop Hj Hs.
  destruct (gameLoop_committed M mode keys time E E' Hloop)
    as (frEnd & HfrEnd & ->).
  cbn [engineOf heap]. rewrite frameLoop_frameBefore in HfrEnd.
  destruct (valid_lookup E Hvalid j o Hj) as [Hp Hv].
  assert (Hfree : forall r, r = pos o \/ r = velocity o ->
            forall j' o0, (j' < length (entitiesRef E))%nat ->
              entitiesRef E !! j' = Some o0 -> isStatic o0 = false ->
              r <> pos o0 /\ r <> velocity o0).
  { intros r Hr j' o0 _ Ho0 Hs0.
    assert (Hne : j <> j') by (intros ->; congruence).
    destruct (refs_distinct (entitiesRef E) j j' o o0 Hapart Hne Hj Ho0)
      as (H1 & H2 & H3 & H4).
    destruct Hr as [-> | ->]; auto. }
  split; apply (static_cells_kept M keys time E Hvalid _ frEnd HfrEnd);
    try assumption; apply Hfree; auto.
Qed.

(** ** Death *)

Lemma gameLoop_reset (M : MathLib) (mode : Mode) (keys : Keys) (time : Q)
    (E E' : Engine) :
  gameLoop M mode keys time E = (E', ResetOutcome) ->
  exists fr,
    frameLoop M keys time E = Stop Died fr
    /\ E' = setupLevel (blueprintOf mode) (engineOf E time fr (entitiesRef E)).
Proof.
  unfold gameLoop. destruct (negb (isRunning mode)); [discriminate|].
  destruct (frameLoop M keys time E) as [fr | [] fr].
  - discriminate.
  - intros [= <-]. exists fr. split; [reflexivity|].
    unfold resetLevel, blueprintOf.
    destruct (gameState mode), (isEditorTesting mode); reflexivity.
  - destruct (gameState mode); discriminate.
Qed.

(** X5.  When the player dies in a frame, the World State is set up again
    from the blueprint that is played: the list is as long as the
    blueprint plus the player, who comes last, at the start position of
    the blueprint and at rest, the click target is cleared and the physics
    are those of the blueprint.  The start position is the one of before
    the frame as long as no entity has the start-position object as its
    position or its velocity: the frame writes no other object. *)
Theorem death_restarts_at_the_start_position (M : MathLib) (mode : Mode)
    (keys : Keys) (time : Q) (E E' : Engine) :
  Forall (fun r => (r < next (heap E))%nat) (refsOf (entitiesRef E)) ->
  (startPos (blueprintOf mode) < next (heap E))%nat ->
  startPos (blueprintOf mode) ∉ refsOf (entitiesRef E) ->
  gameLoop M mode keys time E = (E', ResetOutcome) ->
  exists ppos pvel,
    last (entitiesRef E') = Some (player_entity ppos pvel)
    /\ deref (heap E') ppos = deref (heap E) (startPos (blueprintOf mode))
    /\ deref (heap E') pvel = zero2
    /\ length (entitiesRef E') = S (length (entities (blueprintOf mode)))
    /\ targetXRef E' = None
    /\ physicsRef E' = physics (blueprintOf mode).
Proof.
  intros Hvalid Hsp Hfree Hloop.
  destruct (gameLoop_reset M mode keys time E E' Hloop) as (fr & Hfr & ->).
  pose proof (frameBefore_leaves M keys time E Hvalid
                (length (entitiesRef E))) as Hleave.
  rewrite <- frameLoop_frameBefore, Hfr in Hleave. cbn [after] in Hleave.
  destruct Hleave as [Hn Hd].
  set (level := blueprintOf mode) in *.
  set (h := f_heap fr) in *.
  set (h1 := fst (alloc h (deref h (startPos level)))).
  set (h2 := fst (alloc h1 zero2)).
  pose proof (instantiateAll_deref (entities level) h2) as [Hn3 Hd3].
  pose proof (instantiateAll_sizes h2 (entities level)) as (Hsz & _ & _).
  exists (next h), (S (next h)).
  unfold setupLevel. cbn [engineOf heap].
  change (alloc (f_heap fr) (deref (f_heap fr) (startPos level)))
    with (h1, next h).
  cbv iota beta. change (alloc h1 zero2) with (h2, S (next h)).
  cbv iota beta.
  destruct (instantiateAll h2 (entities level)) as [h3 es].
  cbn [fst snd heap entitiesRef targetXRef physicsRef] in *.
  assert (Hn2 : next h2 = S (S (next h))) by reflexivity.
  split; [apply last_snoc|].
  split.
  { rewrite Hd3 by lia.
    unfold h2.
    rewrite deref_alloc_old by (unfold h1; rewrite next_alloc; lia).
    unfold h1.
    change (next h) with (snd (alloc h (deref h (startPos level)))).
    rewrite deref_alloc_new. apply Hd; assumption. }
  split.
  { rewrite Hd3 by lia. unfold h2.
    change (S (next h)) with (snd (alloc h1 zero2)).
    apply deref_alloc_new. }
  split.
  { rewrite length_app. cbn [length].
    pose proof (f_equal length Hsz) as Hl. rewrite !length_map in Hl.
    lia. }
  split; reflexivity.
Qed.

(** ** The theorems on a frame, on the scenarios *)

(** The outcome of a frame of a scenario, by evaluation. *)
Ltac frame_outcome :=
  match goal with
  | |- ?g = (fst ?g, ?o) =>
      let Hs := fresh "Hs" in
      assert (Hs : snd g = o) by (vm_compute; reflexivity);
      destruct g as [? ?]; cbn in Hs; subst; reflexivity
  end.

(** The references [refs] are below [n]; they are distinct. *)
Ltac refs_below := repeat constructor.
Ltac refs_apart :=
  repeat (apply NoDup_cons_2; [rewrite ?elem_of_cons, elem_of_nil; lia|]);
  apply NoDup_nil_2.

(** Crate a of the two crates, which starts at x = 100 and is 10 wide, is
    inside the canvas after the frame. *)
Lemma frame_keeps_entity_inside_canvas_witness :
  let E := Scenario.crates in
  let mode := Scenario.playing Scenario.crates_level in
  let E' := fst (gameLoop Host.math mode Scenario.noKeys 10 E) in
  let o := default (player_entity 0%nat 0%nat) (entitiesRef E !! 0%nat) in
  0 <= x (deref (heap E') (pos o)) <= CANVAS_WIDTH - x (size o).
Proof.
  cbv zeta.
  apply (frame_keeps_entity_inside_canvas Host.math
           (Scenario.playing Scenario.crates_level) Scenario.noKeys 10
           Scenario.crates _ 0%nat).
  - assert (Hrefs : refsOf (entitiesRef Scenario.crates)
                    = [1; 2; 3; 4; 5; 6]%nat) by (vm_compute; reflexivity).
    assert (Hn : next (heap Scenario.crates) = 7%nat)
      by (vm_compute; reflexivity).
    split; rewrite Hrefs; [rewrite Hn; refs_below | refs_apart].
  - frame_outcome.
  - vm_compute. reflexivity.
  - split; apply Qle_bool_imp_le; vm_compute; reflexivity.
Defined.

(** The player of the two crates, who starts at (500, 500), is above the
    line after the frame. *)
Lemma committed_player_is_above_the_fall_line_witness :
  let E := Scenario.crates in
  let mode := Scenario.playing Scenario.crates_level in
  let E' := fst (gameLoop Host.math mode Scenario.noKeys 10 E) in
  let o := default (player_entity 0%nat 0%nat) (entitiesRef E !! 2%nat) in
  y (deref (heap E') (pos o)) <= CANVAS_HEIGHT + 200.
Proof.
  cbv zeta.
  apply (committed_player_is_above_the_fall_line Host.math
           (Scenario.playing Scenario.crates_level) Scenario.noKeys 10
           Scenario.crates _ 2%nat).
  - assert (Hrefs : refsOf (entitiesRef Scenario.crates)
                    = [1; 2; 3; 4; 5; 6]%nat) by (vm_compute; reflexivity).
    assert (Hn : next (heap Scenario.crates) = 7%nat)
      by (vm_compute; reflexivity).
    split; rewrite Hrefs; [rewrite Hn; refs_below | refs_apart].
  - frame_outcome.
  - vm_compute. reflexivity.
  - reflexivity.
  - reflexivity.
Defined.

(** The turret of the turret scenario fires in the frame, and is where it
    was. *)
Lemma static_entity_is_not_moved_witness :
  let E := Scenario.turret_world in
  let mode := Scenario.playing Scenario.turret_level in
  let E' := fst (gameLoop Host.math mode Scenario.noKeys 16 E) in
  let o := default (player_entity 0%nat 0%nat) (entitiesRef E !! 0%nat) in
  deref (heap E') (pos o) = deref (heap E) (pos o)
  /\ deref (heap E') (velocity o) = deref (heap E) (velocity o).
Proof.
  cbv zeta.
  apply (static_entity_is_not_moved Host.math
           (Scenario.playing Scenario.turret_level) Scenario.noKeys 16
           Scenario.turret_world _ 0%nat).
  - assert (Hrefs : refsOf (entitiesRef Scenario.turret_world)
                    = [1; 2; 3; 4]%nat) by (vm_compute; reflexivity).
    assert (Hn : next (heap Scenario.turret_world) = 5%nat)
      by (vm_compute; reflexivity).
    split; rewrite Hrefs; [rewrite Hn; refs_below | refs_apart].
  - frame_outcome.
  - vm_compute. reflexivity.
  - reflexivity.
Defined.

(** The second frame of the editor test: the player walks into the enemy,
    and is back on the start position (50, 400). *)
Lemma death_restarts_at_the_start_position_witness :
  let E := fst Scenario.editor_frame1 in
  let mode := Scenario.testing Scenario.editor_level in
  let E' := fst (gameLoop Host.math mode Scenario.noKeys 100 E) in
  exists ppos pvel,
    last (entitiesRef E') = Some (player_entity ppos pvel)
    /\ deref (heap E') ppos = deref (heap E) (startPos (blueprintOf mode))
    /\ deref (heap E') pvel = zero2
    /\ length (entitiesRef E') = S (length (entities (blueprintOf mode)))
    /\ targetXRef E' = None
    /\ physicsRef E' = physics (blueprintOf mode).
Proof.
  cbv zeta.
  apply (death_restarts_at_the_start_position Host.math
           (Scenario.testing Scenario.editor_level) Scenario.noKeys 100
           (fst Scenario.editor_frame1)).
  - assert (Hrefs : refsOf (entitiesRef (fst Scenario.editor_frame1))
                    = [1; 5; 3; 4]%nat) by (vm_compute; reflexivity).
    assert (Hn : next (heap (fst Scenario.editor_frame1)) = 6%nat)
      by (vm_compute; reflexivity).
    rewrite Hrefs, Hn. refs_below.
  - vm_compute. lia.
  - assert (Hrefs : refsOf (entitiesRef (fst Scenario.editor_frame1))
                    = [1; 5; 3; 4]%nat) by (vm_compute; reflexivity).
    rewrite Hrefs.
    change (startPos (blueprintOf (Scenario.testing Scenario.editor_level)))
      with 0%nat.
    rewrite !elem_of_cons, elem_of_nil. lia.
  - frame_outcome.
Defined.

(** The level of the two crates: its five objects exist and no entity
    shares one, and so it is of the World State set up from it. *)
Lemma setupLevel_wellFormed_witness :
  let E := setupLevel Scenario.crates_level
             (Scenario.boot Scenario.crates_heap) in
  wellFormed (heap E) (entitiesRef E).
Proof.
  cbv zeta.
  apply (setupLevel_wellFormed Scenario.crates_level
           (Scenario.boot Scenario.crates_heap)).
  - assert (Hrefs : templateRefs (entities Scenario.crates_level)
                    = [1; 2; 3; 4]%nat) by reflexivity.
    assert (Hn : next (heap (Scenario.boot Scenario.crates_heap)) = 5%nat)
      by reflexivity.
    rewrite Hrefs, Hn. refs_below.
  - assert (Hrefs : templateRefs (entities Scenario.crates_level)
                    = [1; 2; 3; 4]%nat) by reflexivity.
    rewrite Hrefs. refs_apart.
Defined.

(** The first frame of the turret scenario, in which a projectile is
    spawned. *)
Lemma committed_frame_wellFormed_witness :
  let E := Scenario.turret_world in
  let mode := Scenario.playing Scenario.turret_level in
  let E' := fst (gameLoop Host.math mode Scenario.noKeys 16 E) in
  wellFormed (heap E') (entitiesRef E').
Proof.
  cbv zeta.
  apply (committed_frame_wellFormed Host.math
           (Scenario.playing Scenario.turret_level) Scenario.noKeys 16
           Scenario.turret_world).
  - assert (Hrefs : refsOf (entitiesRef Scenario.turret_world)
                    = [1; 2; 3; 4]%nat) by (vm_compute; reflexivity).
    assert (Hn : next (heap Scenario.turret_world) = 5%nat)
      by (vm_compute; reflexivity).
    split; rewrite Hrefs; [rewrite Hn; refs_below | refs_apart].
  - frame_outcome.
Defined.

(* ================================================================== *)
(** * The editor *)

(** ** The grid of the viewport *)

Lemma snapped_nearest (raw : Q) :
  exists k : Z,
    snapped raw = inject_Z k * SNAP
    /\ inject_Z k * SNAP - 5 <= raw < inject_Z k * SNAP + 5.
Proof.
  exists (Qfloor (raw / SNAP + (1 # 2))). split; [reflexivity|].
  pose proof (Qfloor_le (raw / SNAP + (1 # 2))) as Hlo.
  pose proof (Qlt_floor (raw / SNAP + (1 # 2))) as Hhi.
  rewrite inject_Z_plus in Hhi. unfold SNAP in *.
  set (k := inject_Z (Qfloor (raw / 10 + (1 # 2)))) in *.
  change (inject_Z 1) with 1 in Hhi.
  assert (Hraw : raw == raw / 10 * 10) by (field; discriminate).
  split; lra.
Qed.

(** X8.  The viewport passes to the editor the point of the grid of 10
    nearest to the pointer, a half going up: the coordinates of a drop,
    and those of an entity that is dragged, are multiples [k * 10] of 10
    with [k * 10 - 5 <= offset < k * 10 + 5], that is less than 5 below
    and no more than 5 above the offset of the pointer in the container
    (less the offset of the grab, for a drag); an offset of 5 gives 10.
    Nothing is passed when the viewport is not that of the editor, or when
    nothing is dragged. *)
Theorem viewport_snaps_to_the_grid (e : Pointer) (rect : DOMRect)
    (i : string) (dragOffset : Vector2) :
  handleDrop false e rect = None
  /\ handleMouseMove false (Some i) dragOffset e rect = None
  /\ handleMouseMove true None dragOffset e rect = None
  /\ (exists kx ky : Z,
        handleDrop true e rect
          = Some (inject_Z kx * SNAP, inject_Z ky * SNAP)
        /\ inject_Z kx * SNAP - 5 <= clientX e - rect_left rect
           < inject_Z kx * SNAP + 5
        /\ inject_Z ky * SNAP - 5 <= clientY e - rect_top rect
           < inject_Z ky * SNAP + 5)
  /\ (exists kx ky : Z,
        handleMouseMove true (Some i) dragOffset e rect
          = (if String.eqb i "" then None
             else Some (i, {| x := inject_Z kx * SNAP;
                              y := inject_Z ky * SNAP |}))
        /\ inject_Z kx * SNAP - 5
           <= clientX e - rect_left rect - x dragOffset
           < inject_Z kx * SNAP + 5
        /\ inject_Z ky * SNAP - 5
           <= clientY e - rect_top rect - y dragOffset
           < inject_Z ky * SNAP + 5).
Proof.
  split; [reflexivity|]. split; [reflexivity|]. split; [reflexivity|].
  split.
  - destruct (snapped_nearest (clientX e - rect_left rect))
      as (kx & Hx & Hbx).
    destruct (snapped_nearest (clientY e - rect_top rect))
      as (ky & Hy & Hby).
    exists kx, ky. unfold handleDrop. cbn [negb]. rewrite Hx, Hy. auto.
  - destruct (snapped_nearest (clientX e - rect_left rect - x dragOffset))
      as (kx & Hx & Hbx).
    destruct (snapped_nearest (clientY e - rect_top rect - y dragOffset))
      as (ky & Hy & Hby).
    exists kx, ky. unfold handleMouseMove. cbn [negb orb].
    rewrite Hx, Hy. auto.
Qed.

(** ** Drop and delete *)

Lemma droppedEntity_fields (M : MathLib) (now : Q) (t : EntityType)
    (px py : Q) (p v : ref) :
  let e := droppedEntity M now t px py p v in
  pos e = p /\ velocity e = Some v /\ isVisible e = true
  /\ type e <> PROJECTILE
  /\ (type e = t \/ (t = PROJECTILE /\ type e = ENEMY))
  /\ 0 < x (size e) /\ 0 < y (size e).
Proof.
  cbv zeta. destruct t; cbn;
    (split; [reflexivity|]); (split; [reflexivity|]);
    (split; [reflexivity|]); (split; [discriminate|]);
    (split; [auto|]); split; reflexivity.
Qed.

Lemma templateRefs_filter (f : EntityTemplate -> bool)
    (es : list EntityTemplate) :
  templateRefs (List.filter f es) `sublist_of` templateRefs es.
Proof.
  induction es as [|e es IH]; [constructor|].
  cbn [List.filter]. unfold templateRefs in *. cbn [flat_map].
  destruct (f e); cbn [flat_map].
  - apply sublist_skip. apply sublist_app; [reflexivity | exact IH].
  - apply sublist_cons. apply sublist_inserts_l. exact IH.
Qed.

(** X9.  A drop in the editor appends one entity to the blueprint and
    leaves the rest of it as it is.  The entity is at the point of the
    drop, at rest, visible, and never of type [PROJECTILE] (the item of
    that name makes a turret, an [ENEMY]); its position and its velocity
    are new objects, so a blueprint whose objects exist and are not shared
    is still one after the drop, and no object that existed is written.
    A drop that carries no item does nothing. *)
Theorem drop_appends_an_entity_with_objects_of_its_own (M : MathLib)
    (now : Q) (t : EntityType) (px py : Q) (c : Component) :
  blueprintApart (heap (c_engine c)) (editorLevel (c_mode c)) ->
  let c' := handleEditorDrop M now (Some t) px py c in
  let h' := heap (c_engine c') in
  handleEditorDrop M now None px py c = c
  /\ (forall r, (r < next (heap (c_engine c)))%nat ->
                deref h' r = deref (heap (c_engine c)) r)
  /\ blueprintApart h' (editorLevel (c_mode c'))
  /\ startPos (editorLevel (c_mode c')) = startPos (editorLevel (c_mode c))
  /\ physics (editorLevel (c_mode c')) = physics (editorLevel (c_mode c))
  /\ exists e v,
       entities (editorLevel (c_mode c'))
         = entities (editorLevel (c_mode c)) ++ [e]
       /\ velocity e = Some v
       /\ deref h' (pos e) = {| x := px; y := py |}
       /\ deref h' v = zero2
       /\ isVisible e = true
       /\ type e <> PROJECTILE.
Proof.
  intros [Hlt Hnd]. cbv zeta. split; [reflexivity|].
  unfold handleEditorDrop, alloc.
  cbn [heap sound with_heap c_engine c_mode editorLevel with_editorLevel
       with_entities entities startPos physics fst snd next].
  set (h := heap (c_engine c)) in *.
  pose proof (droppedEntity_fields M now t px py (next h) (S (next h)))
    as (Hp & Hv & Hvis & Hty & _).
  cbv zeta in Hp, Hv, Hvis, Hty.
  split.
  { intros r Hr. unfold deref. cbn [cell].
    destruct (Nat.eqb_spec r (S (next h))); [lia|].
    destruct (Nat.eqb_spec r (next h)); [lia | reflexivity]. }
  assert (Hrefs : templateRefs
                    (entities (editorLevel (c_mode c))
                     ++ [droppedEntity M now t px py (next h) (S (next h))])
                  = templateRefs (entities (editorLevel (c_mode c)))
                    ++ [next h; S (next h)]).
  { unfold templateRefs. rewrite flat_map_app. cbn [flat_map].
    rewrite Hp, Hv. reflexivity. }
  split.
  { unfold blueprintApart.
    cbn [startPos entities with_entities next]. rewrite Hrefs.
    rewrite app_comm_cons. split.
    - apply Forall_app. split.
      + eapply Forall_impl; [exact Hlt|]. cbn. intros; lia.
      + repeat constructor; lia.
    - apply NoDup_app. split; [exact Hnd|]. split.
      + intros r Hr. rewrite Forall_forall in Hlt. specialize (Hlt r Hr).
        rewrite !elem_of_cons, elem_of_nil. lia.
      + apply NoDup_cons. split; [rewrite elem_of_cons, elem_of_nil; lia|].
        apply NoDup_singleton. }
  split; [reflexivity|]. split; [reflexivity|].
  exists (droppedEntity M now t px py (next h) (S (next h))), (S (next h)).
  split; [reflexivity|]. split; [exact Hv|].
  rewrite Hp. unfold deref. cbn [cell].
  rewrite !Nat.eqb_refl.
  destruct (Nat.eqb_spec (next h) (S (next h))); [lia|].
  repeat split; assumption.
Qed.

(** X10.  A deletion in the editor removes from the blueprint the entities
    that have the identifier, and only them: the others stay, in their
    order; nothing is selected afterwards.  The start position cannot be
    deleted.  A blueprint whose objects exist and are not shared is still
    one after the deletion. *)
Theorem delete_removes_the_entities_of_that_id (i : string) (c : Component) :
  blueprintApart (heap (c_engine c)) (editorLevel (c_mode c)) ->
  i <> "ghost_player"%string ->
  let c' := handleDeleteEntity i c in
  handleDeleteEntity "ghost_player" c = c
  /\ entities (editorLevel (c_mode c'))
     `sublist_of` entities (editorLevel (c_mode c))
  /\ (forall e, e ∈ entities (editorLevel (c_mode c'))
                <-> e ∈ entities (editorLevel (c_mode c)) /\ id e <> i)
  /\ startPos (editorLevel (c_mode c')) = startPos (editorLevel (c_mode c))
  /\ physics (editorLevel (c_mode c')) = physics (editorLevel (c_mode c))
  /\ heap (c_engine c') = heap (c_engine c)
  /\ c_selectedEntityId c' = None
  /\ blueprintApart (heap (c_engine c')) (editorLevel (c_mode c')).
Proof.
  intros [Hlt Hnd] Hi. cbv zeta. split; [reflexivity|].
  unfold handleDeleteEntity.
  destruct (String.eqb_spec i "ghost_player"); [contradiction|].
  cbn [c_mode c_engine c_selectedEntityId editorLevel with_editorLevel
       with_entities entities startPos physics sound heap].
  set (es := entities (editorLevel (c_mode c))) in *.
  split.
  { clear. induction es as [|e es IH]; [constructor|].
    cbn [List.filter]. destruct (negb _);
      [apply sublist_skip | apply sublist_cons]; exact IH. }
  split.
  { intros e. rewrite !list_elem_of_In, List.filter_In, negb_true_iff.
    destruct (String.eqb_spec (id e) i); split; intros [H1 H2];
      split; congruence. }
  split; [reflexivity|]. split; [reflexivity|]. split; [reflexivity|].
  split; [reflexivity|].
  pose proof (templateRefs_filter
                (fun e => negb (String.eqb (id e) i)) es) as Hsub.
  unfold blueprintApart. cbn [startPos entities with_entities]. split.
  - rewrite Forall_forall in *. intros r Hr. apply Hlt.
    eapply elem_of_sublist; [exact Hr|]. apply sublist_skip. exact Hsub.
  - eapply sublist_NoDup; [exact Hnd | apply sublist_skip; exact Hsub].
Qed.

(** The enemy dropped at (88, 400) in the editor as it is opened. *)
Lemma drop_appends_an_entity_with_objects_of_its_own_witness :
  let c := Scenario.workshop in
  let c' := handleEditorDrop Host.math 1 (Some ENEMY) 88 400 c in
  let h' := heap (c_engine c') in
  blueprintApart h' (editorLevel (c_mode c'))
  /\ exists e v,
       entities (editorLevel (c_mode c'))
         = entities (editorLevel (c_mode c)) ++ [e]
       /\ velocity e = Some v
       /\ deref h' (pos e) = {| x := 88; y := 400 |}
       /\ deref h' v = zero2
       /\ isVisible e = true
       /\ type e <> PROJECTILE.
Proof.
  cbv zeta.
  destruct (drop_appends_an_entity_with_objects_of_its_own Host.math 1 ENEMY
              88 400 Scenario.workshop) as (_ & _ & Hap & _ & _ & He).
  - assert (Hrefs : startPos (editorLevel (c_mode Scenario.workshop))
                    :: templateRefs
                         (entities (editorLevel (c_mode Scenario.workshop)))
                    = [0]%nat) by reflexivity.
    assert (Hn : next (heap (c_engine Scenario.workshop)) = 3%nat)
      by reflexivity.
    split; rewrite Hrefs; [rewrite Hn; refs_below | refs_apart].
  - split; assumption.
Defined.

(** The enemy that was dropped is deleted. *)
Lemma delete_removes_the_entities_of_that_id_witness :
  let c := Scenario.workshop_enemy in
  let c' := handleDeleteEntity "custom_ENEMY_1" c in
  entities (editorLevel (c_mode c'))
  `sublist_of` entities (editorLevel (c_mode c))
  /\ (forall e, e ∈ entities (editorLevel (c_mode c'))
                <-> e ∈ entities (editorLevel (c_mode c))
                    /\ id e <> "custom_ENEMY_1"%string)
  /\ c_selectedEntityId c' = None
  /\ blueprintApart (heap (c_engine c')) (editorLevel (c_mode c')).
Proof.
  cbv zeta.
  destruct (delete_removes_the_entities_of_that_id "custom_ENEMY_1"
              Scenario.workshop_enemy)
    as (_ & H1 & H2 & _ & _ & _ & H3 & H4).
  - assert (Hrefs : startPos (editorLevel (c_mode Scenario.workshop_enemy))
                    :: templateRefs
                         (entities
                            (editorLevel (c_mode Scenario.workshop_enemy)))
                    = [0; 3; 4]%nat) by reflexivity.
    assert (Hn : next (heap (c_engine Scenario.workshop_enemy)) = 7%nat)
      by reflexivity.
    split; rewrite Hrefs; [rewrite Hn; refs_below | refs_apart].
  - discriminate.
  - auto.
Defined.

(** ** Moving an entity *)

Lemma spread_keeps_pos {V : Type} (lift : ref -> V) (updates : list Assign) :
  Forall (fun u => match u with a_pos _ => False | _ => True end) updates ->
  forall e : EntityOf V, pos (spread lift e updates) = pos e.
Proof.
  unfold spread. induction 1 as [|u updates Hu _ IH]; intros e;
    [reflexivity|].
  cbn [fold_left]. rewrite IH. destruct u; try reflexivity. contradiction.
Qed.

Lemma updateById_keeps_pos {V : Type} (lift : ref -> V) (i : string)
    (updates : list Assign) (es : list (EntityOf V)) :
  Forall (fun u => match u with a_pos _ => False | _ => True end) updates ->
  map pos (updateById lift i updates es) = map pos es.
Proof.
  intros Hu. unfold updateById. rewrite map_map. apply map_ext.
  intros e. destruct (String.eqb (id e) i); [|reflexivity].
  apply spread_keeps_pos. exact Hu.
Qed.

(** X11.  While the editor builds, the move of an entity that patrols
    (the entity found under the identifier has the behaviour [PATROL] and
    a [patrolStart]) does not reach its position in the blueprint.  The
    handler updates the entity twice, the position first and the ends of
    the patrol second, and each update computes the entities of the
    blueprint from the [editorLevel] of the closure: the second one
    replaces what the first one has put in the state.  The blueprint is
    left with the ends of the patrol moved by the distance of the move and
    every position object as it was; the list the viewport shows has the
    new position until the effect that follows the change of the blueprint
    replaces it by the entities of the blueprint. *)
Theorem move_of_a_patrol_is_lost_by_the_blueprint (i : string) (newPos : ref)
    (c : Component) (ent : EntityTemplate) (pStart : Vector2) :
  building (c_mode c) = true ->
  i <> "ghost_player"%string ->
  List.find (fun e => String.eqb (id e) i) (c_editorEntities c) = Some ent ->
  Behavior_is PATROL (behavior ent) = true ->
  patrolStart ent = Some pStart ->
  let c' := handleEntityMove (c_mode c) (c_editorEntities c) i newPos c in
  let h := heap (c_engine c) in
  let level := editorLevel (c_mode c) in
  let level' := editorLevel (c_mode c') in
  let diffX := x (deref h newPos) - x (deref h (pos ent)) in
  let diffY := y (deref h newPos) - y (deref h (pos ent)) in
  let pEnd := match patrolEnd ent with Some e => e | None => zero2 end in
  entities level'
    = updateById Some i
        [a_patrolStart {| x := x pStart + diffX; y := y pStart + diffY |};
         a_patrolEnd {| x := x pEnd + diffX; y := y pEnd + diffY |}]
        (entities level)
  /\ map pos (entities level') = map pos (entities level)
  /\ startPos level' = startPos level
  /\ heap (c_engine c') = h
  /\ map pos (c_editorEntities c')
     = map (fun e => if String.eqb (id e) i then newPos else pos e)
         (c_editorEntities c)
  /\ exists p v,
       c_editorEntities (initEffect c') = entities level' ++ [ghost_player p v].
Proof.
  intros Hb Hi Hfind Hpatrol Hstart. cbv zeta.
  unfold handleEntityMove. rewrite Hfind, Hstart, Hpatrol.
  unfold handleUpdateEntity. rewrite Hb.
  destruct (String.eqb_spec i "ghost_player"); [contradiction|].
  cbn [c_mode c_engine c_editorEntities editorLevel with_editorLevel
       with_entities entities startPos heap].
  split; [reflexivity|].
  split.
  { apply updateById_keeps_pos. repeat constructor. }
  split; [reflexivity|]. split; [reflexivity|].
  split.
  { unfold updateById. rewrite !map_map. apply map_ext. intros e.
    destruct (String.eqb (id e) i) eqn:He; cbn; rewrite He; reflexivity. }
  unfold initEffect, building in *.
  cbn [c_mode c_engine gameState isEditorTesting with_editorLevel
       editorLevel] in *.
  destruct (gameState (c_mode c)); try discriminate.
  destruct (isEditorTesting (c_mode c)); [discriminate|].
  unfold alloc. cbn. eexists _, _. reflexivity.
Qed.

(** The enemy dropped at (88, 400) is dragged to (200, 400): its patrol,
    from (88, 400) to (188, 400), becomes one from (200, 400) to
    (300, 400), and its position object is the one it had. *)
Lemma move_of_a_patrol_is_lost_by_the_blueprint_witness :
  let c := Scenario.workshop_drag in
  let c' := handleEntityMove (c_mode c) (c_editorEntities c)
              "custom_ENEMY_1" 7%nat c in
  map pos (entities (editorLevel (c_mode c')))
    = map pos (entities (editorLevel (c_mode c)))
  /\ map patrolStart (entities (editorLevel (c_mode c')))
     = [Some (Scenario.vec (88 + (200 - 88)) (400 + (400 - 400)))]
  /\ map pos (c_editorEntities c') = [7; 5]%nat.
Proof.
  cbv zeta.
  destruct (move_of_a_patrol_is_lost_by_the_blueprint "custom_ENEMY_1" 7%nat
              Scenario.workshop_drag
              (default (ghost_player 0%nat 0%nat)
                 (c_editorEntities Scenario.workshop_drag !! 0%nat))
              (Scenario.vec 88 400))
    as (H1 & H2 & _ & _ & H3 & _); try reflexivity; [discriminate|].
  split; [exact H2|]. split; [rewrite H1; reflexivity | exact H3].
Defined.

(** ** From the editor to the frame *)

(** X12.  The enemy that the editor makes for a drop at [(px, py)], set up
    by [setupLevel] and at rest, is sent to the right at the speed 100 by
    the patrol block of the frame: its path is the 100 units to the right
    of the drop, so its velocity becomes (100, 0) whenever the square root
    that the block takes of the squared length of the path is 100. *)
Theorem dropped_enemy_patrols_to_the_right (M : MathLib) (now px py : Q)
    (p v : ref) (h : Heap) :
  Math_sqrt M ((px + 100 - px) ^ 2 + (py - py) ^ 2) == 100 ->
  deref h v = zero2 ->
  let ent := snd (instantiate h (droppedEntity M now ENEMY px py p v)) in
  let h' := fst (patrolBehavior M h ent) in
  let ent' := snd (patrolBehavior M h ent) in
  isStatic ent = false
  /\ x (deref h' (velocity ent')) == 100
  /\ y (deref h' (velocity ent')) == 0.
Proof.
  intros Hsqrt Hrest. cbv zeta.
  unfold instantiate, droppedEntity. cbn [EntityType_eqb velocity snd].
  cbn [spread app fold_left assign andb negb fst snd
       id type name pos size velocity isStatic isSolid isVisible isLocked
       isDeadly isAlwaysVisible gravityScale behavior origin patrolStart
       patrolEnd patrolSpeed fireRate projectileSpeed lastFireTime].
  split; [reflexivity|].
  unfold patrolBehavior.
  cbn [patrolStart patrolEnd behavior isStatic Behavior_is negb andb
       patrolSpeed Num.or_default velocity pos x y].
  assert (Hlen : Num.gtb
                   (Math_sqrt M ((px + 100 - px) ^ 2 + (py - py) ^ 2)) 0
                 = true) by (apply gtb_gt; rewrite Hsqrt; reflexivity).
  rewrite Hlen, Hrest. cbn [x y zero2].
  change (Num.eqb 0 0) with true. cbn [andb].
  rewrite assign_velocity_deref. cbn [x y].
  rewrite Hsqrt. split; field.
Qed.

(** The enemy dropped at (88, 400), with the square root of the host. *)
Lemma dropped_enemy_patrols_to_the_right_witness :
  let h := Scenario.editor_heap in
  let ent :=
    snd (instantiate h (droppedEntity Host.math 1 ENEMY 88 400 1%nat 2%nat)) in
  let h' := fst (patrolBehavior Host.math h ent) in
  let ent' := snd (patrolBehavior Host.math h ent) in
  isStatic ent = false
  /\ x (deref h' (velocity ent')) == 100
  /\ y (deref h' (velocity ent')) == 0.
Proof.
  cbv zeta.
  apply (dropped_enemy_patrols_to_the_right Host.math 1 88 400 1%nat 2%nat
           Scenario.editor_heap).
  - vm_compute. reflexivity.
  - reflexivity.
Defined.

(** ** Hacks *)

Lemma gameLoop_physics (M : MathLib) (mode : Mode) (keys : Keys) (time : Q)
    (E : Engine) :
  physicsRef (fst (gameLoop M mode keys time E))
  = match snd (gameLoop M mode keys time E) with
    | ResetOutcome => physics (blueprintOf mode)
    | _ => physicsRef E
    end.
Proof.
  unfold gameLoop. destruct (negb (isRunning mode)); [reflexivity|].
  destruct (frameLoop M keys time E) as [fr | [] fr]; cbn [fst snd].
  - reflexivity.
  - unfold resetLevel, blueprintOf, setupLevel, alloc.
    destruct (gameState mode), (isEditorTesting mode);
      match goal with
      | |- context [instantiateAll ?h ?es] => destruct (instantiateAll h es)
      end; reflexivity.
  - destruct (gameState mode); reflexivity.
Qed.

Lemma frames_physics (M : MathLib) (mode : Mode) (inputs : list (Keys * Q)) :
  forall E,
    (Forall (fun o => o <> ResetOutcome) (snd (frames M mode inputs E)) ->
     physicsRef (fst (frames M mode inputs E)) = physicsRef E)
    /\ (last (snd (frames M mode inputs E)) = Some ResetOutcome ->
        physicsRef (fst (frames M mode inputs E))
        = physics (blueprintOf mode)).
Proof.
  induction inputs as [|[keys time] rest IH]; intros E;
    [split; [reflexivity | discriminate]|].
  cbn [frames].
  pose proof (gameLoop_physics M mode keys time E) as Hg.
  destruct (gameLoop M mode keys time E) as [E1 o].
  cbn [fst snd] in Hg.
  destruct (requestsNext o) eqn:Hnext.
  2:{ cbn [fst snd last]. split.
      - intros _. rewrite Hg. destruct o; try reflexivity; discriminate.
      - intros [= ->]. discriminate. }
  destruct (IH E1) as [IH1 IH2].
  destruct (frames M mode rest E1) as [E2 os] eqn:Hrest.
  cbn [fst snd] in *. split.
  - intros Hall. apply Forall_cons in Hall as [Ho Hos].
    rewrite (IH1 Hos), Hg. destruct o; try reflexivity. contradiction.
  - destruct os as [|o1 os1].
    + cbn [last]. intros [= ->].
      assert (HE : E2 = E1).
      { destruct rest as [|[k t] rest']; cbn [frames] in Hrest.
        - injection Hrest as <-. reflexivity.
        - destruct (gameLoop M mode k t E1) as [E3 o3].
          destruct (requestsNext o3); [|discriminate].
          destruct (frames M mode rest' E3). discriminate. }
      rewrite HE. exact Hg.
    + rewrite last_cons_cons. exact IH2.
Qed.

(** X13.  A change of the physics made while a level is played or tested
    does not touch the blueprint, and the frames that the loop goes on to
    run in that state keep it, up to the frame in which the player reaches
    the exit (the last one that the loop runs in that state): after any
    number of them of which none ends by the death of the player, the
    physics are those that were set; after one that ends by a death, they
    are those of the blueprint again. *)
Theorem physics_hack_lasts_until_death (M : MathLib) (closure : Mode)
    (updates : list PhysicsAssign) (c : Component)
    (inputs : list (Keys * Q)) :
  building closure = false ->
  let c' := handleUpdatePhysics closure updates c in
  let hacked := spreadPhysics (physicsRef (c_engine c)) updates in
  let run := frames M (c_mode c') inputs (c_engine c') in
  c_mode c' = c_mode c
  /\ physicsRef (c_engine c') = hacked
  /\ (Forall (fun o => o <> ResetOutcome) (snd run) ->
      physicsRef (fst run) = hacked)
  /\ (last (snd run) = Some ResetOutcome ->
      physicsRef (fst run) = physics (blueprintOf (c_mode c))).
Proof.
  intros Hb. cbv zeta. unfold handleUpdatePhysics. rewrite Hb.
  cbn [c_mode c_engine].
  split; [reflexivity|]. split; [reflexivity|].
  apply (frames_physics M (c_mode c) inputs
           (with_physicsRef (c_engine c)
              (spreadPhysics (physicsRef (c_engine c)) updates))).
Qed.

(** In the test of the level with the enemy, the gravity is set to 0 and a
    frame runs. *)
Lemma physics_hack_lasts_until_death_witness :
  let c := Scenario.test_component in
  let c' := handleUpdatePhysics (c_mode c) [p_gravity 0] c in
  let run := frames Host.math (c_mode c') [(Scenario.noKeys, 50)]
               (c_engine c') in
  snd run = [Committed]
  /\ physicsRef (fst run)
     = {| gravity := 0; friction := 0.85; timeScale := 1 |}.
Proof.
  cbv zeta.
  assert (Hrun : snd (frames Host.math
                        (c_mode (handleUpdatePhysics
                                   (c_mode Scenario.test_component)
                                   [p_gravity 0] Scenario.test_component))
                        [(Scenario.noKeys, 50)]
                        (c_engine (handleUpdatePhysics
                                     (c_mode Scenario.test_component)
                                     [p_gravity 0] Scenario.test_component)))
                 = [Committed]) by (vm_compute; reflexivity).
  split; [exact Hrun|].
  destruct (physics_hack_lasts_until_death Host.math
              (c_mode Scenario.test_component) [p_gravity 0]
              Scenario.test_component [(Scenario.noKeys, 50)])
    as (_ & _ & H & _); [reflexivity|].
  cbv zeta in H. rewrite H; [reflexivity|].
  rewrite Hrun. repeat constructor. discriminate.
Defined.

(** ** The behaviour chosen in the inspector *)

Lemma patrolBehavior_guard (M : MathLib) (h : Heap) (e : GameEntity) :
  patrols e = false -> patrolBehavior M h e = (h, e).
Proof.
  unfold patrols, patrolBehavior.
  destruct (patrolStart e), (patrolEnd e); try reflexivity.
  rewrite !andb_true_r. intros ->. reflexivity.
Qed.

Lemma turretBehavior_guard (M : MathLib) (time : Q) (fr : Frame)
    (e : GameEntity) :
  shoots e = false -> turretBehavior M time fr e = (fr, e).
Proof.
  unfold shoots, turretBehavior.
  destruct (fireRate e); [|reflexivity]. intros ->. reflexivity.
Qed.

Lemma or_default_truthy (o : option Q) (d : Q) :
  Num.truthy d = true -> Num.truthy (Num.or_default o d) = true.
Proof.
  intros Hd. unfold Num.or_default. destruct o as [a|]; [|exact Hd].
  destruct (Num.truthy a) eqn:Ha; assumption.
Qed.

(** X14.  While the editor builds, the behaviour chosen in the inspector
    for the selected entity is the one that the frame runs for it.  The
    entities of the blueprint that have its identifier are given the
    behaviour with its defaults, the others are left as they are, and no
    object is written; once set up by [setupLevel], an entity that was
    given [PATROL] passes the guard of the patrol block and not that of the
    turret block, and is not static; one that was given [TURRET] passes
    the guard of the turret block (its [fireRate] is not zero) and not
    that of the patrol block, and is static; one that was given [DEFAULT]
    passes neither, and is static.  A block whose guard is not passed
    leaves the entity and the frame as they are. *)
Theorem behaviour_chosen_in_the_inspector_is_the_one_that_runs
    (c : Component) (entity : EntityTemplate) (b : Behavior) :
  building (c_mode c) = true ->
  id entity <> "ghost_player"%string ->
  let c' := handleBehaviorChange (c_mode c) (Some entity) b c in
  heap (c_engine c') = heap (c_engine c)
  /\ Forall2
       (fun e e' =>
          if String.eqb (id e) (id entity) then
            forall h0,
              let g := snd (instantiate h0 e') in
              patrols g = Behavior_is PATROL (Some b)
              /\ shoots g = Behavior_is TURRET (Some b)
              /\ isStatic g = negb (Behavior_is PATROL (Some b))
              /\ pos g = pos e /\ size g = size e
          else e' = e)
       (entities (editorLevel (c_mode c)))
       (entities (editorLevel (c_mode c')))
  /\ (forall M h e, patrols e = false -> patrolBehavior M h e = (h, e))
  /\ (forall M time fr e,
        shoots e = false -> turretBehavior M time fr e = (fr, e)).
Proof.
  intros Hb Hi. cbv zeta.
  unfold handleBehaviorChange, handleEntityChange, handleUpdateEntity.
  rewrite Hb.
  destruct (String.eqb_spec (id entity) "ghost_player"); [contradiction|].
  cbn [c_mode c_engine c_editorEntities editorLevel with_editorLevel
       with_entities entities sound heap].
  split; [reflexivity|].
  split; [|split; [apply patrolBehavior_guard | apply turretBehavior_guard]].
  unfold updateById. apply Forall2_fmap_r, Forall_Forall2_diag.
  apply Forall_forall. intros e _. unfold compose. cbv beta.
  destruct (String.eqb (id e) (id entity)); [|reflexivity].
  intros h0. cbv zeta.
  assert (Ht : Num.truthy (Num.or_default (fireRate entity) 2000) = true)
    by (apply or_default_truthy; reflexivity).
  destruct b;
    cbn [behaviorUpdates spread fold_left assign
         id type name pos size velocity isStatic isSolid isVisible isLocked
         isDeadly isAlwaysVisible gravityScale behavior origin patrolStart
         patrolEnd patrolSpeed fireRate projectileSpeed lastFireTime];
    unfold instantiate; cbn [velocity]; destruct (velocity e);
    cbn [snd]; unfold patrols, shoots;
    cbn [behavior patrolStart patrolEnd isStatic fireRate pos size
         Behavior_is andb negb];
    rewrite ?Ht; auto.
Qed.

(** The enemy dropped in the editor is made a turret. *)
Lemma behaviour_chosen_in_the_inspector_is_the_one_that_runs_witness :
  let c := Scenario.workshop_enemy in
  let entity :=
    default (ghost_player 0%nat 0%nat) (c_editorEntities c !! 0%nat) in
  let c' := handleBehaviorChange (c_mode c) (Some entity) TURRET c in
  heap (c_engine c') = heap (c_engine c)
  /\ Forall2
       (fun e e' =>
          if String.eqb (id e) (id entity) then
            forall h0,
              let g := snd (instantiate h0 e') in
              patrols g = Behavior_is PATROL (Some TURRET)
              /\ shoots g = Behavior_is TURRET (Some TURRET)
              /\ isStatic g = negb (Behavior_is PATROL (Some TURRET))
              /\ pos g = pos e /\ size g = size e
          else e' = e)
       (entities (editorLevel (c_mode c)))
       (entities (editorLevel (c_mode c'))).
Proof.
  cbv zeta.
  destruct (behaviour_chosen_in_the_inspector_is_the_one_that_runs
              Scenario.workshop_enemy
              (default (ghost_player 0%nat 0%nat)
                 (c_editorEntities Scenario.workshop_enemy !! 0%nat))
              TURRET) as (H1 & H2 & _);
    [reflexivity | discriminate | split; assumption].
Defined.

(** ** The turret and its projectile *)

(** X15.  A projectile does not spawn inside its turret: when the cosine
    and the sine of the angle of the aim are those of an angle (their
    squares add up to 1), the rectangle of the projectile at its spawn
    position, 10 by 10, does not collide with the rectangle of a turret of
    width [w] and height [h] with [(w + 10)^2 + (h + 10)^2 <= 70^2], as is
    the turret of 30 by 30 that the editor makes: the centre of the
    projectile is 35 away from the centre of the turret. *)
Theorem projectile_spawns_clear_of_its_turret (M : MathLib) (h : Heap)
    (ent player : GameEntity) (fireVelocity spawnPos : Vector2) :
  let c := center (rectOf h ent) in
  let pc := center (rectOf h player) in
  let angle := Math_atan2 M (y pc - y c) (x pc - x c) in
  Math_cos M angle ^ 2 + Math_sin M angle ^ 2 == 1 ->
  0 <= x (size ent) -> 0 <= y (size ent) ->
  (x (size ent) + 10) ^ 2 + (y (size ent) + 10) ^ 2 <= 70 ^ 2 ->
  turretAim M h ent (Some player) = Some (fireVelocity, spawnPos) ->
  checkCollision {| r_pos := spawnPos; r_size := {| x := 10; y := 10 |} |}
    (rectOf h ent) = false.
Proof.
  cbv zeta. intros Htrig Hw Hh Hsize. unfold turretAim.
  destruct (isVisible player); [|discriminate].
  destruct (Num.ltb _ 500); [|discriminate].
  intros [= _ <-].
  set (co := Math_cos M _) in *. set (si := Math_sin M _) in *.
  apply not_true_iff_false. unfold checkCollision, rectOf, center.
  cbn [r_pos r_size x y].
  rewrite !andb_true_iff, !ltb_lt, !gtb_gt.
  set (tx := x (deref h (pos ent))). set (ty := y (deref h (pos ent))).
  set (w := x (size ent)) in *. set (hh := y (size ent)) in *.
  intros [[[H1 H2] H3] H4]. clearbody co si tx ty w hh.
  unfold Qdiv in H1, H2, H3, H4. change (/ 2) with (1 # 2) in *.
  assert (Hc1 : 70 * co < w + 10) by lra.
  assert (Hc2 : - (w + 10) < 70 * co) by lra.
  assert (Hs1 : 70 * si < hh + 10) by lra.
  assert (Hs2 : - (hh + 10) < 70 * si) by lra.
  assert (Hco : (70 * co) ^ 2 < (w + 10) ^ 2) by nra.
  assert (Hsi : (70 * si) ^ 2 < (hh + 10) ^ 2) by nra.
  nra.
Qed.

(** The turret of the turret scenario aims at the player, who is level
    with it to the right: the cosine is 1 and the sine 0. *)
Lemma projectile_spawns_clear_of_its_turret_witness :
  let E := Scenario.turret_world in
  let ent := default (player_entity 0%nat 0%nat) (entitiesRef E !! 0%nat) in
  let player := default (player_entity 0%nat 0%nat) (entitiesRef E !! 1%nat) in
  let aim :=
    default (zero2, zero2) (turretAim Host.math (heap E) ent (Some player)) in
  checkCollision {| r_pos := snd aim; r_size := {| x := 10; y := 10 |} |}
    (rectOf (heap E) ent) = false.
Proof.
  cbv zeta.
  apply (projectile_spawns_clear_of_its_turret Host.math
           (heap Scenario.turret_world) _
           (default (player_entity 0%nat 0%nat)
              (entitiesRef Scenario.turret_world !! 1%nat))
           (fst (default (zero2, zero2)
                   (turretAim Host.math (heap Scenario.turret_world)
                      (default (player_entity 0%nat 0%nat)
                         (entitiesRef Scenario.turret_world !! 0%nat))
                      (Some (default (player_entity 0%nat 0%nat)
                               (entitiesRef Scenario.turret_world
                                  !! 1%nat))))))).
  - vm_compute. reflexivity.
  - apply Qle_bool_imp_le. vm_compute. reflexivity.
  - apply Qle_bool_imp_le. vm_compute. reflexivity.
  - apply Qle_bool_imp_le. vm_compute. reflexivity.
  - vm_compute. reflexivity.
Defined.

(** ** The order of the levels *)

Lemma find_level (ls : list LevelData) :
  forall (s j : nat) (q : Q),
    Forall2 (fun l k => level_id l == inject_Z (Z.of_nat k)) ls
      (seq s (length ls)) ->
    (j < length ls)%nat ->
    q == inject_Z (Z.of_nat (s + j)) ->
    List.find (fun l => Num.eqb (level_id l) q) ls = ls !! j.
Proof.
  induction ls as [|l ls IH]; intros s j q Hids Hj Hq; [cbn in Hj; lia|].
  cbn [length seq] in Hids. apply Forall2_cons in Hids as [Hl Hids].
  cbn [List.find].
  destruct (Num.eqb (level_id l) q) eqn:He.
  - apply eqb_eq in He. rewrite Hl, Hq in He.
    unfold Qeq, inject_Z in He. cbn [Qnum Qden] in He.
    assert (j = 0%nat) by lia. subst j. reflexivity.
  - apply eqb_neq in He. destruct j as [|j].
    + exfalso. apply He. rewrite Hl, Hq. rewrite Nat.add_0_r. reflexivity.
    + cbn [lookup list_lookup]. apply (IH (S s) j q Hids); [cbn in Hj; lia|].
      rewrite Hq. replace (s + S j)%nat with (S s + j)%nat by lia.
      reflexivity.
Qed.

(** X16.  When the levels of the table have the identifiers 1, 2, ... in
    the order of the table, they are played in that order: a level with
    the identifier [k] being complete, the component goes on to the level
    that follows it in the table and sets it up, and after the last one the
    game is won.  (The end of the game is decided by comparing the
    identifier of the level with the number of levels.) *)
Theorem levels_are_played_in_the_order_of_the_table (c : Component)
    (k : nat) :
  let mode := c_mode c in
  gameState mode = PLAYING ->
  Forall2 (fun l j => level_id l == inject_Z (Z.of_nat j)) (LEVELS mode)
    (seq 1 (length (LEVELS mode))) ->
  (1 <= k <= length (LEVELS mode))%nat ->
  currentLevelId mode == inject_Z (Z.of_nat k) ->
  let c' := initEffect (handleLevelComplete mode c) in
  match LEVELS mode !! k with
  | Some following =>
      gameState (c_mode c') = PLAYING
      /\ currentLevelId (c_mode c') == inject_Z (Z.of_nat (S k))
      /\ c_engine c' = setupLevel following (c_engine c)
  | None =>
      gameState (c_mode c') = WON
      /\ c_engine c' = sound (c_engine c) sfxWin
  end.
Proof.
  cbv zeta. intros Hplay Hids Hk Hcur.
  unfold handleLevelComplete.
  destruct (LEVELS (c_mode c) !! k) as [following|] eqn:Hnext.
  - pose proof (lookup_lt_Some _ _ _ Hnext) as Hlt.
    assert (Hltb : Num.ltb (currentLevelId (c_mode c))
                     (inject_Z (Z.of_nat (length (LEVELS (c_mode c)))))
                   = true).
    { apply ltb_lt. rewrite Hcur, <- Zlt_Qlt. lia. }
    rewrite Hltb. unfold initEffect.
    cbn [c_mode c_engine gameState with_currentLevelId]. rewrite Hplay.
    cbn [c_mode c_engine]. split; [exact Hplay|].
    assert (Hid : currentLevelId (c_mode c) + 1 == inject_Z (Z.of_nat (S k))).
    { rewrite Hcur, Nat2Z.inj_succ, <- Z.add_1_r, inject_Z_plus.
      reflexivity. }
    split; [exact Hid|].
    f_equal. unfold currentLevel.
    cbn [LEVELS_first LEVELS_rest currentLevelId with_currentLevelId].
    change (LEVELS_first (c_mode c) :: LEVELS_rest (c_mode c))
      with (LEVELS (c_mode c)).
    rewrite (find_level (LEVELS (c_mode c)) 1 k _ Hids Hlt Hid), Hnext.
    reflexivity.
  - apply lookup_ge_None in Hnext.
    assert (Hltb : Num.ltb (currentLevelId (c_mode c))
                     (inject_Z (Z.of_nat (length (LEVELS (c_mode c)))))
                   = false).
    { apply ltb_ge. rewrite Hcur, <- Zle_Qle. lia. }
    rewrite Hltb. unfold initEffect. cbn. auto.
Qed.

(** The first of two levels is complete: the second one is set up. *)
Lemma levels_are_played_in_the_order_of_the_table_witness :
  let c := Scenario.campaign in
  let c' := initEffect (handleLevelComplete (c_mode c) c) in
  gameState (c_mode c') = PLAYING
  /\ currentLevelId (c_mode c') == 2
  /\ c_engine c' = setupLevel Scenario.second_level (c_engine c).
Proof.
  cbv zeta.
  apply (levels_are_played_in_the_order_of_the_table Scenario.campaign 1).
  - reflexivity.
  - repeat constructor; reflexivity.
  - cbn. lia.
  - reflexivity.
Defined.

(** ** The music *)

Lemma stopMusic_oneSequencer (a : AudioEngine) :
  oneSequencer a ->
  oneSequencer (stopMusic a) /\ intervals (stopMusic a) = [].
Proof.
  intros [Hi Hn]. unfold stopMusic, oneSequencer.
  destruct (musicInterval a) as [handle|]; cbn.
  - rewrite Hi. cbn. rewrite Pos.eqb_refl. cbn. tauto.
  - rewrite Hi. tauto.
Qed.

Lemma startMusic_oneSequencer (track : Track) (a : AudioEngine) :
  track <> none -> oneSequencer a -> oneSequencer (startMusic track a).
Proof.
  intros Ht Ha. unfold startMusic.
  destruct (Track_eqb (currentTrack a) track); [exact Ha|].
  destruct (stopMusic_oneSequencer a Ha) as [_ Hnil].
  unfold oneSequencer. cbn. rewrite Hnil. split; [reflexivity|].
  split; [discriminate | intros; contradiction].
Qed.

(** X17.  Whatever the component asks of the music, on mount, at the
    first gesture of the user and after the renders, at most one sequencer
    plays: after every call the only interval that is set, if any, is the
    one the audio engine holds the handle of, it plays the track the
    engine has as its current one, and there is none exactly when no track
    is current. *)
Theorem at_most_one_sequencer_plays (calls : list MusicCall) :
  let a := fold_left musicCall calls initialAudio in
  intervals a
  = match musicInterval a with
    | Some handle => [(handle, currentTrack a)]
    | None => []
    end
  /\ (musicInterval a = None <-> currentTrack a = none).
Proof.
  cbv zeta. change (oneSequencer (fold_left musicCall calls initialAudio)).
  assert (Hinit : oneSequencer initialAudio)
    by (split; [reflexivity | split; reflexivity]).
  revert Hinit. generalize initialAudio.
  induction calls as [|call rest IH]; intros a Ha; [exact Ha|].
  cbn [fold_left]. apply IH.
  assert (Hmenu : oneSequencer (startMusic menu a))
    by (apply startMusic_oneSequencer; [discriminate | exact Ha]).
  assert (Hgame : oneSequencer (startMusic game a))
    by (apply startMusic_oneSequencer; [discriminate | exact Ha]).
  assert (Hstop : oneSequencer (stopMusic a))
    by (apply stopMusic_oneSequencer; exact Ha).
  destruct call as [running mode | mode | running mode];
    unfold musicCall, mountEffect, handleUserGesture, musicEffect;
    try destruct running; destruct (gameState mode);
    try destruct (isEditorTesting mode); assumption.
Qed.

(** ** The sound log of a frame *)

Lemma turretBehavior_audio (M : MathLib) (time : Q) (fr : Frame)
    (ent : GameEntity) :
  exists news,
    f_audio (fst (turretBehavior M time fr ent)) = f_audio fr ++ news
    /\ Forall (fun s => quiet s = true) news.
Proof.
  destruct (turretBehavior_cases M time fr ent)
    as [[_ ->] | [_ (rate & fv & sp & _ & _ & _ & _ & _ & _ & ->)]].
  - exists []. rewrite app_nil_r. split; [reflexivity | constructor].
  - exists [sfxShoot]. split; [reflexivity | repeat constructor].
Qed.

Lemma playerControl_audio (phys : GlobalPhysics) (deltaTime time : Q)
    (keys : Keys) (ent : GameEntity) (fr : Frame) :
  exists news,
    f_audio (playerControl phys deltaTime time keys ent fr)
    = f_audio fr ++ news
    /\ Forall (fun s => quiet s = true) news.
Proof.
  assert (Hnone : forall l : list Sfx,
            exists news, l = l ++ news
                         /\ Forall (fun s => quiet s = true) news)
    by (intros l; exists []; rewrite app_nil_r; split;
        [reflexivity | constructor]).
  assert (Hstep : forall l : list Sfx,
            exists news, l ++ [sfxStep] = l ++ news
                         /\ Forall (fun s => quiet s = true) news)
    by (intros l; exists [sfxStep]; split;
        [reflexivity | repeat constructor]).
  unfold playerControl.
  destruct (heldRight keys || heldLeft keys).
  - match goal with
    | |- context [if ?c then step_sound _ _ else _] => destruct c
    end; cbn; auto.
  - destruct (f_targetX fr) as [targetX|]; [|cbn; auto].
    destruct (Num.ltb _ 5); [cbn; auto|].
    match goal with
    | |- context [if ?c then step_sound _ _ else _] => destruct c
    end; cbn; auto.
Qed.

Lemma finishEntity_audio (keys : Keys) (i : nat) (fr : Frame)
    (ent : GameEntity) (grounded : bool) :
  soundsOf (f_audio fr) (finishEntity keys i fr ent grounded).
Proof.
  unfold finishEntity.
  destruct (Num.gtb _ _ && is_player ent).
  { exists []. split; [reflexivity | constructor]. }
  match goal with
  | |- context [if ?c then setHeap (play fr sfxJump) ?h else fr] =>
      set (fr1 := if c then setHeap (play fr sfxJump) h else fr);
      assert (Ha : exists news,
                f_audio fr1 = f_audio fr ++ news
                /\ Forall (fun s => quiet s = true) news)
        by (subst fr1; destruct c;
            [exists [sfxJump]; split; [reflexivity | repeat constructor]
            | exists []; rewrite app_nil_r; split;
              [reflexivity | constructor]])
  end.
  match goal with
  | |- context [if ?c then Stop ReachedExit _ else _] => destruct c
  end; exact Ha.
Qed.

Lemma soundsOf_after (log : list Sfx) (news : list Sfx) (f : Flow Frame) :
  Forall (fun s => quiet s = true) news ->
  soundsOf (log ++ news) f -> soundsOf log f.
Proof.
  intros Hn. destruct f as [fr | [] fr]; cbn [soundsOf];
    intros (more & Ha & Hm); exists (news ++ more);
    (split; [rewrite Ha, <- ?app_assoc; reflexivity
            | apply Forall_app; split; assumption]).
Qed.

Lemma sweep_stop_died (step : Mover -> GameEntity -> Flow Mover)
    (others : list GameEntity) :
  (forall m other sig m', step m other = Stop sig m' -> sig = Died) ->
  forall m sig m', sweep step others m = Stop sig m' -> sig = Died.
Proof.
  intros Hstep. induction others as [|other rest IH]; intros m sig m';
    cbn [sweep]; [discriminate|].
  destruct (step m other) as [m1 | sig1 m1] eqn:H1.
  - apply IH.
  - intros [= <- <-]. exact (Hstep _ _ _ _ H1).
Qed.

Lemma sweepX_step_stop_died (entRectX : Rect) (m : Mover)
    (other : GameEntity) (sig : Signal) (m' : Mover) :
  sweepX_step entRectX m other = Stop sig m' -> sig = Died.
Proof.
  unfold sweepX_step.
  repeat match goal with
         | |- context [if ?c then _ else _] => destruct c
         end; congruence.
Qed.

Lemma sweepY_step_stop_died (entRectY : Rect) (m : Mover)
    (other : GameEntity) (sig : Signal) (m' : Mover) :
  sweepY_step entRectY m other = Stop sig m' -> sig = Died.
Proof.
  unfold sweepY_step.
  repeat match goal with
         | |- context [if ?c then _ else _] => destruct c
         end; congruence.
Qed.

Lemma moveX_stop_died (deltaTime : Q) (fr : Frame) (ent : GameEntity)
    (sig : Signal) (m' : Mover) :
  moveX deltaTime fr ent = Stop sig m' -> sig = Died.
Proof.
  unfold moveX.
  repeat match goal with
         | |- context [let '(_, _) := ?p in _] => destruct p
         end.
  apply sweep_stop_died. intros m other. apply sweepX_step_stop_died.
Qed.

Lemma moveY_stop_died (deltaTime : Q) (fr : Frame) (ent : GameEntity)
    (sig : Signal) (m' : Mover) :
  moveY deltaTime fr ent = Stop sig m' -> sig = Died.
Proof.
  unfold moveY.
  apply sweep_stop_died. intros m other. apply sweepY_step_stop_died.
Qed.

Lemma resolveEntity_audio (phys : GlobalPhysics) (deltaTime time : Q)
    (keys : Keys) (i : nat) (fr : Frame) (ent : GameEntity) :
  soundsOf (f_audio fr) (resolveEntity phys deltaTime time keys i fr ent).
Proof.
  unfold resolveEntity.
  destruct (isStatic ent).
  { exists []. rewrite app_nil_r. split; [reflexivity | constructor]. }
  set (fr3 := setHeap fr (applyGravity phys deltaTime (f_heap fr) ent)).
  set (fr4 := if is_player ent
              then playerControl phys deltaTime time keys ent fr3
              else fr3).
  assert (H4 : exists news,
            f_audio fr4 = f_audio fr ++ news
            /\ Forall (fun s => quiet s = true) news).
  { subst fr4. destruct (is_player ent).
    - apply (playerControl_audio phys deltaTime time keys ent fr3).
    - exists []. rewrite app_nil_r. split; [reflexivity | constructor]. }
  destruct H4 as (news & Ha4 & Hn4).
  apply (soundsOf_after _ news); [exact Hn4|]. rewrite <- Ha4.
  destruct (moveX deltaTime fr4 ent) as [mx | sig mx] eqn:Hmx.
  2:{ rewrite (moveX_stop_died _ _ _ _ _ Hmx).
      exists []. split; [reflexivity | constructor]. }
  destruct (moveY deltaTime _ (m_ent mx)) as [my | sig my] eqn:Hmy.
  2:{ rewrite (moveY_stop_died _ _ _ _ _ Hmy).
      exists []. split; [reflexivity | constructor]. }
  apply (finishEntity_audio keys i
           (setHeap (frameOf (setHeap (frameOf fr4 mx)
                                (setX (m_heap mx) (pos (m_ent mx))
                                   (m_next mx))) my)
              (setY (m_heap my) (pos (m_ent my)) (m_next my)))).
Qed.

Lemma processEntity_audio (M : MathLib) (phys : GlobalPhysics)
    (deltaTime time : Q) (keys : Keys) (fr : Frame) (i : nat) :
  soundsOf (f_audio fr) (processEntity M phys deltaTime time keys fr i).
Proof.
  unfold processEntity.
  destruct (currentEntities fr !! i) as [ent|].
  2:{ exists []. rewrite app_nil_r. split; [reflexivity | constructor]. }
  unfold behaviours.
  destruct (patrolBehavior M (f_heap fr) ent) as [h1 ent1].
  destruct (turretBehavior_audio M time (setHeap fr h1) ent1)
    as (news & Ha & Hn).
  destruct (turretBehavior M time (setHeap fr h1) ent1) as [fr2 ent2].
  cbn [fst] in Ha. change (f_audio (setHeap fr h1)) with (f_audio fr) in Ha.
  apply (soundsOf_after _ news); [exact Hn|]. rewrite <- Ha.
  apply resolveEntity_audio.
Qed.

Lemma runLoop_audio (body : Frame -> nat -> Flow Frame)
    (indices : list nat) :
  (forall fr i, soundsOf (f_audio fr) (body fr i)) ->
  forall fr, soundsOf (f_audio fr) (runLoop body indices fr).
Proof.
  intros Hbody. induction indices as [|i rest IH]; intros fr; cbn [runLoop].
  { exists []. rewrite app_nil_r. split; [reflexivity | constructor]. }
  pose proof (Hbody fr i) as Hi.
  destruct (body fr i) as [fr1 | sig fr1]; [|exact Hi].
  destruct Hi as (news & Ha & Hn).
  apply (soundsOf_after _ news); [exact Hn|]. rewrite <- Ha. apply IH.
Qed.

Lemma setupLevel_audio (level : LevelData) (E : Engine) :
  audio (setupLevel level E) = audio E.
Proof.
  unfold setupLevel.
  destruct (alloc (heap E) _) as [h1 ppos].
  destruct (alloc h1 zero2) as [h2 pvel].
  destruct (instantiateAll h2 (entities level)) as [h3 es].
  reflexivity.
Qed.

(** X18. What a frame adds to the sound log, by the way it ends: a frame
    that is committed plays nothing but shots, jumps and steps; the cue of
    the death is played by the frames that set the level up again, once and
    as their last cue, and the cues of the exit ([sfxLevelComplete], and
    [sfxWin] in an editor test) by the frames that reach the exit, in the
    same way; a frame of a loop that does not run plays nothing.  Nothing
    is ever removed from what was played. *)
Theorem cues_of_a_frame (M : MathLib) (mode : Mode) (keys : Keys) (time : Q)
    (E : Engine) :
  exists news,
    audio (fst (gameLoop M mode keys time E))
    = audio E ++ news ++ closingCue (snd (gameLoop M mode keys time E))
    /\ Forall (fun s => quiet s = true) news
    /\ (isRunning mode = false -> news = []).
Proof.
  unfold gameLoop. destruct (isRunning mode) eqn:Hrun; cbn [negb].
  2:{ exists []. cbn. rewrite app_nil_r. repeat split; constructor. }
  pose proof (runLoop_audio
                (processEntity M (physicsRef E)
                   (deltaTimeOf (time - lastTimeRef E)
                      (timeScale (physicsRef E))) time keys)
                (seq 0 (length (currentEntities (startFrame E))))
                (processEntity_audio M (physicsRef E) _ time keys)
                (startFrame E)) as Hs.
  fold (frameLoop M keys time E) in Hs.
  change (f_audio (startFrame E)) with (audio E) in Hs.
  destruct (frameLoop M keys time E) as [fr | [] fr]; cbn [soundsOf] in Hs;
    destruct Hs as (news & Ha & Hn); exists news.
  - cbn [fst snd closingCue engineOf audio]. rewrite app_nil_r.
    repeat split; [exact Ha | exact Hn | discriminate].
  - cbn [fst snd closingCue].
    unfold resetLevel.
    destruct (gameState mode), (isEditorTesting mode);
      rewrite setupLevel_audio; cbn [engineOf audio];
      (repeat split; [exact Ha | exact Hn | discriminate]).
  - destruct (gameState mode);
      cbn [fst snd closingCue engineOf audio play f_audio];
      rewrite Ha, <- app_assoc;
      (repeat split; [exact Hn | discriminate]).
Qed.

(** ** Order of the updates within a frame, in general *)

Lemma startX_ok (p v : ref) (deltaTime : Q) (fr : Frame) (ent : GameEntity) :
  pos ent = p -> velocity ent = v ->
  moverOK p v (f_heap fr) (snd (startX deltaTime fr ent)).
Proof.
  intros Hp Hv. unfold startX.
  match goal with
  | |- context [if ?c then with_isVisible ent false else ent] =>
      set (ent1 := if c then with_isVisible ent false else ent)
  end.
  assert (Hent1 : pos ent1 = p /\ velocity ent1 = v).
  { subst ent1. destruct (_ && _); split; assumption. }
  destruct Hent1 as [Hp1 Hv1].
  destruct (Num.ltb _ 0);
    match goal with |- context [Num.gtb ?a ?b] => destruct (Num.gtb a b) end;
    cbn [snd]; (split; [assumption|]; split; [assumption|]); cbn [m_heap];
    rewrite ?Hv; repeat (apply sameBut_setX; [|auto]); apply sameBut_refl.
Qed.

Lemma startY_ok (p v : ref) (deltaTime : Q) (fr : Frame) (ent : GameEntity) :
  pos ent = p -> velocity ent = v ->
  moverOK p v (f_heap fr) (snd (startY deltaTime fr ent)).
Proof.
  intros Hp Hv. split; [assumption|]. split; [assumption|].
  apply sameBut_refl.
Qed.

Lemma forces_ok (p v : ref) (phys : GlobalPhysics) (deltaTime time : Q)
    (keys : Keys) (fr : Frame) (ent : GameEntity) :
  velocity ent = v ->
  let fr' := forces phys deltaTime time keys fr ent in
  sameBut p v (f_heap fr) (f_heap fr')
  /\ currentEntities fr' = currentEntities fr
  /\ newProjectiles fr' = newProjectiles fr.
Proof.
  intros Hv. cbv zeta. unfold forces.
  set (fr3 := setHeap fr (applyGravity phys deltaTime (f_heap fr) ent)).
  assert (H3 : sameBut p v (f_heap fr) (f_heap fr3)).
  { subst fr3. cbn. unfold applyGravity.
    apply sameBut_setY; [apply sameBut_refl | auto]. }
  destruct (is_player ent); [|split; [assumption | split; reflexivity]].
  destruct (playerControl_ok p v phys deltaTime time keys ent fr3 Hv)
    as (Hs & Hc & Hn).
  split; [eapply sameBut_trans; eassumption|].
  split; [rewrite Hc | rewrite Hn]; reflexivity.
Qed.

(** The mover of a turn of a sweep has written nothing but the velocity of
    its entity. *)
Lemma sweep_prefix_ok (p v : ref) (h : Heap)
    (step : Mover -> GameEntity -> Flow Mover) (others : list GameEntity)
    (m0 m : Mover) (j : nat) :
  (forall m other, moverOK p v h m -> after (moverOK p v h) (step m other)) ->
  moverOK p v h m0 ->
  sweep step (take j others) m0 = Go m ->
  moverOK p v h m.
Proof.
  intros Hstep H0 Hm.
  pose proof (sweep_ok p v step h Hstep (take j others) m0 H0) as Hok.
  rewrite Hm in Hok. exact Hok.
Qed.

(** A sweep that runs to its end has reached every one of its turns. *)
Lemma sweep_prefix_go (step : Mover -> GameEntity -> Flow Mover)
    (others : list GameEntity) (m0 mEnd : Mover) (j : nat) :
  sweep step others m0 = Go mEnd ->
  exists m, sweep step (take j others) m0 = Go m.
Proof.
  revert m0 j. induction others as [|o rest IH]; intros m0 j Hend.
  - rewrite take_nil. eauto.
  - destruct j as [|j]; [cbn; eauto|].
    cbn [sweep take] in *. destruct (step m0 o) as [m1 | sig m1];
      [|discriminate].
    eapply IH; eassumption.
Qed.

(** C1, as amended.  In a frame that is committed, over entities none of
    which shares an object with another, let [fr] be the state in which
    the loop reaches the entity at index [i], which is not static.  Its
    turn runs the sweep on X from the state that the AI logic, the forces
    and the control leave, then the sweep on Y, to their ends, and
    finishes from what they give.  In both sweeps, the turn over another
    entity, at an index [j], is the turn in which that entity stands at
    the position it had at the start of the frame when [j > i] (it is not
    resolved yet in this frame), and at the position that the frame
    commits for it when [j < i] (it was resolved earlier in this frame):
    the collision test is made against its rectangle there, and on Y the
    entity is put on it, or under it, there.  Entities that share no
    object are what [setupLevel] makes from a blueprint whose entities
    share none, and what a committed frame leaves. *)
Theorem entity_observes_sequential_updates (M : MathLib) (mode : Mode)
    (keys : Keys) (time : Q) (E E' : Engine) (i : nat) (fr : Frame)
    (ent : GameEntity) :
  wellFormed (heap E) (entitiesRef E) ->
  gameLoop M mode keys time E = (E', Committed) ->
  frameBefore M keys time E i = Go fr ->
  currentEntities fr !! i = Some ent ->
  isStatic ent = false ->
  let phys := physicsRef E in
  let dt := deltaTimeOf (time - lastTimeRef E) (timeScale phys) in
  let entX := snd (behaviours M time fr ent) in
  let frX := forces phys dt time keys (fst (behaviours M time fr ent)) entX in
  let rX := fst (startX dt frX entX) in
  let mX0 := snd (startX dt frX entX) in
  exists frEnd mx my,
    let frY := placeX frX mx in
    let rY := fst (startY dt frY (m_ent mx)) in
    let mY0 := snd (startY dt frY (m_ent mx)) in
    frameLoop M keys time E = Go frEnd
    /\ heap E' = f_heap frEnd
    /\ (forall j,
          ((i <= j)%nat -> observedPos fr j = observedPos (startFrame E) j)
          /\ ((j < i)%nat ->
              currentEntities fr !! j = currentEntities frEnd !! j
              /\ observedPos fr j = observedPos frEnd j))
    /\ sweep (sweepX_step rX) (currentEntities fr) mX0 = Go mx
    /\ sweep (sweepY_step rY) (currentEntities fr) mY0 = Go my
    /\ moveX dt frX entX = Go mx
    /\ moveY dt frY (m_ent mx) = Go my
    /\ processEntity M phys dt time keys fr i
       = finishEntity keys i (placeY frY my) (m_ent my) (m_grounded my)
    /\ forall j other p,
         j <> i ->
         currentEntities fr !! j = Some other ->
         observedPos (if (j <? i)%nat then frEnd else startFrame E) j
         = Some p ->
         (exists m,
            sweep (sweepX_step rX) (take j (currentEntities fr)) mX0 = Go m
            /\ sweepX_step rX m other = sweepX_step_seeing p rX m other)
         /\ (exists m,
               sweep (sweepY_step rY) (take j (currentEntities fr)) mY0
               = Go m
               /\ sweepY_step rY m other = sweepY_step_seeing p rY m other).
Proof.
  intros [Hvalid Hnd] Hloop Hfr Hi Hstatic. cbv zeta.
  destruct (gameLoop_committed M mode keys time E E' Hloop)
    as (frEnd & HfrEnd & ->).
  set (phys := physicsRef E).
  set (dt := deltaTimeOf (time - lastTimeRef E) (timeScale phys)).
  (* the objects of the entities in [fr] *)
  destruct (frameBefore_keeps_apart M keys time E i fr (conj Hvalid Hnd) Hfr)
    as [Hlt Hapart].
  unfold frameRefs in Hlt, Hapart.
  apply Forall_app in Hlt as [Hlt _].
  apply NoDup_app in Hapart as (Hapart & _ & _).
  destruct (refs_lookup _ _ _ Hi) as [Hpin Hvin].
  assert (Hp : (pos ent < next (f_heap fr))%nat)
    by (rewrite Forall_forall in Hlt; apply Hlt; assumption).
  assert (Hv : (velocity ent < next (f_heap fr))%nat)
    by (rewrite Forall_forall in Hlt; apply Hlt; assumption).
  (* what is read of the others in [fr] *)
  assert (Hobs : forall j,
            ((i <= j)%nat -> observedPos fr j = observedPos (startFrame E) j)
            /\ ((j < i)%nat ->
                currentEntities fr !! j = currentEntities frEnd !! j
                /\ observedPos fr j = observedPos frEnd j)).
  { intros j. split.
    - intros Hij.
      destruct (loopInv_holds M keys time E Hvalid i fr Hfr)
        as (_ & _ & Hrest & _ & Hcells).
      unfold observedPos. rewrite (Hrest j Hij).
      cbn [startFrame currentEntities f_heap].
      destruct (entitiesRef E !! j) as [o|] eqn:Hj; [|reflexivity].
      f_equal. destruct (valid_lookup E Hvalid j o Hj) as [Hpo _].
      apply Hcells; [assumption|].
      intros j' o0 Hj' Ho0.
      destruct (refs_distinct (entitiesRef E) j j' o o0 Hnd ltac:(lia) Hj Ho0)
        as (H1 & H2 & _).
      auto.
    - intros Hji.
      pose proof HfrEnd as Hend. rewrite frameLoop_frameBefore in Hend.
      assert (Hle : (i <= length (entitiesRef E))%nat).
      { destruct (loopInv_holds M keys time E Hvalid i fr Hfr) as (Hlen & _).
        apply lookup_lt_Some in Hi. lia. }
      replace (length (entitiesRef E))
        with (i + (length (entitiesRef E) - i))%nat in Hend by lia.
      destruct (later_bodies_keep M keys time E Hvalid i fr Hnd Hfr _ frEnd
                  Hend j Hji) as [He Hc].
      split; [symmetry; assumption|].
      unfold observedPos. rewrite He.
      destruct (currentEntities fr !! j) as [o|]; [|reflexivity].
      f_equal. symmetry. apply Hc. reflexivity. }
  (* the turn of the entity *)
  assert (Hturn : exists fr', processEntity M phys dt time keys fr i = Go fr').
  { destruct (loopInv_holds M keys time E Hvalid i fr Hfr) as (Hlen & _).
    pose proof (lookup_lt_Some _ _ _ Hi) as Hilt.
    pose proof HfrEnd as Hend. rewrite frameLoop_frameBefore in Hend.
    destruct (frameBefore_prefix M keys time E
                (length (entitiesRef E) - S i) (S i) frEnd) as [fr' Hfr'].
    { replace (S i + (length (entitiesRef E) - S i))%nat
        with (length (entitiesRef E)) by lia.
      exact Hend. }
    rewrite frameBefore_S, Hfr in Hfr'. eauto. }
  destruct Hturn as [fr' Hbody].
  pose proof Hbody as Hbody0.
  unfold processEntity in Hbody. rewrite Hi in Hbody.
  pose proof (behaviours_effect M time fr ent Hp Hv) as Heff.
  pose proof (behaviours_rewritten M time fr ent) as Hrw.
  cbv zeta in Heff, Hrw.
  destruct (behaviours M time fr ent) as [fr2 ent2]. cbn [fst snd] in *.
  destruct Heff as (Hc2 & Hn2 & Hd2 & Hp2 & Hv2 & _).
  destruct Hrw as (_ & [Hfixed _] & _).
  assert (Hstatic2 : isStatic ent2 = false).
  { apply (f_equal isStatic) in Hfixed. cbn in Hfixed. congruence. }
  rewrite resolveEntity_steps, Hstatic2 in Hbody.
  destruct (forces_ok (pos ent2) (velocity ent2) phys dt time keys fr2 ent2
              eq_refl) as (Hs4 & Hc4 & _).
  set (frX := forces phys dt time keys fr2 ent2) in *.
  unfold sweepsFrom in Hbody.
  destruct (moveX dt frX ent2) as [mx | sig mx] eqn:Hmx; [|discriminate].
  destruct (moveY dt (placeX frX mx) (m_ent mx)) as [my | sig my] eqn:Hmy;
    [|discriminate].
  exists frEnd, mx, my.
  assert (HcX : currentEntities frX = currentEntities fr) by congruence.
  pose proof Hmx as HsX. rewrite moveX_startX, HcX in HsX.
  pose proof Hmy as HsY. rewrite moveY_startY in HsY.
  change (currentEntities (placeX frX mx)) with (currentEntities frX) in HsY.
  rewrite HcX in HsY.
  split; [assumption|]. split; [reflexivity|]. split; [exact Hobs|].
  split; [exact HsX|]. split; [exact HsY|].
  split; [reflexivity|]. split; [exact Hmy|].
  split; [rewrite Hbody0; symmetry; exact Hbody|].
  (* the turns *)
  pose proof (startX_ok (pos ent2) (velocity ent2) dt frX ent2 eq_refl eq_refl)
    as HX0.
  pose proof (sweep_ok (pos ent2) (velocity ent2) _ (f_heap frX)
                (fun m o => sweepX_step_ok (pos ent2) (velocity ent2)
                              (f_heap frX) (fst (startX dt frX ent2)) m o)
                (currentEntities fr) _ HX0) as HmxOK.
  rewrite HsX in HmxOK. cbn [after] in HmxOK.
  destruct HmxOK as (Hpx & Hvx & Hsx).
  assert (HsY0 : sameBut (pos ent2) (velocity ent2) (f_heap frX)
                   (f_heap (placeX frX mx))).
  { unfold placeX. cbn. apply sameBut_setX; auto. }
  pose proof (startY_ok (pos ent2) (velocity ent2) dt (placeX frX mx)
                (m_ent mx) Hpx Hvx) as HY0.
  intros j other p Hji Hj Hseen.
  assert (Hread : deref (f_heap fr) (pos other) = p).
  { destruct (Hobs j) as [Hafter Hbefore].
    assert (Hfrj : observedPos fr j = Some p).
    { destruct (j <? i)%nat eqn:Hlt'.
      - apply Nat.ltb_lt in Hlt'. destruct (Hbefore Hlt') as [_ ->].
        exact Hseen.
      - apply Nat.ltb_ge in Hlt'. rewrite (Hafter Hlt'). exact Hseen. }
    unfold observedPos in Hfrj. rewrite Hj in Hfrj. congruence. }
  destruct (refs_lookup _ _ _ Hj) as [Hpoin _].
  assert (Hpo : (pos other < next (f_heap fr))%nat)
    by (rewrite Forall_forall in Hlt; apply Hlt; assumption).
  destruct (refs_distinct (currentEntities fr) j i other ent Hapart Hji Hj Hi)
    as (Hpp & Hpv & _).
  assert (Hne1 : pos other <> pos ent2) by congruence.
  assert (Hne2 : pos other <> velocity ent2)
    by (destruct Hv2 as [-> | Hnew]; [assumption | lia]).
  assert (HreadX : deref (f_heap frX) (pos other) = p).
  { destruct Hs4 as [_ Hd4]. rewrite Hd4 by assumption.
    rewrite Hd2 by assumption. exact Hread. }
  split.
  - destruct (sweep_prefix_go _ _ _ _ j HsX) as [m Hm].
    exists m. split; [exact Hm|]. apply sweepX_step_sees.
    destruct (sweep_prefix_ok (pos ent2) (velocity ent2) (f_heap frX)
                _ (currentEntities fr) _ m j
                (fun m o => sweepX_step_ok (pos ent2) (velocity ent2)
                              (f_heap frX) (fst (startX dt frX ent2)) m o)
                HX0 Hm) as (_ & _ & [_ Hd]).
    rewrite Hd by assumption. exact HreadX.
  - destruct (sweep_prefix_go _ _ _ _ j HsY) as [m Hm].
    exists m. split; [exact Hm|]. apply sweepY_step_sees.
    destruct (sweep_prefix_ok (pos ent2) (velocity ent2)
                (f_heap (placeX frX mx))
                _ (currentEntities fr) _ m j
                (fun m o => sweepY_step_ok (pos ent2) (velocity ent2)
                              (f_heap (placeX frX mx))
                              (fst (startY dt (placeX frX mx) (m_ent mx))) m o)
                HY0 Hm) as (_ & _ & [_ Hd]).
    rewrite Hd by assumption.
    destruct HsY0 as [_ HdY]. rewrite HdY by assumption. exact HreadX.
Qed.

(** The two crates: when b (index 1) is resolved, the turn of its sweep on
    X over a (index 0) is the turn in which a stands where the frame
    commits it, at (101, 100); there the tentative rectangle of b collides
    with a, which it does not where a was at the start of the frame. *)
Lemma entity_observes_sequential_updates_witness :
  let E := Scenario.crates in
  let dt := deltaTimeOf (10 - lastTimeRef E) (timeScale (physicsRef E)) in
  exists fr a b p,
    frameBefore Host.math Scenario.noKeys 10 E 1 = Go fr
    /\ currentEntities fr !! 0%nat = Some a /\ id a = "a"%string
    /\ currentEntities fr !! 1%nat = Some b /\ id b = "b"%string
    /\ x p == 101 /\ y p == 100
    /\ let entX := snd (behaviours Host.math 10 fr b) in
       let frX :=
         forces (physicsRef E) dt 10 Scenario.noKeys
           (fst (behaviours Host.math 10 fr b)) entX in
       let rX := fst (startX dt frX entX) in
       let mX0 := snd (startX dt frX entX) in
       sweepX_step rX mX0 a = sweepX_step_seeing p rX mX0 a
       /\ checkCollision rX (seenAt p a) = true
       /\ checkCollision rX (seenAt (Scenario.vec 100 100) a) = false.
Proof.
  cbv zeta.
  pose (mode := Scenario.playing Scenario.crates_level).
  pose (E' := fst (gameLoop Host.math mode Scenario.noKeys 10
                     Scenario.crates)).
  assert (Hwf : wellFormed (heap Scenario.crates)
                  (entitiesRef Scenario.crates)).
  { assert (Hrefs : refsOf (entitiesRef Scenario.crates)
                    = [1; 2; 3; 4; 5; 6]%nat) by (vm_compute; reflexivity).
    split; rewrite Hrefs.
    + assert (Hn : next (heap Scenario.crates) = 7%nat)
        by (vm_compute; reflexivity).
      rewrite Hn. repeat constructor.
    + repeat (apply NoDup_cons_2;
              [rewrite ?elem_of_cons, elem_of_nil; lia|]).
      apply NoDup_nil_2. }
  assert (Hloop : gameLoop Host.math mode Scenario.noKeys 10 Scenario.crates
                  = (E', Committed)).
  { assert (Hs : snd (gameLoop Host.math mode Scenario.noKeys 10
                        Scenario.crates) = Committed)
      by (vm_compute; reflexivity).
    subst E'. destruct (gameLoop _ _ _ _ _) as [E1 o]. cbn in Hs. subst o.
    reflexivity. }
  let v := eval vm_compute in
             (frameBefore Host.math Scenario.noKeys 10 Scenario.crates 1) in
  lazymatch v with
  | Go ?fr =>
      assert (Hfr : frameBefore Host.math Scenario.noKeys 10
                      Scenario.crates 1 = Go fr)
        by (vm_compute; reflexivity);
      let va := eval vm_compute in (currentEntities fr !! 0%nat) in
      let vb := eval vm_compute in (currentEntities fr !! 1%nat) in
      lazymatch va with
      | Some ?a =>
          lazymatch vb with
          | Some ?b =>
              assert (Ha : currentEntities fr !! 0%nat = Some a)
                by (vm_compute; reflexivity);
              assert (Hb : currentEntities fr !! 1%nat = Some b)
                by (vm_compute; reflexivity);
              destruct (entity_observes_sequential_updates Host.math mode
                          Scenario.noKeys 10 Scenario.crates E' 1 fr b
                          Hwf Hloop Hfr Hb eq_refl)
                as (frEnd & mx & my & HfrEnd & _ & _ & _ & _ & _ & _ & _
                    & Hturns);
              exists fr, a, b
          end
      end
  end.
  let v := eval vm_compute in
             (frameLoop Host.math Scenario.noKeys 10 Scenario.crates) in
  lazymatch v with
  | Go ?frE =>
      assert (HfrE : frameLoop Host.math Scenario.noKeys 10 Scenario.crates
                     = Go frE) by (vm_compute; reflexivity);
      rewrite HfrE in HfrEnd; injection HfrEnd as <-;
      let vp := eval vm_compute in (observedPos frE 0) in
      lazymatch vp with
      | Some ?p =>
          exists p;
          assert (Hp : observedPos frE 0 = Some p) by (vm_compute; reflexivity);
          cbv zeta in Hturns;
          destruct (Hturns 0%nat _ p ltac:(lia) Ha Hp) as [(m & Hm & HX) _]
      end
  end.
  injection Hm as <-.
  split; [exact Hfr|]. split; [exact Ha|]. split; [reflexivity|].
  split; [exact Hb|]. split; [reflexivity|].
  split; [reflexivity|]. split; [reflexivity|].
  split; [exact HX|].
  split; vm_compute; reflexivity.
Defined.

(** ** The control of the player, in the frame *)

Lemma applyGravity_keeps_x (phys : GlobalPhysics) (deltaTime : Q) (h : Heap)
    (ent : GameEntity) (r : ref) :
  x (deref (applyGravity phys deltaTime h ent) r) = x (deref h r).
Proof. unfold applyGravity. apply setY_keeps_x. Qed.

(** C6, as amended.  In the loop of a frame, let [fr] be the state in
    which the loop reaches the Player, at index [i], and let the Player
    not be static.  The loop goes on from the state that the control of
    the Player leaves: the sweeps of the Player start from it, and the
    bodies of the entities after the Player follow; when the frame is
    committed, the state it commits is the one they end in.  The control
    runs after the AI logic and the gravity, which leave the horizontal
    velocity [vx] and the horizontal position as they are.  With a
    horizontal key held, the horizontal velocity receives +300 dt and
    -300 dt per held direction, the click target is cleared, and the
    result is multiplied by the friction.  Otherwise, with a click target,
    the target is cleared and the velocity set to 0 when the centre of the
    Player is less than 5 away from it, and the velocity is set to
    sign(distance) * 200, without friction, when it is not.  Otherwise the
    velocity is multiplied by the friction. *)
Theorem player_is_controlled_in_its_turn (M : MathLib) (keys : Keys)
    (time : Q) (E : Engine) (i : nat) (fr : Frame) (ent : GameEntity) :
  frameBefore M keys time E i = Go fr ->
  currentEntities fr !! i = Some ent ->
  is_player ent = true ->
  isStatic ent = false ->
  let phys := physicsRef E in
  let dt := deltaTimeOf (time - lastTimeRef E) (timeScale phys) in
  let fr2 := fst (behaviours M time fr ent) in
  let ent2 := snd (behaviours M time fr ent) in
  let fr4 := forces phys dt time keys fr2 ent2 in
  let v := velocity ent2 in
  let vx := x (deref (f_heap fr2) v) in
  let vx' := x (deref (f_heap fr4) v) in
  let accel :=
    (if heldRight keys then 300 * dt else 0)
    - (if heldLeft keys then 300 * dt else 0) in
  frameLoop M keys time E
  = match sweepsFrom dt keys i fr4 ent2 with
    | Go fr' =>
        runLoop (processEntity M phys dt time keys)
          (seq (S i) (length (entitiesRef E) - S i)) fr'
    | Stop sig fr' => Stop sig fr'
    end
  /\ (forall mode E',
        gameLoop M mode keys time E = (E', Committed) ->
        exists fr' frEnd,
          sweepsFrom dt keys i fr4 ent2 = Go fr'
          /\ runLoop (processEntity M phys dt time keys)
               (seq (S i) (length (entitiesRef E) - S i)) fr'
             = Go frEnd
          /\ E' = engineOf E time frEnd
                    (List.filter active (currentEntities frEnd)
                     ++ newProjectiles frEnd))
  /\ fr4 = playerControl phys dt time keys ent2
             (setHeap fr2 (applyGravity phys dt (f_heap fr2) ent2))
  /\ (heldRight keys || heldLeft keys = true ->
        vx' == (vx + accel) * friction phys /\ f_targetX fr4 = None)
  /\ (heldRight keys || heldLeft keys = false ->
        match f_targetX fr2 with
        | Some targetX =>
            let center :=
              x (deref (f_heap fr2) (pos ent2)) + x (size ent2) / 2 in
            let diff := targetX - center in
            (Qabs diff < 5 -> vx' = 0 /\ f_targetX fr4 = None)
            /\ (5 <= Qabs diff ->
                vx' = Num.sign diff * 200 /\ f_targetX fr4 = Some targetX)
        | None => vx' = vx * friction phys /\ f_targetX fr4 = None
        end).
Proof.
  intros Hfr Hi Hplayer Hstatic. cbv zeta.
  set (phys := physicsRef E).
  set (dt := deltaTimeOf (time - lastTimeRef E) (timeScale phys)).
  pose proof (behaviours_rewritten M time fr ent) as Hrw. cbv zeta in Hrw.
  destruct Hrw as (_ & [Hfixed _] & _).
  assert (Hstatic2 : isStatic (snd (behaviours M time fr ent)) = false).
  { apply (f_equal isStatic) in Hfixed. cbn in Hfixed. congruence. }
  assert (Hplayer2 : is_player (snd (behaviours M time fr ent)) = true).
  { apply (f_equal type) in Hfixed. cbn in Hfixed. unfold is_player in *.
    congruence. }
  assert (Hgoes :
    frameLoop M keys time E
    = match sweepsFrom dt keys i
              (forces phys dt time keys (fst (behaviours M time fr ent))
                 (snd (behaviours M time fr ent)))
              (snd (behaviours M time fr ent)) with
      | Go fr' =>
          runLoop (processEntity M phys dt time keys)
            (seq (S i) (length (entitiesRef E) - S i)) fr'
      | Stop sig fr' => Stop sig fr'
      end).
  { destruct (frameBefore_rewritten M keys time E i fr Hfr) as [Hall _].
    pose proof (Forall2_length _ _ _ Hall) as Hlen.
    pose proof (lookup_lt_Some _ _ _ Hi) as Hilt.
    rewrite frameLoop_frameBefore.
    replace (length (entitiesRef E))
      with (S i + (length (entitiesRef E) - S i))%nat at 1 by lia.
    unfold frameBefore at 1. rewrite seq_app, runLoop_app.
    change (runLoop (processEntity M (physicsRef E)
                       (deltaTimeOf (time - lastTimeRef E)
                          (timeScale (physicsRef E))) time keys)
              (seq 0 (S i)) (startFrame E))
      with (frameBefore M keys time E (S i)).
    rewrite frameBefore_S, Hfr.
    unfold processEntity at 1. rewrite Hi.
    destruct (behaviours M time fr ent) as [fr2 ent2]. cbn [fst snd] in *.
    rewrite resolveEntity_steps, Hstatic2. reflexivity. }
  split; [exact Hgoes|].
  split.
  { intros mode E' Hloop.
    destruct (gameLoop_committed M mode keys time E E' Hloop)
      as (frEnd & HfrEnd & ->).
    rewrite Hgoes in HfrEnd.
    destruct (sweepsFrom dt keys i _ _) as [fr' | sig fr'];
      [|discriminate].
    exists fr', frEnd. auto. }
  unfold forces. rewrite Hplayer2.
  split; [reflexivity|].
  destruct (playerControl_law phys dt time keys
              (snd (behaviours M time fr ent))
              (setHeap (fst (behaviours M time fr ent))
                 (applyGravity phys dt
                    (f_heap (fst (behaviours M time fr ent)))
                    (snd (behaviours M time fr ent)))))
    as (_ & Hheld & Hfree).
  cbv zeta in Hheld, Hfree. cbn [f_heap setHeap f_targetX] in Hheld, Hfree.
  split.
  - intros Hk. destruct (Hheld Hk) as [H1 H2].
    rewrite applyGravity_keeps_x in H1. split; assumption.
  - intros Hk. specialize (Hfree Hk).
    destruct (f_targetX (fst (behaviours M time fr ent))) as [targetX|].
    + rewrite !applyGravity_keeps_x in Hfree. exact Hfree.
    + rewrite !applyGravity_keeps_x in Hfree. exact Hfree.
Qed.

(** C6, as stated, fails for a Player that is static.  In the level of the
    two crates the Player is made static in the inspector, the scene is
    clicked at x = 300 and a frame runs at 10 ms with the right arrow
    held: the horizontal velocity of the Player, 0, should have become
    (0 + 300 * 0.01) * 0.85 and the click target should have been
    cleared; the frame leaves both as they were. *)
Lemma static_player_is_not_controlled :
  let c := handleUpdateEntity (c_mode Scenario.campaign) "player_1"
             [a_isStatic true] Scenario.campaign in
  let keys : Keys := fun k => String.eqb k "ArrowRight" in
  let E := handleSceneClick (c_mode c) 300 (c_engine c) in
  let frame := gameLoop Host.math (c_mode c) keys 10 E in
  map (fun e => (id e, type e, isStatic e, velocity e)) (entitiesRef E)
  = [("a", PLATFORM, false, 2); ("b", PLATFORM, false, 4);
     ("player_1", PLAYER, true, 6)]%string%nat
  /\ heldRight keys = true
  /\ x (deref (heap E) 6%nat) == 0
  /\ targetXRef E = Some 300
  /\ deltaTimeOf (10 - lastTimeRef E) (timeScale (physicsRef E)) == 0.01
  /\ friction (physicsRef E) == 0.85
  /\ snd frame = Committed
  /\ x (deref (heap (fst frame)) 6%nat) == 0
  /\ targetXRef (fst frame) = Some 300.
Proof. cbv zeta. repeat split; vm_compute; reflexivity. Qed.

(** The level of the two crates, the right arrow held in a frame at 10 ms:
    the Player, at index 2, is not static, and the control leaves it the
    horizontal velocity (0 + 300 * 0.01) * 0.85 and no click target. *)
Lemma player_is_controlled_in_its_turn_witness :
  let E := Scenario.crates in
  let keys : Keys := fun k => String.eqb k "ArrowRight" in
  let dt := deltaTimeOf (10 - lastTimeRef E) (timeScale (physicsRef E)) in
  exists fr pl,
    frameBefore Host.math keys 10 E 2 = Go fr
    /\ currentEntities fr !! 2%nat = Some pl
    /\ id pl = "player_1"%string
    /\ let fr2 := fst (behaviours Host.math 10 fr pl) in
       let ent2 := snd (behaviours Host.math 10 fr pl) in
       let fr4 := forces (physicsRef E) dt 10 keys fr2 ent2 in
       x (deref (f_heap fr4) (velocity ent2)) == 2.55
       /\ f_targetX fr4 = None.
Proof.
  cbv zeta.
  let v := eval vm_compute in
             (frameBefore Host.math (fun k => String.eqb k "ArrowRight") 10
                Scenario.crates 2) in
  lazymatch v with
  | Go ?fr =>
      assert (Hfr : frameBefore Host.math
                      (fun k => String.eqb k "ArrowRight") 10
                      Scenario.crates 2 = Go fr)
        by (vm_compute; reflexivity);
      let vp := eval vm_compute in (currentEntities fr !! 2%nat) in
      lazymatch vp with
      | Some ?pl =>
          assert (Hpl : currentEntities fr !! 2%nat = Some pl)
            by (vm_compute; reflexivity);
          destruct (player_is_controlled_in_its_turn Host.math
                      (fun k => String.eqb k "ArrowRight") 10
                      Scenario.crates 2 fr pl Hfr Hpl eq_refl eq_refl)
            as (_ & _ & _ & Hheld & _);
          exists fr, pl
      end
  end.
  split; [exact Hfr|]. split; [exact Hpl|]. split; [reflexivity|].
  cbv zeta in Hheld. destruct (Hheld eq_refl) as [Hvx Htarget].
  split; [|exact Htarget].
  eapply Qeq_trans; [exact Hvx|]. vm_compute. reflexivity.
Defined.

(** ** Projectiles spawned in a frame *)

(** A run of the body keeps the objects of the new projectiles apart from
    each other and from those of the entities, whether or not the entities
    share objects among themselves. *)
Lemma processEntity_keeps_new_apart (M : MathLib) (phys : GlobalPhysics)
    (deltaTime time : Q) (keys : Keys) (fr fr' : Frame) (k : nat) :
  Forall (fun r => (r < next (f_heap fr))%nat) (frameRefs fr) ->
  NoDup (refsOf (newProjectiles fr)) ->
  Forall (fun r => r ∉ refsOf (newProjectiles fr))
    (refsOf (currentEntities fr)) ->
  processEntity M phys deltaTime time keys fr k = Go fr' ->
  Forall (fun r => (r < next (f_heap fr'))%nat) (frameRefs fr')
  /\ NoDup (refsOf (newProjectiles fr'))
  /\ Forall (fun r => r ∉ refsOf (newProjectiles fr'))
       (refsOf (currentEntities fr')).
Proof.
  intros Hlt Hnd Hout Hgo.
  destruct (currentEntities fr !! k) as [ent|] eqn:Hk.
  2:{ unfold processEntity in Hgo. rewrite Hk in Hgo. injection Hgo as <-.
      auto. }
  pose proof (take_drop_middle _ _ _ Hk) as Hsplit.
  pose proof (lookup_lt_Some _ _ _ Hk) as Hklt.
  unfold frameRefs in Hlt. apply Forall_app in Hlt as [Hcur Hpend].
  assert (Hrefs : refsOf (currentEntities fr)
                  = refsOf (take k (currentEntities fr))
                    ++ pos ent :: velocity ent
                       :: refsOf (drop (S k) (currentEntities fr))).
  { rewrite <- Hsplit at 1. rewrite refsOf_app. reflexivity. }
  rewrite Hrefs in Hcur, Hout.
  apply Forall_app in Hcur as [Hcur1 Hcur2].
  apply Forall_cons in Hcur2 as [Hp Hcur2].
  apply Forall_cons in Hcur2 as [Hv Hcur2].
  apply Forall_app in Hout as [Hout1 Hout2].
  apply Forall_cons in Hout2 as [Hpo Hout2].
  apply Forall_cons in Hout2 as [Hvo Hout2].
  destruct (processEntity_refs M phys deltaTime time keys fr fr' k ent
              Hk Hp Hv Hgo)
    as (Hn & ent' & extra & Hc & Hnp & Hp' & Hv' & Hv'lt & Hex & Hexnd & Hvex).
  assert (Hrefs' : refsOf (currentEntities fr')
                   = refsOf (take k (currentEntities fr))
                     ++ pos ent :: velocity ent'
                        :: refsOf (drop (S k) (currentEntities fr))).
  { rewrite Hc, insert_take_drop by assumption.
    rewrite refsOf_app.
    change (refsOf (ent' :: drop (S k) (currentEntities fr)))
      with (pos ent' :: velocity ent'
            :: refsOf (drop (S k) (currentEntities fr))).
    rewrite Hp'. reflexivity. }
  assert (Hmono : forall l, Forall (fun r => (r < next (f_heap fr))%nat) l ->
                            Forall (fun r => (r < next (f_heap fr'))%nat) l).
  { intros l Hl. eapply Forall_impl; [exact Hl|]. cbn. intros; lia. }
  assert (Hfresh : forall r, (r < next (f_heap fr))%nat -> r ∉ extra).
  { intros r Hr Hin. rewrite Forall_forall in Hex.
    specialize (Hex r Hin). lia. }
  assert (Hkeep : forall l,
            Forall (fun r => (r < next (f_heap fr))%nat) l ->
            Forall (fun r => r ∉ refsOf (newProjectiles fr)) l ->
            Forall (fun r => r ∉ refsOf (newProjectiles fr) ++ extra) l).
  { intros l Hl1 Hl2. rewrite Forall_forall in *. intros r Hr.
    rewrite elem_of_app. intros [Hin | Hin].
    - exact (Hl2 r Hr Hin).
    - exact (Hfresh r (Hl1 r Hr) Hin). }
  split; [|split].
  - unfold frameRefs. rewrite Hrefs', Hnp.
    rewrite !Forall_app, !Forall_cons.
    split; [split; [auto|split; [lia|split; [assumption|auto]]]|].
    split; [auto|].
    eapply Forall_impl; [exact Hex|]. cbn. intros; lia.
  - rewrite Hnp. apply NoDup_app. split; [assumption|].
    split; [|assumption].
    intros r Hr. apply Hfresh. rewrite Forall_forall in Hpend. auto.
  - rewrite Hrefs', Hnp. rewrite Forall_app, !Forall_cons.
    split; [auto|].
    split.
    { rewrite elem_of_app. intros [Hin | Hin]; [contradiction|].
      exact (Hfresh _ Hp Hin). }
    split; [|auto].
    rewrite elem_of_app. intros [Hin | Hin]; [|contradiction].
    destruct Hv' as [Heq | Hge]; [rewrite Heq in Hin; contradiction|].
    rewrite Forall_forall in Hpend. specialize (Hpend _ Hin). lia.
Qed.

Lemma frameBefore_keeps_new_apart (M : MathLib) (keys : Keys) (time : Q)
    (E : Engine) (k : nat) (fr : Frame) :
  Forall (fun r => (r < next (heap E))%nat) (refsOf (entitiesRef E)) ->
  frameBefore M keys time E k = Go fr ->
  Forall (fun r => (r < next (f_heap fr))%nat) (frameRefs fr)
  /\ NoDup (refsOf (newProjectiles fr))
  /\ Forall (fun r => r ∉ refsOf (newProjectiles fr))
       (refsOf (currentEntities fr)).
Proof.
  intros Hlt. revert fr. induction k as [|k IH]; intros fr Hfr.
  - injection Hfr as <-. unfold frameRefs. cbn. rewrite app_nil_r.
    split; [assumption|]. split; [constructor|].
    apply Forall_forall. intros r _. apply not_elem_of_nil.
  - apply frameBefore_pred in Hfr as (fr0 & Hfr0 & Hbody).
    destruct (IH fr0 Hfr0) as (H1 & H2 & H3).
    eapply processEntity_keeps_new_apart; eassumption.
Qed.

(** C10, as amended.  In a frame that is committed, over entities whose
    objects exist, the projectiles that the turrets spawned are appended
    to the entities after the loop has run for every entity.  Each of them
    is as it was spawned: its objects hold the spawn position and the
    velocity aimed by its turret (it was not moved), and it is a visible,
    non-static projectile.  What the loop does does not depend on the
    projectiles that are waiting: with any list of them in front, it ends
    in the same state but for that list.  In the frame that follows,
    whatever its keys and its time, the loop that reaches the index of
    such a projectile finds it as it was spawned, its objects untouched,
    and resolves it as it does any entity that is not static: the forces,
    then the two sweeps and what follows them.  A frame that is committed
    reaches it, and resolves it to the end. *)
Theorem spawned_projectiles_wait_for_next_frame (M : MathLib) (mode : Mode)
    (keys : Keys) (time : Q) (E E' : Engine) :
  Forall (fun r => (r < next (heap E))%nat) (refsOf (entitiesRef E)) ->
  gameLoop M mode keys time E = (E', Committed) ->
  exists frEnd,
    frameLoop M keys time E = Go frEnd
    /\ entitiesRef E'
       = List.filter active (currentEntities frEnd) ++ newProjectiles frEnd
    /\ length (currentEntities frEnd) = length (entitiesRef E)
    /\ Forall (fun pr =>
                 spawnedIn M keys time E (heap E') pr
                 /\ type pr = PROJECTILE
                 /\ isStatic pr = false
                 /\ isVisible pr = true)
              (newProjectiles frEnd)
    /\ (forall pending,
          runLoop
            (processEntity M (physicsRef E)
               (deltaTimeOf (time - lastTimeRef E) (timeScale (physicsRef E)))
               time keys)
            (seq 0 (length (entitiesRef E)))
            (withPending pending (startFrame E))
          = mapFlow (withPending pending) (frameLoop M keys time E))
    /\ forall (keys' : Keys) (time' : Q) (k : nat) (pr : GameEntity)
         (fr : Frame),
         (length (List.filter active (currentEntities frEnd)) <= k)%nat ->
         entitiesRef E' !! k = Some pr ->
         frameBefore M keys' time' E' k = Go fr ->
         let phys' := physicsRef E' in
         let dt' := deltaTimeOf (time' - lastTimeRef E') (timeScale phys') in
         currentEntities fr !! k = Some pr
         /\ deref (f_heap fr) (pos pr) = deref (heap E') (pos pr)
         /\ deref (f_heap fr) (velocity pr) = deref (heap E') (velocity pr)
         /\ processEntity M phys' dt' time' keys' fr k
            = sweepsFrom dt' keys' k (forces phys' dt' time' keys' fr pr) pr
         /\ frameBefore M keys' time' E' (S k)
            = sweepsFrom dt' keys' k (forces phys' dt' time' keys' fr pr) pr
         /\ forall mode' E'',
              gameLoop M mode' keys' time' E' = (E'', Committed) ->
              exists fr',
                sweepsFrom dt' keys' k (forces phys' dt' time' keys' fr pr) pr
                = Go fr'.
Proof.
  intros Hvalid Hloop.
  destruct (gameLoop_committed M mode keys time E E' Hloop)
    as (frEnd & HfrEnd & ->).
  exists frEnd. split; [assumption|]. split; [reflexivity|].
  pose proof HfrEnd as Hend. rewrite frameLoop_frameBefore in Hend.
  destruct (loopInv_holds M keys time E Hvalid _ frEnd Hend) as (Hlen & _).
  split; [assumption|].
  assert (Hspawned : Forall (fun pr =>
                 spawnedIn M keys time E (f_heap frEnd) pr
                 /\ type pr = PROJECTILE
                 /\ isStatic pr = false
                 /\ isVisible pr = true)
              (newProjectiles frEnd)).
  { eapply Forall_impl;
      [exact (pending_untouched M keys time E Hvalid _ frEnd Hend)|].
    cbn. intros pr (Hsp & _ & _).
    split; [exact Hsp|].
    destruct Hsp as (i & fri & ent & _ & _ & Hpr & _). cbv zeta in Hpr.
    rewrite Hpr. repeat split. }
  split; [exact Hspawned|].
  split; [intros pending; apply runLoop_withPending|].
  intros keys' time' k pr fr Hk Hpr Hfr. cbv zeta.
  destruct (frameBefore_keeps_new_apart M keys time E _ frEnd Hvalid Hend)
    as (Hlt & Hnd & Hout).
  cbn [entitiesRef engineOf] in Hpr.
  set (kept := List.filter active (currentEntities frEnd)) in *.
  assert (Hvalid' : Forall (fun r => (r < next (f_heap frEnd))%nat)
                      (refsOf (kept ++ newProjectiles frEnd))).
  { rewrite Forall_forall in *. intros r Hr. apply Hlt.
    eapply elem_of_sublist; [exact Hr|].
    rewrite refsOf_app. unfold frameRefs.
    apply sublist_app; [apply refsOf_filter | reflexivity]. }
  assert (Hnew : newProjectiles frEnd !! (k - length kept)%nat = Some pr).
  { rewrite lookup_app_r in Hpr by assumption. exact Hpr. }
  assert (Hfree : forall r, r = pos pr \/ r = velocity pr ->
            forall j o0, (j < k)%nat ->
              (kept ++ newProjectiles frEnd) !! j = Some o0 ->
              r <> pos o0 /\ r <> velocity o0).
  { intros r Hr j o0 Hj Ho0.
    destruct (refs_lookup _ _ _ Hnew) as [Hpin Hvin].
    destruct (Nat.lt_ge_cases j (length kept)) as [Hjl | Hjl].
    - rewrite lookup_app_l in Ho0 by assumption.
      destruct (refs_lookup _ _ _ Ho0) as [Hp0 Hv0].
      assert (Hsub : forall r0, r0 ∈ refsOf kept ->
                                r0 ∉ refsOf (newProjectiles frEnd)).
      { intros r0 Hr0. rewrite Forall_forall in Hout. apply Hout.
        eapply elem_of_sublist; [exact Hr0 | apply refsOf_filter]. }
      assert (Hrin : r ∈ refsOf (newProjectiles frEnd))
        by (destruct Hr as [-> | ->]; assumption).
      split; intros Heq; [apply (Hsub _ Hp0) | apply (Hsub _ Hv0)];
        rewrite <- Heq; exact Hrin.
    - rewrite lookup_app_r in Ho0 by assumption.
      destruct (refs_distinct (newProjectiles frEnd) (k - length kept)
                  (j - length kept) pr o0 Hnd ltac:(lia) Hnew Ho0)
        as (H1 & H2 & H3 & H4).
      destruct Hr as [-> | ->]; auto. }
  set (E' := engineOf E time frEnd (kept ++ newProjectiles frEnd)) in *.
  change (Forall (fun r => (r < next (heap E'))%nat) (refsOf (entitiesRef E')))
    in Hvalid'.
  destruct (loopInv_holds M keys' time' E' Hvalid' k fr Hfr)
    as (_ & _ & Hrest & _ & Hcells).
  assert (Hfrk : currentEntities fr !! k = Some pr)
    by (rewrite (Hrest k (Nat.le_refl k)); exact Hpr).
  destruct (valid_lookup E' Hvalid' k pr Hpr) as [Hpp Hpv].
  split; [exact Hfrk|].
  split; [apply Hcells; [assumption | apply Hfree; auto]|].
  split; [apply Hcells; [assumption | apply Hfree; auto]|].
  rewrite Forall_lookup in Hspawned.
  destruct (Hspawned _ _ Hnew) as ((i0 & fri & turret & _ & _ & Hpr0 & _)
                                   & _ & Hstatic & _).
  cbv zeta in Hpr0.
  assert (Hb : behaviours M time' fr pr = (setHeap fr (f_heap fr), pr)).
  { rewrite Hpr0. reflexivity. }
  assert (Hturn :
    processEntity M (physicsRef E')
      (deltaTimeOf (time' - lastTimeRef E') (timeScale (physicsRef E')))
      time' keys' fr k
    = sweepsFrom
        (deltaTimeOf (time' - lastTimeRef E') (timeScale (physicsRef E')))
        keys' k
        (forces (physicsRef E')
           (deltaTimeOf (time' - lastTimeRef E') (timeScale (physicsRef E')))
           time' keys' fr pr) pr).
  2:{ split; [exact Hturn|].
      assert (HS : frameBefore M keys' time' E' (S k)
                   = processEntity M (physicsRef E')
                       (deltaTimeOf (time' - lastTimeRef E')
                          (timeScale (physicsRef E'))) time' keys' fr k)
        by (rewrite frameBefore_S, Hfr; reflexivity).
      split; [rewrite HS; exact Hturn|].
      intros mode' E'' Hloop'.
      destruct (gameLoop_committed M mode' keys' time' E' E'' Hloop')
        as (frEnd' & HfrEnd' & _).
      rewrite frameLoop_frameBefore in HfrEnd'.
      pose proof (lookup_lt_Some (entitiesRef E') _ _ Hpr) as Hklt.
      destruct (frameBefore_prefix M keys' time' E'
                  (length (entitiesRef E') - S k) (S k) frEnd') as [fr' Hfr'].
      { replace (S k + (length (entitiesRef E') - S k))%nat
          with (length (entitiesRef E')) by lia.
        exact HfrEnd'. }
      exists fr'. rewrite <- Hturn, <- HS. exact Hfr'. }
  unfold processEntity. rewrite Hfrk.
  rewrite Hb, resolveEntity_steps, Hstatic.
  assert (Hf : forces (physicsRef E')
                 (deltaTimeOf (time' - lastTimeRef E')
                    (timeScale (physicsRef E'))) time' keys'
                 (setHeap fr (f_heap fr)) pr
               = forces (physicsRef E')
                   (deltaTimeOf (time' - lastTimeRef E')
                      (timeScale (physicsRef E'))) time' keys' fr pr).
  { unfold forces. rewrite Hpr0. reflexivity. }
  rewrite Hf. reflexivity.
Qed.

(** The turret in sight of the player, in a frame at 16 ms: the frame is
    committed and appends the projectile, at index 2; in the frame at
    32 ms the loop reaches it, finds it at its spawn position, and
    resolves it. *)
Lemma spawned_projectiles_wait_for_next_frame_witness :
  let E := Scenario.turret_world in
  let mode := Scenario.playing Scenario.turret_level in
  let E' := fst (gameLoop Host.math mode Scenario.noKeys 16 E) in
  let dt' := deltaTimeOf (32 - lastTimeRef E') (timeScale (physicsRef E')) in
  map id (entitiesRef E')
  = ["turret"; "player_1"; "proj_turret_16"]%string
  /\ exists pr fr,
       entitiesRef E' !! 2%nat = Some pr
       /\ frameBefore Host.math Scenario.noKeys 32 E' 2 = Go fr
       /\ currentEntities fr !! 2%nat = Some pr
       /\ deref (f_heap fr) (pos pr) = deref (heap E') (pos pr)
       /\ processEntity Host.math (physicsRef E') dt' 32 Scenario.noKeys fr 2
          = sweepsFrom dt' Scenario.noKeys 2
              (forces (physicsRef E') dt' 32 Scenario.noKeys fr pr) pr.
Proof.
  cbv zeta. split; [vm_compute; reflexivity|].
  destruct (spawned_projectiles_wait_for_next_frame Host.math
              (Scenario.playing Scenario.turret_level) Scenario.noKeys 16
              Scenario.turret_world
              (fst (gameLoop Host.math
                      (Scenario.playing Scenario.turret_level)
                      Scenario.noKeys 16 Scenario.turret_world)))
    as (frEnd & H1 & _ & _ & _ & _ & Hnext).
  - assert (Hrefs : refsOf (entitiesRef Scenario.turret_world)
                    = [1; 2; 3; 4]%nat) by (vm_compute; reflexivity).
    assert (Hn : next (heap Scenario.turret_world) = 5%nat)
      by (vm_compute; reflexivity).
    rewrite Hrefs, Hn. repeat constructor.
  - assert (Hs : snd (gameLoop Host.math
                        (Scenario.playing Scenario.turret_level)
                        Scenario.noKeys 16 Scenario.turret_world) = Committed)
      by (vm_compute; reflexivity).
    destruct (gameLoop _ _ _ _ _) as [E' o]. cbn in Hs. subst o. reflexivity.
  - assert (Hlen : length (List.filter active (currentEntities frEnd))
                   = 2%nat).
    { assert (H : match frameLoop Host.math Scenario.noKeys 16
                          Scenario.turret_world with
                  | Go fr => length (List.filter active (currentEntities fr))
                  | Stop _ _ => 0%nat
                  end = 2%nat) by (vm_compute; reflexivity).
      rewrite H1 in H. exact H. }
    let E' := constr:(fst (gameLoop Host.math
                             (Scenario.playing Scenario.turret_level)
                             Scenario.noKeys 16 Scenario.turret_world)) in
    let vp := eval vm_compute in (entitiesRef E' !! 2%nat) in
    let vf := eval vm_compute in
                (frameBefore Host.math Scenario.noKeys 32 E' 2) in
    lazymatch vp with
    | Some ?pr =>
        lazymatch vf with
        | Go ?fr =>
            assert (Hpr : entitiesRef E' !! 2%nat = Some pr)
              by (vm_compute; reflexivity);
            assert (Hfr : frameBefore Host.math Scenario.noKeys 32 E' 2
                          = Go fr) by (vm_compute; reflexivity);
            exists pr, fr;
            destruct (Hnext Scenario.noKeys 32 2%nat pr fr
                        ltac:(rewrite Hlen; lia) Hpr Hfr)
              as (Ha & Hb & _ & Hc & _)
        end
    end.
    split; [exact Hpr|]. split; [exact Hfr|]. split; [exact Ha|].
    split; [exact Hb | exact Hc].
Defined.

(** C10, as stated, fails in its last clause when the frame that follows
    ends before the loop reaches the projectile.  A turret stands 15 to
    the left of the player: the frame at 16 ms is committed with the
    projectile, spawned on the player, at index 2.  In the frame at 32 ms
    the Player, at index 1, touches it and dies: the loop is left before
    index 2, the level is set up again without the projectile, and the
    objects of the projectile are as they were spawned.  It never moved
    and was never the entity of a sweep. *)
Lemma projectile_is_dropped_when_the_player_dies_first :
  let mode := Scenario.playing Scenario.ambush_level in
  let frame1 := gameLoop Host.math mode Scenario.noKeys 16
                  Scenario.ambush_world in
  let frame2 := gameLoop Host.math mode Scenario.noKeys 32 (fst frame1) in
  snd frame1 = Committed
  /\ map (fun e => (id e, pos e, velocity e)) (entitiesRef (fst frame1))
     = [("turret", 1, 2); ("player_1", 3, 4);
        ("proj_turret_16", 5, 6)]%string%nat
  /\ match frameBefore Host.math Scenario.noKeys 32 (fst frame1) 1 with
     | Go _ => True
     | Stop _ _ => False
     end
  /\ match frameBefore Host.math Scenario.noKeys 32 (fst frame1) 2 with
     | Stop Died _ => True
     | _ => False
     end
  /\ snd frame2 = ResetOutcome
  /\ map id (entitiesRef (fst frame2)) = ["turret"; "player_1"]%string
  /\ deref (heap (fst frame2)) 5%nat = deref (heap (fst frame1)) 5%nat
  /\ deref (heap (fst frame2)) 6%nat = deref (heap (fst frame1)) 6%nat.
Proof.
  cbv zeta.
  split; [vm_compute; reflexivity|]. split; [vm_compute; reflexivity|].
  split; [vm_compute; exact I|]. split; [vm_compute; exact I|].
  repeat split; vm_compute; reflexivity.
Qed.

(** ** The record of a turret across the frames *)






















